(** * Workout tracker: date keys, row codec, cache, queue and coordinator

    A shallow embedding of the synchronisation code of the workout tracker,
    with the properties of its specification stated and settled against it.

    - [JS]: the JavaScript primitives the code relies on.
    - [SheetsTs], [Gateway]: services/googleSheets.ts, the date key, the
      column letters, reading a day and updating it in place.
    - [SheetsOld]: the older TypeScript service, where it differs.
    - [Codec]: the row helpers of types/workout.ts.
    - [SheetsJs]: services/googleSheets.js, the service with a cache and a
      queue; [SheetsJsAuth]: its copy that sends a token.
    - [Tracker]: the WorkoutTracker component with its pending changes.

    JavaScript strings are modelled as [string], a sequence of 8-bit code
    units (Latin-1).  A JavaScript number is modelled by [JS.number]: the
    exact decimal value it prints as.  This agrees with IEEE doubles for
    values of at most 15 significant digits; the statements about numeric
    round trips say so in their hypotheses. *)

From Stdlib Require Import ZArith Ascii String List Lia Bool.
From stdpp Require Import base list strings gmap.
From Equations Require Import Equations.

Local Open Scope Z_scope.

(* ===================================================================== *)
(** * JavaScript primitives *)
(* ===================================================================== *)

Module JS.

(** ** Characters *)

Definition code (c : ascii) : Z := Z.of_nat (nat_of_ascii c).

Definition isChar (a c : ascii) : bool := Ascii.eqb a c.

(** WhiteSpace and LineTerminator code units below 256: TAB, LF, VT, FF, CR,
    SP and NBSP. *)
Definition isWhiteSpace (c : ascii) : bool :=
  ((9 <=? code c) && (code c <=? 13)) || (code c =? 32) || (code c =? 160).

Definition isDigit (c : ascii) : bool := (48 <=? code c) && (code c <=? 57).

Definition isLetter (c : ascii) : bool :=
  ((65 <=? code c) && (code c <=? 90)) || ((97 <=? code c) && (code c <=? 122)).

Definition digitVal (c : ascii) : Z := code c - 48.

Definition hexVal (c : ascii) : option Z :=
  if isDigit c then Some (code c - 48)
  else if (97 <=? code c) && (code c <=? 102) then Some (code c - 87)
  else if (65 <=? code c) && (code c <=? 70) then Some (code c - 55)
  else None.

Definition radixVal (radix : Z) (c : ascii) : option Z :=
  match hexVal c with
  | Some v => if v <? radix then Some v else None
  | None => None
  end.

Definition isRadixDigit (radix : Z) (c : ascii) : bool :=
  match radixVal radix c with Some _ => true | None => false end.

Definition digitChar (d : Z) : ascii := ascii_of_nat (Z.to_nat (48 + d)).

(** String.prototype.toLowerCase on one code unit. *)
Definition lowerChar (c : ascii) : ascii :=
  if ((65 <=? code c) && (code c <=? 90))
     || ((192 <=? code c) && (code c <=? 222) && negb (code c =? 215))
  then ascii_of_nat (Z.to_nat (code c + 32))
  else c.

(** ** Sequences of code units *)

Fixpoint dropWhile {A} (p : A -> bool) (l : list A) : list A :=
  match l with
  | [] => []
  | x :: r => if p x then dropWhile p r else l
  end.

Fixpoint takeWhile {A} (p : A -> bool) (l : list A) : list A :=
  match l with
  | [] => []
  | x :: r => if p x then x :: takeWhile p r else []
  end.

Definition trimStartL (l : list ascii) : list ascii := dropWhile isWhiteSpace l.
Definition trimEndL (l : list ascii) : list ascii :=
  rev (dropWhile isWhiteSpace (rev l)).
Definition trimL (l : list ascii) : list ascii := trimEndL (trimStartL l).

(** [s.split(sep)] for a one-character separator: the empty string splits
    into one empty piece. *)
Fixpoint splitL (sep : ascii) (l : list ascii) : list (list ascii) :=
  match l with
  | [] => [[]]
  | c :: r =>
      if isChar sep c then [] :: splitL sep r
      else match splitL sep r with
           | h :: t => (c :: h) :: t
           | [] => [[c]]
           end
  end.

Fixpoint startsWithL (p l : list ascii) : bool :=
  match p, l with
  | [], _ => true
  | a :: p', b :: l' => isChar a b && startsWithL p' l'
  | _ :: _, [] => false
  end.

(** [findIndex]: the first index the predicate holds at, from [index] on. *)
Fixpoint findIndexFrom {A} (p : A -> bool) (index : nat) (l : list A) : option nat :=
  match l with
  | [] => None
  | x :: rest => if p x then Some index else findIndexFrom p (S index) rest
  end.

Definition isNil {A} (l : list A) : bool :=
  match l with [] => true | _ => false end.

(** ** Strings *)

Abbreviation chars := list_ascii_of_string.
Abbreviation str := string_of_list_ascii.

Definition trim (s : string) : string := str (trimL (chars s)).
Definition split (s : string) (sep : ascii) : list string :=
  map str (splitL sep (chars s)).
Definition includes (s : string) (c : ascii) : bool :=
  existsb (isChar c) (chars s).
Definition toLowerCase (s : string) : string := str (map lowerChar (chars s)).

(** Truthiness of a string and of a possibly undefined string. *)
Definition truthyStr (s : string) : bool := negb (isNil (chars s)).
Definition truthy (c : option string) : bool :=
  match c with Some s => truthyStr s | None => false end.

(** [c || ''] *)
Definition orEmpty (c : option string) : string :=
  match c with Some s => s | None => EmptyString end.

(** ToString of a possibly undefined string, as the parsers apply it. *)
Definition toStr (c : option string) : string :=
  match c with Some s => s | None => "undefined" end.

(** ** Numbers *)

(** [Int z] is the integer z; [Frac m s] is m / 10^s with s > 0 and m not a
    multiple of 10.  The two zeros of JavaScript are both [Int 0]: they print
    alike and are both falsy. *)
Inductive number : Type :=
| NaN
| Infinity (neg : bool)
| Int (z : Z)
| Frac (m : Z) (s : nat).

Definition number_eqb (a b : number) : bool :=
  match a, b with
  | NaN, NaN => true
  | Infinity x, Infinity y => Bool.eqb x y
  | Int x, Int y => x =? y
  | Frac m s, Frac m' s' => (m =? m') && Nat.eqb s s'
  | _, _ => false
  end.

Fixpoint stripZeros (s : nat) (m : Z) : number :=
  match s with
  | O => Int m
  | S s' => if m mod 10 =? 0 then stripZeros s' (m / 10) else Frac m s
  end.

(** The number m * 10^e. *)
Definition mkNumber (m e : Z) : number :=
  if 0 <=? e then Int (m * 10 ^ e) else stripZeros (Z.to_nat (- e)) m.

Definition negate (x : number) : number :=
  match x with
  | NaN => NaN
  | Infinity b => Infinity (negb b)
  | Int z => Int (- z)
  | Frac m s => Frac (- m) s
  end.

Definition truthyNum (x : number) : bool :=
  match x with
  | NaN => false
  | Int z => negb (z =? 0)
  | _ => true
  end.

(** [x || 0] *)
Definition orZero (x : number) : number := if truthyNum x then x else Int 0.

(** Value of a digit sequence in a radix, most significant digit first. *)
Definition digitsValue (radix : Z) (ds : list ascii) : Z :=
  fold_left (fun acc c => acc * radix + default 0 (radixVal radix c)) ds 0.

Fixpoint digitsFuel (fuel : nat) (n : Z) (acc : list ascii) : list ascii :=
  match fuel with
  | O => acc
  | S f =>
      let acc' := digitChar (n mod 10) :: acc in
      if n <? 10 then acc' else digitsFuel f (n / 10) acc'
  end.

(** Decimal digits of a natural number; the fuel exceeds the digit count. *)
Definition digitsOf (n : Z) : list ascii :=
  digitsFuel (S (Z.to_nat (Z.log2 n))) n [].

Definition zeros (n : nat) : list ascii := repeat "0"%char n.

Definition signChars (neg : bool) : list ascii :=
  if neg then ["-"%char] else [].

(** Number::toString on the digits [ds] of the significand (no trailing zero)
    and the position [n] of the decimal point: the value is 0.ds * 10^n. *)
Definition formatDigits (ds : list ascii) (n : Z) : list ascii :=
  let k := Z.of_nat (length ds) in
  if (k <=? n) && (n <=? 21) then ds ++ zeros (Z.to_nat (n - k))
  else if (0 <? n) && (n <=? 21) then
    take (Z.to_nat n) ds ++ "."%char :: drop (Z.to_nat n) ds
  else if (-6 <? n) && (n <=? 0) then
    "0"%char :: "."%char :: zeros (Z.to_nat (- n)) ++ ds
  else
    let e := n - 1 in
    let es := (if e <? 0 then "-"%char else "+"%char) :: digitsOf (Z.abs e) in
    match ds with
    | [] => []
    | d :: [] => d :: "e"%char :: es
    | d :: rest => d :: "."%char :: rest ++ "e"%char :: es
    end.

Definition toStringL (x : number) : list ascii :=
  match x with
  | NaN => chars "NaN"
  | Infinity b => signChars b ++ chars "Infinity"
  | Int z =>
      if z =? 0 then ["0"%char]
      else
        let all := digitsOf (Z.abs z) in
        let ds := rev (dropWhile (isChar "0"%char) (rev all)) in
        signChars (z <? 0) ++ formatDigits ds (Z.of_nat (length all))
  | Frac m s =>
      let ds := digitsOf (Z.abs m) in
      signChars (m <? 0) ++ formatDigits ds (Z.of_nat (length ds) - Z.of_nat s)
  end.

(** [x.toString()] and the template-literal conversion of a number. *)
Definition toString (x : number) : string := str (toStringL x).

Definition splitSign (l : list ascii) : bool * list ascii :=
  match l with
  | c :: r =>
      if isChar "-"%char c then (true, r)
      else if isChar "+"%char c then (false, r)
      else (false, l)
  | [] => (false, [])
  end.

(** parseInt(string) without a radix argument. *)
Definition parseIntL (l : list ascii) : number :=
  let s := trimStartL l in
  let '(neg, s1) := splitSign s in
  let '(radix, s2) :=
    match s1 with
    | z :: x :: r =>
        if isChar "0"%char z && (isChar "x"%char x || isChar "X"%char x)
        then (16, r) else (10, s1)
    | _ => (10, s1)
    end in
  let ds := takeWhile (isRadixDigit radix) s2 in
  if isNil ds then NaN
  else Int ((if neg then -1 else 1) * digitsValue radix ds).

Definition parseInt (c : option string) : number := parseIntL (chars (toStr c)).

(** The exponent part of a decimal literal prefix: e or E, an optional
    sign and at least one digit; otherwise there is no exponent. *)
Definition exponentOf (r : list ascii) : Z :=
  match r with
  | e :: r' =>
      if isChar "e"%char e || isChar "E"%char e then
        let '(neg, r'') := splitSign r' in
        let ed := takeWhile isDigit r'' in
        if isNil ed then 0
        else (if neg then -1 else 1) * digitsValue 10 ed
      else 0
  | [] => 0
  end.

(** parseFloat(string): the longest prefix that is a decimal literal. *)
Definition parseFloatL (l : list ascii) : number :=
  let s := trimStartL l in
  let '(neg, s1) := splitSign s in
  if startsWithL (chars "Infinity") s1 then Infinity neg
  else
    let i := takeWhile isDigit s1 in
    let r1 := dropWhile isDigit s1 in
    let '(f, r2) :=
      match r1 with
      | d :: r =>
          if isChar "."%char d then (takeWhile isDigit r, dropWhile isDigit r)
          else ([], r1)
      | [] => ([], r1)
      end in
    if isNil i && isNil f then NaN
    else
      let v := mkNumber (digitsValue 10 (i ++ f))
                        (exponentOf r2 - Z.of_nat (length f)) in
      if neg then negate v else v.

Definition parseFloat (c : option string) : number :=
  parseFloatL (chars (toStr c)).

(** Whether a sequence is exactly: nothing, or an exponent part. *)
Definition isExponentOpt (r : list ascii) : bool :=
  match r with
  | [] => true
  | e :: r' =>
      (isChar "e"%char e || isChar "E"%char e)
      && (let '(_, r'') := splitSign r' in
          negb (isNil r'') && forallb isDigit r'')
  end.

Definition isUnsignedDecimal (u : list ascii) : bool :=
  if bool_decide (u = chars "Infinity") then true
  else
    let i := takeWhile isDigit u in
    let r1 := dropWhile isDigit u in
    match r1 with
    | d :: r =>
        if isChar "."%char d then
          let f := takeWhile isDigit r in
          negb (isNil i && isNil f) && isExponentOpt (dropWhile isDigit r)
        else negb (isNil i) && isExponentOpt r1
    | [] => negb (isNil i)
    end.

Definition isNonDecimalInteger (t : list ascii) : bool :=
  match t with
  | z :: x :: ds =>
      isChar "0"%char z && negb (isNil ds) &&
      (if isChar "x"%char x || isChar "X"%char x then forallb (isRadixDigit 16) ds
       else if isChar "o"%char x || isChar "O"%char x then forallb (isRadixDigit 8) ds
       else if isChar "b"%char x || isChar "B"%char x then forallb (isRadixDigit 2) ds
       else false)
  | _ => false
  end.

(** [isNaN(Number(s))] for a string s: s, trimmed, is neither empty nor a
    numeric literal. *)
Definition Number_isNaN (s : string) : bool :=
  let t := trimL (chars s) in
  negb (isNil t
        || isNonDecimalInteger t
        || isUnsignedDecimal (snd (splitSign t))).

(** A Date object, as the two getters the services call see it. *)
Inductive Date : Type :=
| InvalidDate
| LocalDate (month0 day : nat).

Definition getMonth (d : Date) : number :=
  match d with InvalidDate => NaN | LocalDate m _ => Int (Z.of_nat m) end.
Definition getDate (d : Date) : number :=
  match d with InvalidDate => NaN | LocalDate _ day => Int (Z.of_nat day) end.

(** [x + 1] on numbers, for the integers and NaN that getMonth returns. *)
Definition succ (x : number) : number :=
  match x with Int z => Int (z + 1) | _ => x end.

Arguments isChar : simpl never.
Arguments isDigit : simpl never.
Arguments isWhiteSpace : simpl never.
Arguments isLetter : simpl never.
Arguments isRadixDigit : simpl never.
Arguments radixVal : simpl never.
Arguments digitChar : simpl never.
Arguments digitsOf : simpl never.

End JS.

(* ===================================================================== *)
(** * Data model (types/workout.ts) *)
(* ===================================================================== *)

Module WSet.
Record t : Type := mk { reps : JS.number; weight : JS.number; rir : JS.number }.
End WSet.

Module Exercise.
(** [notes] is optional: [None] is an absent property. *)
Record t : Type := mk { name : string; sets : list WSet.t; notes : option string }.
End Exercise.

Module Cardio.
Record t : Type := mk {
    modality : string;
    minutes : JS.number;
    seconds : JS.number;
    rpe : JS.number;
    workRest : string;
    watts : JS.number;
    notes : string }.

(** The literal both services return when no cardio row was found. *)
Definition empty : t :=
    mk EmptyString (JS.Int 0) (JS.Int 0) (JS.Int 0) EmptyString (JS.Int 0) EmptyString.
End Cardio.

Module WorkoutData.
Record t : Type := mk { date : string; exercises : list Exercise.t; cardio : Cardio.t }.
End WorkoutData.

(** A remote row: the cells the API returned; trailing empty cells may be
    missing, so [row !! i] is [None] where JavaScript reads [undefined]. *)
Definition Row : Type := list string.

(* ===================================================================== *)
(** * Date keys and column letters (services/googleSheets.ts) *)
(* ===================================================================== *)

Module SheetsTs.
Import JS.

(** [parseDate] (lines 22-24): month/day of a Date, through the template
    literal. *)
Definition parseDate (date : Date) : string :=
  toString (succ (getMonth date)) +:+ "/" +:+ toString (getDate date).

Definition lastPart (parts : list string) (d : string) : string :=
  List.last parts d.

(** [normalizeDate] (lines 26-38); the argument is [None] where a caller
    passes the undefined cell of a short row. *)
Definition normalizeDate (dateStr : option string) : string :=
  if negb (truthy dateStr) then EmptyString
  else
    let dateStr := trim (orEmpty dateStr) in
    let dateParts := split dateStr " "%char in
    let dateStr :=
      if (1 <? length dateParts)%nat then lastPart dateParts dateStr else dateStr in
    if includes dateStr "/"%char then
      let parts := split dateStr "/"%char in
      toString (parseInt (parts !! 0%nat)) +:+ "/" +:+ toString (parseInt (parts !! 1%nat))
    else dateStr.

Definition fromCharCode (n : Z) : ascii := ascii_of_nat (Z.to_nat n).

(** The loop of [getColumnLetter] (lines 40-47), with the letters built so
    far. *)
Equations? getColumnLetterLoop (col : Z) (letter : string) : string
  by wf (Z.to_nat (col + 1)) lt :=
  getColumnLetterLoop col letter with Z_le_dec 0 col => {
    | left _ :=
        getColumnLetterLoop (col / 26 - 1)
          (String (fromCharCode (65 + col mod 26)) letter);
    | right _ := letter }.
Proof.
  assert (col / 26 <= col) by (apply Z.div_le_upper_bound; lia).
  assert (0 <= col / 26) by (apply Z.div_pos; lia).
  lia.
Qed.

Definition getColumnLetter (col : Z) : string := getColumnLetterLoop col EmptyString.

End SheetsTs.

(* ===================================================================== *)
(** * The older TypeScript service: its date key and cell addressing *)
(* ===================================================================== *)

Module SheetsOld.
Import JS.

(** [normalizeDate] of the older service (its lines 56-79): drops the
    weekday and a year, and leaves the month and day as written. *)
Definition normalizeDate (dateStr : option string) : string :=
  if negb (truthy dateStr) then EmptyString
  else
    let dateStr := trim (orEmpty dateStr) in
    let dateParts := split dateStr " "%char in
    let dateStr :=
      if (1 <? length dateParts)%nat then SheetsTs.lastPart dateParts dateStr
      else dateStr in
    if includes dateStr "/"%char then
      let parts := split dateStr "/"%char in
      if (length parts =? 3)%nat then
        orEmpty (parts !! 0%nat) +:+ "/" +:+ orEmpty (parts !! 1%nat)
      else dateStr
    else dateStr.

(** The row [updateWorkoutData] of the older service looks for (its lines
    193-195): date and name cells equal to the key and the name as they
    are. *)
Definition findExerciseRow (workoutRows : list Row) (parsedDate : string)
    (exercise : Exercise.t) : option nat :=
  findIndexFrom
    (fun row => bool_decide (row !! 6%nat = Some parsedDate)
                && bool_decide (row !! 8%nat = Some (Exercise.name exercise)))
    0 workoutRows.

(** The column letter [updateCell] derives (its line 289): one character,
    whatever the column. *)
Definition colLetter (col : Z) : string :=
  String (SheetsTs.fromCharCode (65 + col)) EmptyString.

End SheetsOld.

(* ===================================================================== *)
(** * The remote store, as the services see it *)
(* ===================================================================== *)

Module Remote.

(** One entry of a batch update: a range and the single cell written. *)
Record Update : Type := mkUpdate { range : string; value : string }.

(** An appended row goes out as JSON: [None] is a hole or an undefined
    cell, sent as null. *)
Inductive Request : Type :=
| Get (range : string)
| BatchUpdate (data : list Update)
| Append (range : string) (rows : list (list (option string))).

(** What a request comes back with: the fetch promise rejects, or resolves
    with a response that is not ok, or resolves ok; an ok body may lack its
    [values] field. *)
Inductive Response : Type :=
| Rejected (message : string)
| NotOk (statusText : string)
| Ok200 (values : option (list Row)).

Inductive result (A : Type) : Type :=
| Ok (a : A)
| Throw (message : string).
Arguments Ok {A} a.
Arguments Throw {A} message.

(** Computations over a state [S] that may throw: the state is threaded
    through, an exception cuts the rest short and keeps the state reached. *)
Definition M (S A : Type) : Type := S -> result A * S.

Definition ret {S A} (a : A) : M S A := fun t => (Ok a, t).
Definition throw {S A} (message : string) : M S A := fun t => (Throw message, t).
Definition bind {S A B} (m : M S A) (k : A -> M S B) : M S B :=
  fun t => match m t with
           | (Ok a, t') => k a t'
           | (Throw e, t') => (Throw e, t')
           end.
(** [try m catch (e) h] *)
Definition catch {S A} (m : M S A) (h : string -> M S A) : M S A :=
  fun t => match m t with
           | (Ok a, t') => (Ok a, t')
           | (Throw e, t') => h e t'
           end.

(** [fetch] where the state is the list of requests sent so far: records
    the request and answers as the remote store does. *)
Definition fetch (respond : Request -> Response) (q : Request)
  : M (list Request) Response :=
  fun t => (Ok (respond q), t ++ [q]).

End Remote.

Declare Scope remote_scope.
Delimit Scope remote_scope with remote.
Notation "'let*' x ':=' m 'in' k" := (Remote.bind m (fun x => k))
  (at level 10, x name, m at level 100, k at level 200) : remote_scope.
Notation "'do*' m 'in' k" := (Remote.bind m (fun _ => k))
  (at level 10, m at level 100, k at level 200) : remote_scope.

(* ===================================================================== *)
(** * Reading and updating through services/googleSheets.ts *)
(* ===================================================================== *)

Module Gateway.
Import JS Remote SheetsTs.
Local Open Scope remote_scope.

Section Service.

(** The host: the Date constructor on the selected-date string, the token in
    local storage, and the remote store. *)
Variable newDate : string -> Date.
Variable token : option string.
Variable respond : Request -> Response.

Definition getAuthToken : M (list Request) string :=
  if truthy token then ret (orEmpty token)
  else throw "No authentication token available".

Definition fetchSheetData (range : string)
  : M (list Request) (option (list Row)) :=
  do* getAuthToken in
  let* response := fetch respond (Get range) in
  match response with
  | Rejected e => throw e
  | NotOk statusText => throw ("Failed to fetch sheet data: " +:+ statusText)
  | Ok200 values => ret values
  end.

Definition batchUpdate (updates : list Update) : M (list Request) unit :=
  if isNil updates then ret tt
  else
    do* getAuthToken in
    let* response := fetch respond (BatchUpdate updates) in
    match response with
    | Rejected e => throw e
    | NotOk message => throw ("Batch update failed: " +:+ message)
    | Ok200 _ => ret tt
    end.

(** [values || []] *)
Definition rowsOf (values : option (list Row)) : list Row := default [] values.

(** The three fixed (reps, weight, rir) column triplets. *)
Definition setGroups : list (nat * nat * nat) :=
  [(14, 15, 16); (17, 18, 19); (20, 21, 22)]%nat.

(** One turn of the loop over [setGroups] in [getWorkoutData] (lines
    122-131): push a set when the reps cell is there and numeric. *)
Definition pushSet (row : Row) (sets : list WSet.t) (group : nat * nat * nat)
  : list WSet.t :=
  let '(reps, weight, rir) := group in
  let repsStr := row !! reps in
  if truthy repsStr && negb (Number_isNaN (orEmpty repsStr)) then
    sets ++ [WSet.mk (orZero (parseInt repsStr))
                     (orZero (parseFloat (row !! weight)))
                     (orZero (parseInt (row !! rir)))]
  else sets.

Definition decodeSets (row : Row) : list WSet.t :=
  fold_left (pushSet row) setGroups [].

(** One turn of the loop over the matching rows (lines 111-138). *)
Definition pushExercise (exercises : list Exercise.t) (row : Row)
  : list Exercise.t :=
  if negb (truthy (row !! 8%nat)) then exercises
  else exercises ++ [Exercise.mk (trim (orEmpty (row !! 8%nat)))
                                 (decodeSets row)
                                 (Some (orEmpty (row !! 37%nat)))].

Definition decodeExercises (rows : list Row) : list Exercise.t :=
  fold_left pushExercise rows [].

(** The row filter of [getWorkoutData] (lines 102-107, 145-148): a date
    cell that is there and normalizes to the key. *)
Definition rowMatches (col : nat) (parsedDate : string) (row : Row) : bool :=
  if negb (truthy (row !! col)) then false
  else bool_decide (normalizeDate (row !! col) = parsedDate).

Definition decodeCardio (cardioRow : option Row) : Cardio.t :=
  match cardioRow with
  | Some cardioRow =>
      Cardio.mk (orEmpty (cardioRow !! 8%nat))
                (orZero (parseInt (cardioRow !! 11%nat)))
                (orZero (parseInt (cardioRow !! 12%nat)))
                (orZero (parseInt (cardioRow !! 16%nat)))
                (orEmpty (cardioRow !! 17%nat))
                (orZero (parseInt (cardioRow !! 24%nat)))
                (orEmpty (cardioRow !! 63%nat))
  | None => Cardio.empty
  end.

Definition getWorkoutData (date : string) : M (list Request) WorkoutData.t :=
  let parsedDate := parseDate (newDate date) in
  let* workoutData := fetchSheetData "'workout log'!A:AL" in
  let workoutRows := rowsOf workoutData in
  let matchingWorkoutRows := List.filter (rowMatches 6 parsedDate) workoutRows in
  let exercises := decodeExercises matchingWorkoutRows in
  let* cardioData := fetchSheetData "'cardio log'!A:BM" in
  let cardioRows := rowsOf cardioData in
  let cardioRow := List.find (rowMatches 5 parsedDate) cardioRows in
  ret (WorkoutData.mk date exercises (decodeCardio cardioRow)).

(** What reading [dateRows[key]] yields.  [dateRows] starts as the object
    literal [{}], so two lower-case keys are found on its prototype when no
    row put them there. *)
Inductive RowRef : Type :=
| RowNumber (n : nat)
| ObjectConstructor
| ObjectPrototype.

Definition dateRowsSet (acc : gmap string nat) (key : string) (v : nat)
  : gmap string nat :=
  if bool_decide (key = "__proto__") then acc else <[key := v]> acc.

Definition dateRowsGet (acc : gmap string nat) (key : string) : option RowRef :=
  match acc !! key with
  | Some n => Some (RowNumber n)
  | None =>
      if bool_decide (key = "constructor") then Some ObjectConstructor
      else if bool_decide (key = "__proto__") then Some ObjectPrototype
      else None
  end.

Definition truthyRef (r : option RowRef) : bool :=
  match r with
  | Some (RowNumber n) => negb (Nat.eqb n 0)
  | Some _ => true
  | None => false
  end.

(** The row reference as the template literal of a range prints it. *)
Definition rowRefString (r : option RowRef) : string :=
  match r with
  | Some (RowNumber n) => toString (Int (Z.of_nat n))
  | Some ObjectConstructor => "function Object() { [native code] }"
  | Some ObjectPrototype => "[object Object]"
  | None => "undefined"
  end.

(** The property key [row[8]?.trim().toLowerCase()]. *)
Definition rowKey (row : Row) : string :=
  match row !! 8%nat with
  | Some name => toLowerCase (trim name)
  | None => "undefined"
  end.

(** The [reduce] that builds [dateRows] in [updateWorkoutData] (lines
    185-191), from row [index] on. *)
Fixpoint dateRowsFrom (parsedDate : string) (index : nat) (rows : list Row)
    (acc : gmap string nat) : gmap string nat :=
  match rows with
  | [] => acc
  | row :: rest =>
      let rowDate := normalizeDate (row !! 6%nat) in
      dateRowsFrom parsedDate (S index) rest
        (if bool_decide (rowDate = parsedDate)
         then dateRowsSet acc (rowKey row) (index + 1)%nat
         else acc)
  end.

Definition dateRowsOf (parsedDate : string) (workoutRows : list Row)
  : gmap string nat :=
  dateRowsFrom parsedDate 0 workoutRows ∅.

Definition workoutRange (col : Z) (rowIndex : string) : string :=
  "'workout log'!" +:+ getColumnLetter col +:+ rowIndex.

(** [exercise.sets.forEach]: three pushes for each set, from [setIndex] on. *)
Fixpoint pushSetUpdates (rowIndex : string) (setIndex : nat)
    (sets : list WSet.t) (workoutUpdates : list Update) : list Update :=
  match sets with
  | [] => workoutUpdates
  | set :: rest =>
      let baseCol := 14 + Z.of_nat setIndex * 3 in
      pushSetUpdates rowIndex (S setIndex) rest
        (workoutUpdates ++
         [mkUpdate (workoutRange baseCol rowIndex) (toString (WSet.reps set));
          mkUpdate (workoutRange (baseCol + 1) rowIndex) (toString (WSet.weight set));
          mkUpdate (workoutRange (baseCol + 2) rowIndex) (toString (WSet.rir set))])
  end.

(** One turn of the loop over [workoutData.exercises] (lines 196-227). *)
Definition pushExerciseUpdates (dateRows : gmap string nat)
    (workoutUpdates : list Update) (exercise : Exercise.t) : list Update :=
  let rowIndex := dateRowsGet dateRows (toLowerCase (Exercise.name exercise)) in
  if truthyRef rowIndex then
    let workoutUpdates :=
      pushSetUpdates (rowRefString rowIndex) 0 (Exercise.sets exercise)
                     workoutUpdates in
    if truthy (Exercise.notes exercise) then
      workoutUpdates ++
      [mkUpdate ("'workout log'!AL" +:+ rowRefString rowIndex)
                (orEmpty (Exercise.notes exercise))]
    else workoutUpdates
  else workoutUpdates.

Definition workoutUpdatesOf (dateRows : gmap string nat)
    (exercises : list Exercise.t) : list Update :=
  fold_left (pushExerciseUpdates dateRows) exercises [].

Definition cardioUpdatesOf (cardioRowIndex : nat) (cardio : Cardio.t)
  : list Update :=
  map (fun update : Z * string =>
         mkUpdate ("'cardio log'!" +:+ getColumnLetter (fst update)
                     +:+ toString (Int (Z.of_nat cardioRowIndex + 1)))
                  (snd update))
      [(8, Cardio.modality cardio);
       (11, toString (Cardio.minutes cardio));
       (12, toString (Cardio.seconds cardio));
       (16, toString (Cardio.rpe cardio));
       (17, Cardio.workRest cardio);
       (24, toString (Cardio.watts cardio));
       (63, Cardio.notes cardio)].

Definition updateWorkoutData (date : string) (workoutData : WorkoutData.t)
  : M (list Request) unit :=
  let parsedDate := parseDate (newDate date) in
  let* workoutResponse := fetchSheetData "'workout log'!A:AL" in
  let workoutRows := rowsOf workoutResponse in
  let dateRows := dateRowsOf parsedDate workoutRows in
  let workoutUpdates :=
    workoutUpdatesOf dateRows (WorkoutData.exercises workoutData) in
  do* batchUpdate workoutUpdates in
  let* cardioResponse := fetchSheetData "'cardio log'!A:BM" in
  let cardioRows := rowsOf cardioResponse in
  match findIndexFrom
          (fun row => bool_decide (normalizeDate (row !! 5%nat) = parsedDate))
          0 cardioRows with
  | Some cardioRowIndex =>
      batchUpdate (cardioUpdatesOf cardioRowIndex (WorkoutData.cardio workoutData))
  | None => ret tt
  end.

End Service.
End Gateway.

(* ===================================================================== *)
(** * Row helpers of types/workout.ts *)
(* ===================================================================== *)

Module Codec.
Import JS.

Definition setColumns : list (nat * nat * nat) :=
  [(13, 14, 15); (16, 17, 18); (19, 20, 21)]%nat.

Definition pushSet (row : Row) (sets : list WSet.t) (cols : nat * nat * nat)
  : list WSet.t :=
  let '(reps, weight, rir) := cols in
  if truthy (row !! reps) then
    sets ++ [WSet.mk (orZero (parseInt (row !! reps)))
                     (orZero (parseFloat (row !! weight)))
                     (orZero (parseInt (row !! rir)))]
  else sets.

(** [parseWorkoutRow] (lines 31-57): [None] is the null it returns for a
    row without an exercise name. *)
Definition parseWorkoutRow (row : Row) : option Exercise.t :=
  if negb (truthy (row !! 8%nat)) then None
  else Some (Exercise.mk (orEmpty (row !! 8%nat))
                         (fold_left (pushSet row) setColumns [])
                         (Some (orEmpty (row !! 37%nat)))).

Definition parseCardioRow (row : Row) : option Cardio.t :=
  if negb (truthy (row !! 8%nat)) then None
  else Some (Cardio.mk (orEmpty (row !! 8%nat))
                       (orZero (parseInt (row !! 11%nat)))
                       (orZero (parseInt (row !! 12%nat)))
                       (orZero (parseInt (row !! 16%nat)))
                       (orEmpty (row !! 17%nat))
                       (orZero (parseInt (row !! 24%nat)))
                       (orEmpty (row !! 64%nat))).

(** [new Array(n).fill('')] *)
Definition blankRow (n : nat) : Row := replicate n EmptyString.

(** The row [formatSheetData] (lines 73-93) builds for one set; every index
    it assigns is inside the 38 cells. *)
Definition exerciseRow (set : WSet.t) : Row :=
  <[15%nat := toString (WSet.rir set)]>
    (<[14%nat := toString (WSet.weight set)]>
       (<[13%nat := toString (WSet.reps set)]> (blankRow 38))).

Definition cardioRow (cardioData : Cardio.t) : Row :=
  <[64%nat := Cardio.notes cardioData]>
    (<[24%nat := toString (Cardio.watts cardioData)]>
       (<[17%nat := Cardio.workRest cardioData]>
          (<[16%nat := toString (Cardio.rpe cardioData)]>
             (<[12%nat := toString (Cardio.seconds cardioData)]>
                (<[11%nat := toString (Cardio.minutes cardioData)]>
                   (<[8%nat := Cardio.modality cardioData]> (blankRow 65))))))).

Definition formatSheetData (exerciseData : list WSet.t) (cardioData : Cardio.t)
  : list Row :=
  map exerciseRow exerciseData ++ [cardioRow cardioData].

End Codec.

(* ===================================================================== *)
(** * The offline-aware service (services/googleSheets.js) *)
(* ===================================================================== *)

Module SheetsJs.
Import JS Remote.
Local Open Scope remote_scope.

(** The untyped record the service reads, caches and writes: [cardio] may be
    null. *)
Module Workout.
Record t : Type := mk { exercises : list Exercise.t; cardio : option Cardio.t }.
End Workout.

(** An entry of [syncQueue]. *)
Record Change : Type := mkChange { date : string; workoutData : Workout.t }.

(** localStorage holds JSON text; an item is modelled by the value its text
    denotes.  The two kinds live under keys that never coincide
    ([syncQueue] and [workout_...]). *)
Inductive Stored : Type :=
| Cached (data : Workout.t)
| Queue (queue : list Change).

Record State : Type := mkState {
  storage : gmap string Stored;
  sent : list Request }.

(** What [updateWorkoutData] resolves with. *)
Inductive Outcome : Type := Offline | Success.

Definition getItem (key : string) : M State (option Stored) :=
  fun st => (Ok (storage st !! key), st).
Definition setItem (key : string) (v : Stored) : M State unit :=
  fun st => (Ok tt, mkState (<[key := v]> (storage st)) (sent st)).

(** [syncQueue.add] *)
Definition syncQueue_add (change : Change) : M State unit :=
  let* item := getItem "syncQueue" in
  let queue := match item with Some (Queue q) => q | _ => [] end in
  setItem "syncQueue" (Queue (queue ++ [change])).

Definition syncQueue_get : M State (list Change) :=
  let* item := getItem "syncQueue" in
  ret (match item with Some (Queue q) => q | _ => [] end).

(** The first match of [\d{1,2}/\d{1,2}] in a string, if any. *)
Definition dayPart (r : list ascii) : option (list ascii) :=
  match r with
  | d3 :: r' =>
      if isDigit d3 then
        match r' with
        | d4 :: _ => if isDigit d4 then Some [d3; d4] else Some [d3]
        | [] => Some [d3]
        end
      else None
  | [] => None
  end.

Definition monthDayAt (l : list ascii) : option (list ascii) :=
  match l with
  | d1 :: r =>
      if isDigit d1 then
        match r with
        | c2 :: r2 =>
            if isDigit c2 then
              match r2 with
              | c3 :: r3 =>
                  if isChar "/"%char c3
                  then option_map (fun day => d1 :: c2 :: c3 :: day) (dayPart r3)
                  else None
              | [] => None
              end
            else if isChar "/"%char c2
            then option_map (fun day => d1 :: c2 :: day) (dayPart r2)
            else None
        | [] => None
        end
      else None
  | [] => None
  end.

Fixpoint firstMonthDay (l : list ascii) : option (list ascii) :=
  match monthDayAt l with
  | Some m => Some m
  | None => match l with
            | _ :: r => firstMonthDay r
            | [] => None
            end
  end.

(** [.replace(/^[A-Za-z]{3}\s+/, '')] *)
Definition dropWeekday (l : list ascii) : list ascii :=
  match l with
  | a :: b :: c :: (w :: _) as r =>
      if isLetter a && isLetter b && isLetter c && isWhiteSpace w
      then dropWhile isWhiteSpace r else l
  | _ => l
  end.

(** [.replace(/\/\d{4}$/, '')] *)
Definition dropYear (l : list ascii) : list ascii :=
  let n := (length l - 5)%nat in
  match drop n l with
  | [s; a; b; c; d] =>
      if isChar "/"%char s && isDigit a && isDigit b && isDigit c && isDigit d
      then take n l else l
  | _ => l
  end.

Definition matchesDate (rowDate : option string) (targetDate : string) : bool :=
  if negb (truthy rowDate) then false
  else
    match firstMonthDay (chars targetDate) with
    | None => false
    | Some targetMatch =>
        let cleanRowDate := dropYear (dropWeekday (trimL (chars (orEmpty rowDate)))) in
        bool_decide (cleanRowDate = targetMatch)
    end.

Definition cacheKey (date : string) : string := "workout_" +:+ date.

Definition getCachedData (date : string) : M State (option Workout.t) :=
  let* cached := getItem (cacheKey date) in
  ret (match cached with Some (Cached data) => Some data | _ => None end).

Definition setCachedData (date : string) (data : Workout.t) : M State unit :=
  setItem (cacheKey date) (Cached data).

(** [rows.slice(1)] *)
Definition slice1 {A} (rows : list A) : list A := drop 1 rows.

(** The loop over [setNum] in [processWorkoutRows] (lines 150-164): a set
    is pushed when any of its three cells is there. *)
Definition pushSet (row : Row) (sets : list WSet.t) (setNum : nat) : list WSet.t :=
  let setStartIndex := (14 + setNum * 3)%nat in
  let reps := row !! setStartIndex in
  let weight := row !! (setStartIndex + 1)%nat in
  let rir := row !! (setStartIndex + 2)%nat in
  if truthy reps || truthy weight || truthy rir then
    sets ++ [WSet.mk (orZero (parseInt reps)) (orZero (parseFloat weight))
                     (orZero (parseInt rir))]
  else sets.

(** The number of turns of [for (setNum = 0; setNum < totalSets; setNum++)]. *)
Definition turns (totalSets : number) : nat :=
  match totalSets with Int z => Z.to_nat z | _ => 0%nat end.

Definition pushExercise (exercises : list Exercise.t) (row : Row)
  : list Exercise.t :=
  let exerciseName := row !! 8%nat in
  if negb (truthy exerciseName) then exercises
  else
    let totalSets := orZero (parseInt (row !! 13%nat)) in
    let sets := fold_left (pushSet row) (seq 0 (turns totalSets)) [] in
    if (0 <? length sets)%nat then
      exercises ++ [Exercise.mk (orEmpty exerciseName) sets
                                (Some (orEmpty (row !! 37%nat)))]
    else exercises.

Definition processWorkoutRows (rows : list Row) (targetDate : string)
  : list Exercise.t :=
  let workoutRows :=
    List.filter (fun row => matchesDate (row !! 6%nat) targetDate) (slice1 rows) in
  fold_left pushExercise workoutRows [].

Definition processCardioRows (rows : list Row) (targetDate : string)
  : option Cardio.t :=
  match List.find (fun row => matchesDate (row !! 5%nat) targetDate) (slice1 rows) with
  | None => None
  | Some cardioRow =>
      Some (Cardio.mk (orEmpty (cardioRow !! 8%nat))
                      (orZero (parseInt (cardioRow !! 11%nat)))
                      (orZero (parseInt (cardioRow !! 12%nat)))
                      (orZero (parseFloat (cardioRow !! 16%nat)))
                      (orEmpty (cardioRow !! 17%nat))
                      (orZero (parseInt (cardioRow !! 24%nat)))
                      (orEmpty (cardioRow !! 64%nat)))
  end.

(** [array[i] = v] on a JavaScript array: past the end, the array grows and
    the cells in between are holes. *)
Definition arraySet {A} (i : nat) (v : A) (l : list (option A)) : list (option A) :=
  if (i <? length l)%nat then <[i := Some v]> l
  else l ++ replicate (i - length l) None ++ [Some v].

Definition blankArray (n : nat) : list (option string) :=
  replicate n (Some EmptyString).

Fixpoint setCells (index : nat) (sets : list WSet.t) (row : list (option string))
  : list (option string) :=
  match sets with
  | [] => row
  | set :: rest =>
      let baseIndex := (14 + index * 3)%nat in
      setCells (S index) rest
        (arraySet (baseIndex + 2) (toString (WSet.rir set))
           (arraySet (baseIndex + 1) (toString (WSet.weight set))
              (arraySet baseIndex (toString (WSet.reps set)) row)))
  end.

(** The row appended for one exercise. *)
Definition workoutRow (formattedDate : string) (exercise : Exercise.t)
  : list (option string) :=
  let row := blankArray 38 in
  let row := arraySet 6 formattedDate row in
  let row := arraySet 8 (Exercise.name exercise) row in
  let row :=
    arraySet 13 (toString (Int (Z.of_nat (length (Exercise.sets exercise))))) row in
  let row := setCells 0 (Exercise.sets exercise) row in
  arraySet 37 (orEmpty (Exercise.notes exercise)) row.

Definition cardioRow (formattedDate : string) (cardio : Cardio.t)
  : list (option string) :=
  let row := blankArray 65 in
  let row := arraySet 5 formattedDate row in
  let row := arraySet 8 (Cardio.modality cardio) row in
  let row := arraySet 11 (toString (Cardio.minutes cardio)) row in
  let row := arraySet 12 (toString (Cardio.seconds cardio)) row in
  let row := arraySet 16 (toString (Cardio.rpe cardio)) row in
  let row := arraySet 17 (Cardio.workRest cardio) row in
  let row := arraySet 24 (toString (Cardio.watts cardio)) row in
  arraySet 64 (Cardio.notes cardio) row.

(** [Object.values(cardio).some(v => v)] *)
Definition someTruthy (cardio : Cardio.t) : bool :=
  truthyStr (Cardio.modality cardio) || truthyNum (Cardio.minutes cardio)
  || truthyNum (Cardio.seconds cardio) || truthyNum (Cardio.rpe cardio)
  || truthyStr (Cardio.workRest cardio) || truthyNum (Cardio.watts cardio)
  || truthyStr (Cardio.notes cardio).

Definition workoutLogGet : string := "'workout log'!A:Z".
Definition cardioLogGet : string := "'cardio log'!A:Z".
Definition workoutLogAppend : string := "'workout log'!A:Z".
Definition cardioLogAppend : string := "'cardio log'!A:BM".

Section Service.

(** The host: connectivity, the Date constructor and the remote store. *)
Variable online : bool.
Variable newDate : string -> Date.
Variable respond : Request -> Response.

Definition formatDate (date : string) : string :=
  let d := newDate date in
  let month := succ (getMonth d) in
  let day := getDate d in
  toString month +:+ "/" +:+ toString day.

Definition fetch (q : Request) : M State Response :=
  fun st => (Ok (respond q), mkState (storage st) (sent st ++ [q])).

(** The inner try of [getWorkoutData]: a failing cardio request leaves
    [cardio] null. *)
Definition fetchCardio (targetDate : string) : M State (option Cardio.t) :=
  let* cardioResponse := fetch (Get cardioLogGet) in
  match cardioResponse with
  | Ok200 values => ret (processCardioRows (default [] values) targetDate)
  | _ => ret None
  end.

Definition getWorkoutData (date : string) : M State Workout.t :=
  if negb online then
    let* cached := getCachedData date in
    match cached with
    | Some data => ret data
    | None => throw "Offline and no cached data available"
    end
  else
    catch
      (let* workoutResponse := fetch (Get workoutLogGet) in
       match workoutResponse with
       | Rejected e => throw e
       | NotOk _ =>
           let* cached := getCachedData date in
           match cached with
           | Some data => ret data
           | None => throw "Failed to fetch workout data"
           end
       | Ok200 values =>
           let workoutRows := default [] values in
           let targetDate := formatDate date in
           let exercises := processWorkoutRows workoutRows targetDate in
           let* cardio := fetchCardio targetDate in
           let result :=
             Workout.mk exercises
               (Some (match cardio with Some c => c | None => Cardio.empty end)) in
           do* setCachedData date result in
           ret result
       end)
      (fun error =>
         let* cached := getCachedData date in
         match cached with
         | Some data => ret data
         | None => throw error
         end).

Definition updateWorkoutData (date : string) (workoutData : Workout.t)
  : M State Outcome :=
  if negb online then
    do* syncQueue_add (mkChange date workoutData) in
    ret Offline
  else
    catch
      (let formattedDate := formatDate date in
       do* (if (0 <? length (Workout.exercises workoutData))%nat then
              let workoutUpdates :=
                map (workoutRow formattedDate) (Workout.exercises workoutData) in
              let* workoutResponse := fetch (Append workoutLogAppend workoutUpdates) in
              match workoutResponse with
              | Rejected e => throw e
              | NotOk _ => throw "Failed to update workout data"
              | Ok200 _ => ret tt
              end
            else ret tt) in
       do* (match Workout.cardio workoutData with
            | Some cardio =>
                if someTruthy cardio then
                  let* cardioResponse :=
                    fetch (Append cardioLogAppend [cardioRow formattedDate cardio]) in
                  match cardioResponse with
                  | Rejected e => throw e
                  | NotOk _ => ret tt
                  | Ok200 _ => ret tt
                  end
                else ret tt
            | None => ret tt
            end) in
       ret Success)
      (fun error =>
         do* syncQueue_add (mkChange date workoutData) in
         throw error).

End Service.
End SheetsJs.

(* ===================================================================== *)
(** * The token-bearing copy of the JavaScript service *)
(* ===================================================================== *)

(** The file components/GoogleAuth.jsx carries a second copy of the
    JavaScript service, which sends a bearer token and treats a failed cardio
    append as it treats a failed session-log append.  Its rows are built as
    in services/googleSheets.js. *)
Module SheetsJsAuth.
Import JS Remote SheetsJs.
Local Open Scope remote_scope.

Section Service.

Variable online : bool.
Variable newDate : string -> Date.
Variable respond : Request -> Response.
(** What [getAuthToken] resolves with, or the error it throws. *)
Variable authToken : result string.

Definition getAuthToken : M State string := fun st => (authToken, st).

Definition updateWorkoutData (date : string) (workoutData : Workout.t)
  : M State Outcome :=
  if negb online then
    do* syncQueue_add (mkChange date workoutData) in
    ret Offline
  else
    catch
      (do* getAuthToken in
       let formattedDate := formatDate newDate date in
       do* (if (0 <? length (Workout.exercises workoutData))%nat then
              let workoutUpdates :=
                map (workoutRow formattedDate) (Workout.exercises workoutData) in
              let* workoutResponse :=
                fetch respond (Append workoutLogAppend workoutUpdates) in
              match workoutResponse with
              | Rejected e => throw e
              | NotOk _ => throw "Failed to update workout data"
              | Ok200 _ => ret tt
              end
            else ret tt) in
       do* (match Workout.cardio workoutData with
            | Some cardio =>
                if someTruthy cardio then
                  let* cardioResponse :=
                    fetch respond
                          (Append cardioLogAppend [cardioRow formattedDate cardio]) in
                  match cardioResponse with
                  | Rejected e => throw e
                  | NotOk _ => throw "Failed to update cardio data"
                  | Ok200 _ => ret tt
                  end
                else ret tt
            | None => ret tt
            end) in
       ret Success)
      (fun error =>
         do* syncQueue_add (mkChange date workoutData) in
         throw error).

End Service.
End SheetsJsAuth.

(* ===================================================================== *)
(** * The coordinator: the WorkoutTracker component *)
(* ===================================================================== *)

Module Tracker.
Import JS.
Import Remote (result, Ok, Throw).

Section Component.

(** The component treats a workout as opaque data, and reaches the remote
    store only through the service it imports: [getWorkoutData] and
    [saveWorkoutData], which act on the world outside the device. *)
Variable W : Type.
Variable World : Type.

(** An entry of [pendingChanges]. *)
Record Change : Type := mkChange {
  change_date : string;
  change_workout : option W;
  change_timestamp : string }.

(** [saveWorkoutData] is handed the edited workout by [handleSave] and a
    queued change by [syncPendingChanges]. *)
Inductive SaveArg : Type :=
| SaveWorkout (updatedWorkout : option W)
| SaveChange (change : Change).

Inductive Call : Type :=
| CallGet (date : string)
| CallSave (arg : SaveArg).

Variable getWorkoutData : string -> World -> result W * World.
Variable saveWorkoutData : SaveArg -> World -> result unit * World.

(** localStorage holds JSON text; an item is modelled by the value its text
    denotes ([None] is the text null).  The two kinds live under keys that
    never coincide ([pendingChanges] and [workout_...]). *)
Inductive Stored : Type :=
| StoredWorkout (w : option W)
| StoredChanges (q : list Change).

(** The component's state, local storage, the world, and the service calls
    made so far. *)
Record State : Type := mkState {
  isOnline : bool;
  date : string;
  loading : bool;
  error : option string;
  workout : option W;
  dataSource : string;
  pendingChanges : list Change;
  isSaving : bool;
  localStorage : gmap string Stored;
  world : World;
  calls : list Call }.

Definition setLoading v st :=
  mkState (isOnline st) (date st) v (error st) (workout st) (dataSource st)
          (pendingChanges st) (isSaving st) (localStorage st) (world st) (calls st).
Definition setError v st :=
  mkState (isOnline st) (date st) (loading st) v (workout st) (dataSource st)
          (pendingChanges st) (isSaving st) (localStorage st) (world st) (calls st).
Definition setWorkout v st :=
  mkState (isOnline st) (date st) (loading st) (error st) v (dataSource st)
          (pendingChanges st) (isSaving st) (localStorage st) (world st) (calls st).
Definition setDataSource v st :=
  mkState (isOnline st) (date st) (loading st) (error st) (workout st) v
          (pendingChanges st) (isSaving st) (localStorage st) (world st) (calls st).
Definition setPendingChanges v st :=
  mkState (isOnline st) (date st) (loading st) (error st) (workout st)
          (dataSource st) v (isSaving st) (localStorage st) (world st) (calls st).
Definition setIsSaving v st :=
  mkState (isOnline st) (date st) (loading st) (error st) (workout st)
          (dataSource st) (pendingChanges st) v (localStorage st) (world st) (calls st).
Definition setStorage v st :=
  mkState (isOnline st) (date st) (loading st) (error st) (workout st)
          (dataSource st) (pendingChanges st) (isSaving st) v (world st) (calls st).

Definition setItem (key : string) (v : Stored) (st : State) : State :=
  setStorage (<[key := v]> (localStorage st)) st.
Definition removeItem (key : string) (st : State) : State :=
  setStorage (delete key (localStorage st)) st.

(** A call of the service: the call is recorded and the world moves on. *)
Definition callGet (d : string) (st : State) : result W * State :=
  let '(r, w') := getWorkoutData d (world st) in
  (r, mkState (isOnline st) (date st) (loading st) (error st) (workout st)
              (dataSource st) (pendingChanges st) (isSaving st)
              (localStorage st) w' (calls st ++ [CallGet d])).
Definition callSave (arg : SaveArg) (st : State) : result unit * State :=
  let '(r, w') := saveWorkoutData arg (world st) in
  (r, mkState (isOnline st) (date st) (loading st) (error st) (workout st)
              (dataSource st) (pendingChanges st) (isSaving st)
              (localStorage st) w' (calls st ++ [CallSave arg])).

Definition cacheKey (d : string) : string := "workout_" +:+ d.

Definition loadError (online : bool) : string :=
  "Unable to load workout data. " +:+
  (if online then "Please try again later." else "You are currently offline.").

(** [loadWorkoutData] (lines 16-41).  An item of the other kind under the
    cache key does not parse as a workout and is handled by the catch. *)
Definition loadWorkoutData (st : State) : State :=
  let st := setError None (setLoading true st) in
  let cachedData := localStorage st !! cacheKey (date st) in
  let st :=
    if negb (isOnline st) && bool_decide (is_Some cachedData) then
      match cachedData with
      | Some (StoredWorkout w) => setDataSource "cache" (setWorkout w st)
      | _ => setError (Some (loadError (isOnline st))) st
      end
    else if isOnline st then
      match callGet (date st) st with
      | (Ok data, st) =>
          setDataSource "online"
            (setItem (cacheKey (date st)) (StoredWorkout (Some data))
               (setWorkout (Some data) st))
      | (Throw _, st) => setError (Some (loadError (isOnline st))) st
      end
    else st in
  setLoading false st.

(** The [for ... of] loop of [syncPendingChanges] (lines 49-51): stops at
    the first call that throws. *)
Fixpoint saveAll (changes : list Change) (st : State) : result unit * State :=
  match changes with
  | [] => (Ok tt, st)
  | change :: rest =>
      match callSave (SaveChange change) st with
      | (Ok _, st) => saveAll rest st
      | (Throw e, st) => (Throw e, st)
      end
  end.

Definition syncPendingChanges (st : State) : State :=
  if negb (isOnline st) || Nat.eqb (length (pendingChanges st)) 0 then st
  else
    let st := setIsSaving true st in
    let st :=
      match saveAll (pendingChanges st) st with
      | (Ok _, st) =>
          loadWorkoutData (removeItem "pendingChanges" (setPendingChanges [] st))
      | (Throw _, st) =>
          setError
            (Some "Failed to sync changes. Will retry when connection is available.")
            st
      end in
    setIsSaving false st.

Definition saveError (online : bool) : string :=
  "Failed to save changes. " +:+
  (if online then "Please try again later."
   else "Changes will be saved when you are back online.").

(** [handleSave] (lines 89-115); [now] is the timestamp
    [new Date().toISOString()] gives. *)
Definition handleSave (now : string) (updatedWorkout : option W) (st : State)
  : State :=
  let st := setIsSaving true st in
  let st :=
    if isOnline st then
      match callSave (SaveWorkout updatedWorkout) st with
      | (Ok _, st) => loadWorkoutData st
      | (Throw _, st) => setError (Some (saveError (isOnline st))) st
      end
    else
      let change := mkChange (date st) updatedWorkout now in
      let newPendingChanges := pendingChanges st ++ [change] in
      let st := setPendingChanges newPendingChanges st in
      let st := setItem "pendingChanges" (StoredChanges newPendingChanges) st in
      let st := setItem (cacheKey (date st)) (StoredWorkout updatedWorkout) st in
      setWorkout updatedWorkout st in
  setIsSaving false st.

End Component.

Arguments mkChange {W} _ _ _.
Arguments change_date {W} _.
Arguments change_workout {W} _.
Arguments change_timestamp {W} _.
Arguments SaveWorkout {W} _.
Arguments SaveChange {W} _.
Arguments CallGet {W} _.
Arguments CallSave {W} _.
Arguments StoredWorkout {W} _.
Arguments StoredChanges {W} _.
Arguments mkState {W World} _ _ _ _ _ _ _ _ _ _ _.
Arguments isOnline {W World} _.
Arguments date {W World} _.
Arguments loading {W World} _.
Arguments error {W World} _.
Arguments workout {W World} _.
Arguments dataSource {W World} _.
Arguments pendingChanges {W World} _.
Arguments isSaving {W World} _.
Arguments localStorage {W World} _.
Arguments world {W World} _.
Arguments calls {W World} _.
Arguments setLoading {W World} _ _.
Arguments setError {W World} _ _.
Arguments setWorkout {W World} _ _.
Arguments setDataSource {W World} _ _.
Arguments setPendingChanges {W World} _ _.
Arguments setIsSaving {W World} _ _.
Arguments setStorage {W World} _ _.
Arguments setItem {W World} _ _ _.
Arguments removeItem {W World} _ _.
Arguments callGet {W World} _ _ _.
Arguments callSave {W World} _ _ _.
Arguments loadWorkoutData {W World} _ _.
Arguments syncPendingChanges {W World} _ _ _.
Arguments handleSave {W World} _ _ _ _ _.
Arguments saveAll {W World} _ _ _.

End Tracker.

(* ===================================================================== *)
(** * Vocabulary of the specification *)
(* ===================================================================== *)

Module Spec.
Import JS.

(** A finite number that a double holds exactly as printed: at most 15
    significant digits, and at most 6 decimals when it is not an integer. *)
Definition exact (x : number) : Prop :=
  match x with
  | Int z => Z.abs z < 10 ^ 15
  | Frac m s => Z.abs m < 10 ^ 15 /\ m mod 10 <> 0 /\ (0 < s <= 6)%nat
  | _ => False
  end.

Definition exactInteger (x : number) : Prop :=
  exists z, x = Int z /\ Z.abs z < 10 ^ 15.

(** A set as the data model has it: reps and rir integers, weight a
    decimal, all held exactly. *)
Definition exactSet (set : WSet.t) : Prop :=
  exactInteger (WSet.reps set) /\ exact (WSet.weight set)
  /\ exactInteger (WSet.rir set).

(** A decimal numeral without its leading zeros; one zero is kept when
    nothing else is left. *)
Definition stripLeadingZeros (ds : list ascii) : list ascii :=
  match dropWhile (isChar "0"%char) ds with
  | [] => ["0"%char]
  | r => r
  end.

Definition nonWhiteSpace (c : ascii) : bool := negb (isWhiteSpace c).

(** A decimal numeral short enough to be held exactly. *)
Definition numeral (ds : list ascii) : Prop :=
  forallb isDigit ds = true /\ ds <> [] /\ (length ds <= 15)%nat.

(** Date text as the sheet holds it: white space around, an optional prefix
    (such as a weekday) that ends in a space, then month/day in digits and
    optionally a slash and more (such as a year). *)
Definition dateText (ws1 pre month day rest ws2 : list ascii) : string :=
  str (ws1 ++ pre ++ (month ++ "/"%char :: day ++ rest) ++ ws2).

Definition dateShaped (ws1 pre month day rest ws2 : list ascii) : Prop :=
  forallb isWhiteSpace ws1 = true /\ forallb isWhiteSpace ws2 = true
  /\ (pre = [] \/ exists p, pre = p ++ [" "%char])
  /\ numeral month /\ numeral day
  /\ (rest = [] \/ exists y, rest = "/"%char :: y /\ forallb nonWhiteSpace y = true).

(** The same shape with the prefix ending in any white space, as the
    specification words it ("whitespace-separated"). *)
Definition dateShapedAsStated (ws1 pre month day rest ws2 : list ascii) : Prop :=
  forallb isWhiteSpace ws1 = true /\ forallb isWhiteSpace ws2 = true
  /\ (pre = [] \/ exists p w, pre = p ++ [w] /\ isWhiteSpace w = true)
  /\ numeral month /\ numeral day
  /\ (rest = [] \/ exists y, rest = "/"%char :: y /\ forallb nonWhiteSpace y = true).

Definition TAB : ascii := ascii_of_nat 9.

(** One digit more on a decimal value, one letter more on a column
    number. *)
Definition step10 (acc : Z) (c : ascii) : Z := acc * 10 + default 0 (radixVal 10 c).

(** Fuel that is enough to print [n]. *)
Definition enough (fuel : nat) (n : Z) : Prop :=
  (0 < fuel)%nat /\ 0 <= n < 2 ^ Z.of_nat fuel.

Definition signed (neg : bool) (x : number) : number :=
  if neg then negate x else x.

(** Spreadsheet-style column letters count in bijective base 26: A is 1, Z
    is 26, AA is 27. *)
Definition letterNumber (c : ascii) : Z := code c - 64.
Definition isUpper (c : ascii) : bool := (65 <=? code c) && (code c <=? 90).
Definition sheetColumnNumber (s : string) : Z :=
  fold_left (fun acc c => acc * 26 + letterNumber c) (chars s) 0.
Definition step26 (acc : Z) (c : ascii) : Z := acc * 26 + letterNumber c.

(** ** Decoding a session-log row *)








(** A row of a log is a row for the query key when its date cell, in the
    given column, is there and normalizes to the key. *)
Definition rowFor (col : nat) (key : string) (row : Row) : Prop :=
  exists cell, row !! col = Some cell /\ cell <> EmptyString
               /\ SheetsTs.normalizeDate (Some cell) = key.

(** ** Row discovery on the update path *)




(** The two lower-case keys every JavaScript object answers to. *)
Definition builtinKey (k : string) : Prop := k = "constructor" \/ k = "__proto__".



(** ** Round trip through the row helpers *)

(** The sets read back from rows: each row is decoded by parseWorkoutRow,
    and a row that decodes to null gives none. *)
Definition setsOfRow (row : Row) : list WSet.t :=
  match Codec.parseWorkoutRow row with
  | Some exercise => Exercise.sets exercise
  | None => []
  end.

Definition decodedSets (rows : list Row) : list WSet.t :=
  flat_map setsOfRow rows.

(** The rows [formatSheetData] builds for the sets: all but the last row,
    which is the cardio row. *)
Definition setRows (sets : list WSet.t) (cardio : Cardio.t) : list Row :=
  take (length sets) (Codec.formatSheetData sets cardio).

(** A row with its exercise-name cell filled in. *)
Definition named (name : string) (row : Row) : Row := <[8%nat := name]> row.

(** ** Draining the queue *)

Section Drain.
Context {W World : Type}.
Variable saveWorkoutData :
  Tracker.SaveArg W -> World -> Remote.result unit * World.

(** [applied w changes w']: from the world [w], every change of the list is
    applied in order and succeeds, leaving the world [w']. *)
Inductive applied : World -> list (Tracker.Change W) -> World -> Prop :=
| applied_nil (w : World) : applied w [] w
| applied_cons (w w' w'' : World) (change : Tracker.Change W)
               (rest : list (Tracker.Change W)) :
    saveWorkoutData (Tracker.SaveChange change) w = (Remote.Ok tt, w') ->
    applied w' rest w'' ->
    applied w (change :: rest) w''.

Definition saveCalls (changes : list (Tracker.Change W)) : list (Tracker.Call W) :=
  map (fun change => Tracker.CallSave (Tracker.SaveChange change)) changes.

(** The state after service calls: only the world and the calls differ. *)
Definition moved (st : Tracker.State W World) (w : World)
    (cs : list (Tracker.Call W)) : Tracker.State W World :=
  Tracker.mkState (Tracker.isOnline st) (Tracker.date st) (Tracker.loading st)
    (Tracker.error st) (Tracker.workout st) (Tracker.dataSource st)
    (Tracker.pendingChanges st) (Tracker.isSaving st) (Tracker.localStorage st)
    w cs.

End Drain.

(** ** The write path of the JavaScript service *)

(** What [updateWorkoutData] sends for the session log: nothing when the
    record has no exercise. *)
Definition workoutRequests (formattedDate : string) (workoutData : SheetsJs.Workout.t)
  : list Remote.Request :=
  match SheetsJs.Workout.exercises workoutData with
  | [] => []
  | exercises =>
      [Remote.Append SheetsJs.workoutLogAppend (map (SheetsJs.workoutRow formattedDate) exercises)]
  end.

Definition queueOf (st : SheetsJs.State) : list SheetsJs.Change :=
  match SheetsJs.storage st !! "syncQueue" with Some (SheetsJs.Queue q) => q | _ => [] end.

End Spec.

(* ===================================================================== *)
(** * Sample data *)
(* ===================================================================== *)

Module Samples.
Import JS.

Definition sample_row : Row :=
  [EmptyString; EmptyString; EmptyString; EmptyString; EmptyString; EmptyString;
   "Thu 12/12/2024"; EmptyString; " Squat "; EmptyString; EmptyString;
   EmptyString; EmptyString; "3";
   "8"; "135.5"; "2";
   EmptyString; "100"; "1";
   "x"; "90"; "0"].

Definition sample_respond (q : Remote.Request) : Remote.Response :=
  match q with
  | Remote.Get "'workout log'!A:AL" => Remote.Ok200 (Some [sample_row])
  | Remote.Get _ =>
      Remote.Ok200
        (Some [[EmptyString; EmptyString; EmptyString; EmptyString; EmptyString;
                "Fri 12/13"; EmptyString; EmptyString; "Bike"]])
  | _ => Remote.NotOk "unexpected"
  end.

Definition sample_set : WSet.t := WSet.mk (Int 8) (Frac 1355 1) (Int 2).

Definition bike : Cardio.t :=
  Cardio.mk "Bike" (Int 20) (Int 0) (Int 7) "1:1" (Int 180) EmptyString.

Definition failing_respond (q : Remote.Request) : Remote.Response :=
  match q with
  | Remote.Append "'cardio log'!A:BM" _ => Remote.NotOk "Internal Server Error"
  | _ => Remote.Ok200 None
  end.

Definition change1 : Tracker.Change unit := Tracker.mkChange "2024-12-12" (Some tt) "t1".
Definition change2 : Tracker.Change unit := Tracker.mkChange "2024-12-13" (Some tt) "t2".

(** A service whose save fails on the change stamped t2. *)
Definition save_fails_on_t2 (arg : Tracker.SaveArg unit) (w : unit)
  : Remote.result unit * unit :=
  match arg with
  | Tracker.SaveChange change =>
      if String.eqb (Tracker.change_timestamp change) "t2"
      then (Remote.Throw "Failed to update workout data", w) else (Remote.Ok tt, w)
  | Tracker.SaveWorkout _ => (Remote.Ok tt, w)
  end.

Definition get_fails (d : string) (w : unit) : Remote.result unit * unit :=
  (Remote.Throw "Failed to fetch workout data", w).

Definition two_queued : Tracker.State unit unit :=
  Tracker.mkState true "2024-12-13" false None None "online" [change1; change2] false
          {["pendingChanges" := Tracker.StoredChanges [change1; change2]]} tt [].

Definition offline_empty : Tracker.State unit unit :=
  Tracker.mkState false "2024-03-14" false None None "online" [] false ∅ tt [].

End Samples.

(* ===================================================================== *)
(** * The coordinator's events: connectivity and start-up *)
(* ===================================================================== *)

Module TrackerEvents.
Import JS Tracker.
Import Remote (result, Ok, Throw).

Section Events.
Context {W World : Type}.
Variable getWorkoutData : string -> World -> result W * World.
Variable saveWorkoutData : SaveArg W -> World -> result unit * World.

Definition setIsOnline (v : bool) (st : State W World) : State W World :=
  mkState v (date st) (loading st) (error st) (workout st) (dataSource st)
          (pendingChanges st) (isSaving st) (localStorage st) (world st) (calls st).

(** [handleOnline] (lines 65-68).  The handler calls the [syncPendingChanges]
    of the render that registered it, which reads [isOnline] and
    [pendingChanges] as they were rendered: the update [setIsOnline(true)]
    shows only in the next render.  So the drain runs on the state before
    the update. *)
Definition handleOnline (st : State W World) : State W World :=
  setIsOnline true (syncPendingChanges getWorkoutData saveWorkoutData st).

(** [handleOffline] (line 69). *)
Definition handleOffline (st : State W World) : State W World :=
  setIsOnline false st.

(** The state of the first render (lines 7-14): [onLine] is
    [window.navigator.onLine] and [today] the date of the day. *)
Definition mount (onLine : bool) (today : string)
    (storage : gmap string (Stored W)) (w : World) (cs : list (Call W))
  : State W World :=
  mkState onLine today true None None "online" [] false storage w cs.

(** The effect that runs once after the first render (lines 81-86).  Only
    a queue is ever stored under this key; an item of the other kind is left
    alone. *)
Definition restorePendingChanges (st : State W World) : State W World :=
  match localStorage st !! "pendingChanges" with
  | Some (StoredChanges q) => setPendingChanges q st
  | _ => st
  end.

(** The queue in memory and the queue in local storage agree. *)
Definition queueStored (st : State W World) : Prop :=
  match localStorage st !! "pendingChanges" with
  | Some (StoredChanges q) => q = pendingChanges st
  | Some (StoredWorkout _) => False
  | None => pendingChanges st = []
  end.

End Events.
End TrackerEvents.

(* ===================================================================== *)
(** * The older TypeScript service: fetching with a token that can expire *)
(* ===================================================================== *)

Module SheetsOldFetch.
Import JS Remote.
Local Open Scope remote_scope.

(** A GET as the service sends it: the bearer token and the range. *)
Record Request : Type := mkRequest { bearer : string; range : string }.

(** The fetch promise rejects, or resolves with a status and a body. *)
Inductive Response : Type :=
| Rejected (message : string)
| Resolved (status : Z) (values : option (list Row)).

(** [response.ok]: a status from 200 to 299. *)
Definition ok (status : Z) : bool := (200 <=? status) && (status <=? 299).

(** Local storage holds the token; the requests sent so far are recorded. *)
Record State : Type := mkState {
  token : option string;
  sent : list Request }.

Section Service.

Variable respond : Request -> Response.

(** [getAuthToken] (lines 23-27) *)
Definition getAuthToken : M State string :=
  fun st => if truthy (token st) then (Ok (orEmpty (token st)), st)
            else (Throw "No authentication token available", st).

Definition fetch (q : Request) : M State Response :=
  fun st => (Ok (respond q), mkState (token st) (sent st ++ [q])).

(** [localStorage.removeItem('gapi_access_token')] *)
Definition removeToken : M State unit :=
  fun st => (Ok tt, mkState None (sent st)).

(** [fetchSheetData] (lines 29-50) *)
Definition fetchSheetData (range : string) : M State (option (list Row)) :=
  let* token := getAuthToken in
  let* response := fetch (mkRequest token range) in
  match response with
  | Rejected e => throw e
  | Resolved status values =>
      if negb (ok status) then
        if status =? 401 then
          do* removeToken in
          throw "Authentication expired"
        else throw ("API request failed: " +:+ toString (Int status))
      else ret values
  end.

End Service.
End SheetsOldFetch.

(* ===================================================================== *)
(** * The token-bearing copy: looking at the queue and clearing it *)
(* ===================================================================== *)

Module SheetsJsAuthQueue.
Import JS Remote SheetsJs.

(** [getOfflinePendingChanges] (lines 345-347); the static [getSyncQueue]
    it calls reads the queue as [syncQueue.get] does. *)
Definition getOfflinePendingChanges : M State (list Change) := syncQueue_get.

(** [clearOfflinePendingChanges] (lines 349-351) *)
Definition clearOfflinePendingChanges : M State unit :=
  fun st => (Ok tt, mkState (delete "syncQueue" (storage st)) (sent st)).

End SheetsJsAuthQueue.

(* ===================================================================== *)
(** * Further vocabulary *)
(* ===================================================================== *)

Module Terms.
Import JS.

(** The two reads of services/googleSheets.ts, in the order it sends
    them. *)
Definition readRequests : list Remote.Request :=
  [Remote.Get "'workout log'!A:AL"; Remote.Get "'cardio log'!A:BM"].

Definition answeredOk (respond : Remote.Request -> Remote.Response)
    (q : Remote.Request) : Prop :=
  exists values, respond q = Remote.Ok200 values.

Definition isGet (q : Remote.Request) : bool :=
  match q with Remote.Get _ => true | _ => false end.

(** What the JavaScript service sends for the cardio log: nothing when the
    record has no cardio, or a cardio whose fields are all falsy. *)
Definition cardioRequests (formattedDate : string) (workoutData : SheetsJs.Workout.t)
  : list Remote.Request :=
  match SheetsJs.Workout.cardio workoutData with
  | Some cardio =>
      if SheetsJs.someTruthy cardio
      then [Remote.Append SheetsJs.cardioLogAppend
              [SheetsJs.cardioRow formattedDate cardio]]
      else []
  | None => []
  end.

(** The changes put on the sync queue one after the other. *)
Definition addAll (changes : list SheetsJs.Change) (st : SheetsJs.State)
  : SheetsJs.State :=
  fold_left (fun st change => snd (SheetsJs.syncQueue_add change st)) changes st.

(** The cache entry of a date, if it holds a record. *)
Definition cachedAt (st : SheetsJs.State) (date : string)
  : option SheetsJs.Workout.t :=
  match SheetsJs.storage st !! SheetsJs.cacheKey date with
  | Some (SheetsJs.Cached data) => Some data
  | _ => None
  end.

(** A month and a day of the calendar, as [Date] gives them. *)
Definition calendarDay (d : Date) : Prop :=
  match d with
  | LocalDate month0 day => (month0 <= 11)%nat /\ (1 <= day <= 31)%nat
  | InvalidDate => False
  end.

(** Month/day text: one or two digits, a slash, one or two digits. *)
Definition monthDay (month day : list ascii) : Prop :=
  forallb isDigit month = true /\ forallb isDigit day = true
  /\ (1 <= length month <= 2)%nat /\ (1 <= length day <= 2)%nat.

(** What the first replace of [matchesDate] removes: three letters and the
    white space after them. *)
Definition weekdayPrefix (p : list ascii) : Prop :=
  p = []
  \/ exists a b c w ws,
       p = a :: b :: c :: w :: ws
       /\ isLetter a = true /\ isLetter b = true /\ isLetter c = true
       /\ isWhiteSpace w = true /\ forallb isWhiteSpace ws = true.

(** What its second replace removes: a slash and four digits. *)
Definition yearSuffix (y : list ascii) : Prop :=
  y = []
  \/ exists a b c d,
       y = ["/"%char; a; b; c; d]
       /\ isDigit a = true /\ isDigit b = true /\ isDigit c = true
       /\ isDigit d = true.

(** A row of the sheet as a read returns it, for a row that was appended:
    the cells written, less some empty cells at the end. *)
Definition returnedFor (written : list (option string)) (cells : Row) : Prop :=
  exists k, written = map Some (cells ++ replicate k EmptyString).

(** An exercise as a read returns it: the notes are a string. *)
Definition asRead (e : Exercise.t) : Exercise.t :=
  Exercise.mk (Exercise.name e) (Exercise.sets e)
              (Some (orEmpty (Exercise.notes e))).

(** An exercise the session log can hold and give back: a name, one to
    seven sets, every number held exactly. *)
Definition storable (e : Exercise.t) : Prop :=
  Exercise.name e <> EmptyString
  /\ (1 <= length (Exercise.sets e) <= 7)%nat
  /\ Forall Spec.exactSet (Exercise.sets e).

(** A row no wider than the columns A to Z. *)
Definition narrow (row : Row) : Prop := (length row <= 26)%nat.

Definition fourSetsNoNotes (e : Exercise.t) : Prop :=
  (length (Exercise.sets e) <= 4)%nat /\ Exercise.notes e = Some EmptyString.

End Terms.

(* ===================================================================== *)
(** * Facts about the JavaScript primitives *)
(* ===================================================================== *)

Module JSFacts.
Import JS Spec.

Lemma chars_str (l : list ascii) : chars (str l) = l.
Proof. apply list_ascii_of_string_of_list_ascii. Qed.

Lemma str_chars (s : string) : str (chars s) = s.
Proof. apply string_of_list_ascii_of_string. Qed.

Lemma chars_app (a b : string) : chars (a +:+ b) = chars a ++ chars b.
Proof. induction a as [|c a IH]; simpl; [reflexivity | now rewrite IH]. Qed.

Lemma str_app (a b : list ascii) : str (a ++ b) = str a +:+ str b.
Proof. induction a as [|c a IH]; simpl; [reflexivity | now rewrite IH]. Qed.

Lemma str_inj (a b : list ascii) : str a = str b -> a = b.
Proof. intros H. rewrite <- (chars_str a), <- (chars_str b). now rewrite H. Qed.

(** ** takeWhile and dropWhile *)

Section While.
Context {A : Type} (p : A -> bool).

Lemma takeWhile_dropWhile (l : list A) : takeWhile p l ++ dropWhile p l = l.
Proof.
  induction l as [|x l IH]; simpl; [reflexivity|].
  destruct (p x); simpl; [now rewrite IH | reflexivity].
Qed.

Lemma takeWhile_all (l r : list A) :
  forallb p l = true -> takeWhile p (l ++ r) = l ++ takeWhile p r.
Proof.
  induction l as [|x l IH]; simpl; [reflexivity|].
  intros H. apply andb_prop in H as [Hx Hl]. rewrite Hx. now rewrite IH.
Qed.

Lemma dropWhile_all (l r : list A) :
  forallb p l = true -> dropWhile p (l ++ r) = dropWhile p r.
Proof.
  induction l as [|x l IH]; simpl; [reflexivity|].
  intros H. apply andb_prop in H as [Hx Hl]. rewrite Hx. now apply IH.
Qed.

Lemma dropWhile_length (l : list A) : (length (dropWhile p l) <= length l)%nat.
Proof.
  induction l as [|x l IH]; simpl; [lia|]. destruct (p x); simpl; lia.
Qed.

Lemma forallb_rev (l : list A) : forallb p (rev l) = forallb p l.
Proof.
  induction l as [|x l IH]; simpl; [reflexivity|].
  rewrite forallb_app, IH. simpl. rewrite andb_true_r. apply andb_comm.
Qed.

Lemma takeWhile_stop (x : A) (r : list A) : p x = false -> takeWhile p (x :: r) = [].
Proof. intros H. simpl. now rewrite H. Qed.

Lemma dropWhile_stop (x : A) (r : list A) : p x = false -> dropWhile p (x :: r) = x :: r.
Proof. intros H. simpl. now rewrite H. Qed.

Lemma takeWhile_whole (l : list A) : forallb p l = true -> takeWhile p l = l.
Proof.
  intros H. rewrite <- (app_nil_r l) at 1. rewrite takeWhile_all by exact H.
  simpl. apply app_nil_r.
Qed.

Lemma dropWhile_whole (l : list A) : forallb p l = true -> dropWhile p l = [].
Proof.
  intros H. rewrite <- (app_nil_r l) at 1. now rewrite dropWhile_all by exact H.
Qed.

Lemma forallb_takeWhile (l : list A) : forallb p (takeWhile p l) = true.
Proof.
  induction l as [|x l IH]; simpl; [reflexivity|].
  destruct (p x) eqn:E; simpl; [now rewrite E | reflexivity].
Qed.

(** What [dropWhile] leaves of [u ++ t], when [t] starts outside [p], is a
    suffix of [u] followed by [t]. *)
Lemma dropWhile_suffix (u : list A) (x : A) (t : list A) :
  p x = false ->
  exists u1 q, u = u1 ++ q /\ forallb p u1 = true
               /\ dropWhile p (u ++ x :: t) = q ++ x :: t
               /\ (q = [] \/ exists y q', q = y :: q' /\ p y = false).
Proof.
  intros Hx. induction u as [|y u IH]; simpl.
  - exists [], []. rewrite Hx. repeat split; auto.
  - destruct (p y) eqn:Hy.
    + destruct IH as (u1 & q & -> & Hall & Hd & Hq).
      exists (y :: u1), q. simpl. rewrite Hy, Hall. repeat split; auto.
    + exists [], (y :: u). repeat split; auto. right. now exists y, u.
Qed.

End While.

(** ** Characters *)

Ltac each_char c := destruct c as [[] [] [] [] [] [] [] []]; vm_compute.

Lemma isChar_eq (a c : ascii) : isChar a c = true <-> a = c.
Proof. unfold isChar. apply Ascii.eqb_eq. Qed.

Lemma isChar_neq (a c : ascii) : isChar a c = false <-> a <> c.
Proof. unfold isChar. apply Ascii.eqb_neq. Qed.

(** A digit is none of the characters the parsers treat specially. *)
Lemma digit_plain (c : ascii) :
  isDigit c = true ->
  isWhiteSpace c = false /\ isChar "-"%char c = false /\ isChar "+"%char c = false
  /\ isChar "/"%char c = false /\ isChar " "%char c = false
  /\ isChar "x"%char c = false /\ isChar "X"%char c = false
  /\ isChar "I"%char c = false /\ isChar "."%char c = false
  /\ isChar "e"%char c = false /\ isChar "E"%char c = false.
Proof. each_char c; intros H; try discriminate H; repeat split. Qed.

Lemma digit_radix (c : ascii) :
  isDigit c = true ->
  radixVal 10 c = Some (digitVal c) /\ 0 <= digitVal c <= 9
  /\ digitChar (digitVal c) = c.
Proof.
  each_char c; intros H; try discriminate H; repeat split; discriminate.
Qed.

Lemma isRadixDigit_10 (c : ascii) : isRadixDigit 10 c = isDigit c.
Proof. each_char c; reflexivity. Qed.

Lemma digitChar_digit (d : Z) :
  0 <= d <= 9 ->
  isDigit (digitChar d) = true /\ radixVal 10 (digitChar d) = Some d
  /\ (isChar "0"%char (digitChar d) = true <-> d = 0).
Proof.
  intros H.
  assert (d = 0 \/ d = 1 \/ d = 2 \/ d = 3 \/ d = 4 \/ d = 5 \/ d = 6 \/ d = 7
          \/ d = 8 \/ d = 9) as Hd by lia.
  repeat (destruct Hd as [-> | Hd]); try subst d; vm_compute;
    (repeat split; try reflexivity; intros; try discriminate; try lia).
Qed.

Lemma whitespace_not_space_char (c : ascii) :
  isChar " "%char c = true -> isWhiteSpace c = true.
Proof. intros H. apply isChar_eq in H. now subst c. Qed.


(** ** Digit sequences *)


Lemma digitsValue_fold (ds : list ascii) : digitsValue 10 ds = fold_left step10 ds 0.
Proof. reflexivity. Qed.

Lemma fold_step10_shift (ds : list ascii) (v : Z) :
  fold_left step10 ds v = v * 10 ^ Z.of_nat (length ds) + fold_left step10 ds 0.
Proof.
  revert v. induction ds as [|c ds IH]; intros v.
  - simpl. lia.
  - cbn [fold_left length]. rewrite IH. rewrite (IH (step10 0 c)).
    unfold step10 at 1 3. rewrite Nat2Z.inj_succ, Z.pow_succ_r by lia. lia.
Qed.

Lemma digitsValue_app (a b : list ascii) :
  digitsValue 10 (a ++ b)
  = digitsValue 10 a * 10 ^ Z.of_nat (length b) + digitsValue 10 b.
Proof.
  rewrite !digitsValue_fold, fold_left_app. apply fold_step10_shift.
Qed.

Lemma fold_step10_nonneg (ds : list ascii) (v : Z) :
  forallb isDigit ds = true -> 0 <= v -> 0 <= fold_left step10 ds v.
Proof.
  revert v. induction ds as [|c ds IH]; intros v H Hv; [exact Hv|].
  simpl in H. apply andb_prop in H as [Hc Hds]. cbn [fold_left].
  apply IH; [exact Hds|]. unfold step10.
  destruct (digit_radix c Hc) as (-> & Hr & _). simpl. lia.
Qed.

Lemma digitsValue_nonneg (ds : list ascii) :
  forallb isDigit ds = true -> 0 <= digitsValue 10 ds.
Proof. intros H. rewrite digitsValue_fold. apply fold_step10_nonneg; [exact H | lia]. Qed.

Lemma digitsValue_zeros (n : nat) (ds : list ascii) :
  digitsValue 10 (zeros n ++ ds) = digitsValue 10 ds.
Proof.
  induction n as [|n IH]; [reflexivity|].
  rewrite digitsValue_fold in *. simpl. exact IH.
Qed.

Lemma forallb_zeros (n : nat) : forallb isDigit (zeros n) = true.
Proof. induction n; simpl; auto. Qed.

Lemma length_zeros (n : nat) : length (zeros n) = n.
Proof. apply repeat_length. Qed.

(** ** Printing a natural number *)


Lemma enough_step (f : nat) (n : Z) :
  enough (S f) n -> 10 <= n -> enough f (n / 10).
Proof.
  intros [_ [H0 H1]] H10.
  assert (n / 10 < 2 ^ Z.of_nat f) as Hlt.
  { apply Z.div_lt_upper_bound; [lia|].
    rewrite Nat2Z.inj_succ, Z.pow_succ_r in H1 by lia. lia. }
  assert (1 <= n / 10) by (apply Z.div_le_lower_bound; lia).
  split; [|lia].
  destruct f; [simpl in Hlt; lia | lia].
Qed.

Lemma enough_digitsOf (n : Z) : 0 <= n -> enough (S (Z.to_nat (Z.log2 n))) n.
Proof.
  intros H. split; [lia|]. split; [exact H|].
  rewrite Nat2Z.inj_succ, Z2Nat.id by apply Z.log2_nonneg.
  destruct (Z.eq_dec n 0) as [->|]; [reflexivity|].
  apply Z.log2_spec. lia.
Qed.

Lemma digitsFuel_acc (f : nat) (n : Z) (acc : list ascii) :
  enough f n -> digitsFuel f n acc = digitsFuel f n [] ++ acc.
Proof.
  revert n acc. induction f as [|f IH]; intros n acc H.
  - destruct H as [H _]. lia.
  - cbn [digitsFuel]. destruct (n <? 10) eqn:E; [reflexivity|].
    apply Z.ltb_ge in E.
    rewrite (IH _ (_ :: acc)), (IH _ [_]) by (apply enough_step; assumption).
    now rewrite <- app_assoc.
Qed.

Lemma digitsFuel_fuel (f f' : nat) (n : Z) :
  enough f n -> enough f' n -> digitsFuel f n [] = digitsFuel f' n [].
Proof.
  revert f' n. induction f as [|f IH]; intros f' n H H'.
  - destruct H as [H _]. lia.
  - destruct f' as [|f']; [destruct H' as [H' _]; lia|].
    cbn [digitsFuel]. destruct (n <? 10) eqn:E; [reflexivity|].
    apply Z.ltb_ge in E.
    rewrite (digitsFuel_acc f), (digitsFuel_acc f') by (apply enough_step; assumption).
    f_equal. apply IH; apply enough_step; assumption.
Qed.

(** The printing loop, one digit at a time. *)
Lemma digitsOf_small (n : Z) : 0 <= n < 10 -> digitsOf n = [digitChar n].
Proof.
  intros H. unfold digitsOf. cbn [digitsFuel].
  assert ((n <? 10) = true) as -> by (apply Z.ltb_lt; lia).
  now rewrite Z.mod_small by lia.
Qed.

Lemma digitsOf_step (n : Z) :
  10 <= n -> digitsOf n = digitsOf (n / 10) ++ [digitChar (n mod 10)].
Proof.
  intros H. unfold digitsOf at 1. cbn [digitsFuel].
  assert ((n <? 10) = false) as -> by (apply Z.ltb_ge; lia).
  assert (enough (Z.to_nat (Z.log2 n)) (n / 10)) as He.
  { apply enough_step; [apply enough_digitsOf; lia | exact H]. }
  rewrite digitsFuel_acc by exact He. f_equal.
  apply digitsFuel_fuel; [exact He|].
  apply enough_digitsOf. apply Z.div_pos; lia.
Qed.

(** Induction along the printing loop. *)
Lemma digits_ind (P : Z -> Prop) :
  (forall n, 0 <= n < 10 -> P n) ->
  (forall n, 10 <= n -> P (n / 10) -> P n) ->
  forall n, 0 <= n -> P n.
Proof.
  intros Hs Hi.
  assert (forall k : nat, forall n, 0 <= n < Z.of_nat k -> P n) as H.
  { induction k as [|k IH]; intros n Hn; [lia|].
    destruct (Z_lt_dec n 10) as [Hlt|Hge]; [apply Hs; lia|].
    apply Hi; [lia|]. apply IH.
    assert (n / 10 < n) by (apply Z.div_lt; lia).
    assert (0 <= n / 10) by (apply Z.div_pos; lia). lia. }
  intros n Hn. apply (H (S (Z.to_nat n))). lia.
Qed.

Lemma digitsOf_digits (n : Z) : 0 <= n -> forallb isDigit (digitsOf n) = true.
Proof.
  revert n. apply digits_ind; intros n Hn.
  - rewrite digitsOf_small by exact Hn. simpl.
    now destruct (digitChar_digit n) as (-> & _); [lia|].
  - intros IH. rewrite digitsOf_step by exact Hn.
    rewrite forallb_app, IH. simpl.
    destruct (digitChar_digit (n mod 10)) as (-> & _); [|reflexivity].
    pose proof (Z.mod_pos_bound n 10). lia.
Qed.

Lemma digitsOf_value (n : Z) : 0 <= n -> digitsValue 10 (digitsOf n) = n.
Proof.
  revert n. apply digits_ind; intros n Hn.
  - rewrite digitsOf_small by exact Hn. rewrite digitsValue_fold. simpl.
    unfold step10. destruct (digitChar_digit n) as (_ & -> & _); [lia|]. simpl. lia.
  - intros IH. rewrite digitsOf_step by exact Hn.
    rewrite digitsValue_app, IH. rewrite digitsValue_fold. simpl. unfold step10.
    pose proof (Z.mod_pos_bound n 10).
    destruct (digitChar_digit (n mod 10)) as (_ & -> & _); [lia|]. simpl.
    pose proof (Z.div_mod n 10). lia.
Qed.

Lemma digitsOf_length_aux (n : Z) :
  0 <= n ->
  forall k : nat, n < 10 ^ Z.of_nat k -> (0 < k)%nat -> (length (digitsOf n) <= k)%nat.
Proof.
  revert n. apply (digits_ind (fun n => forall k : nat, _ -> _ -> _)); intros n Hn.
  - intros k _ Hk. rewrite digitsOf_small by exact Hn. simpl. lia.
  - intros IH k Hk Hpos. rewrite digitsOf_step by exact Hn.
    rewrite length_app. simpl.
    destruct k as [|k]; [lia|].
    destruct k as [|k]; [simpl in Hk; lia|].
    assert (length (digitsOf (n / 10)) <= S k)%nat; [|lia].
    apply IH; [|lia].
    apply Z.div_lt_upper_bound; [lia|].
    rewrite (Nat2Z.inj_succ (S k)), Z.pow_succ_r in Hk by lia. lia.
Qed.

Lemma digitsOf_length (n : Z) (k : nat) :
  0 <= n < 10 ^ Z.of_nat k -> (0 < k)%nat -> (length (digitsOf n) <= k)%nat.
Proof. intros [H0 H1] Hk. now apply digitsOf_length_aux. Qed.

Lemma digitsOf_nonempty (n : Z) : 0 <= n -> digitsOf n <> [].
Proof.
  intros Hn. destruct (Z_lt_dec n 10).
  - rewrite digitsOf_small by lia. discriminate.
  - rewrite digitsOf_step by lia. intros H. now apply app_eq_nil in H as [_ H].
Qed.

(** The first digit printed for a positive number is not a zero. *)
Lemma digitsOf_head (n : Z) :
  0 < n -> exists c r, digitsOf n = c :: r /\ isChar "0"%char c = false.
Proof.
  intros Hn. assert (0 <= n) as H0 by lia. revert n H0 Hn. apply (digits_ind (fun n => 0 < n -> _)).
  - intros n Hn Hpos. rewrite digitsOf_small by exact Hn.
    exists (digitChar n), []. split; [reflexivity|].
    destruct (digitChar_digit n) as (_ & _ & Hz); [lia|].
    destruct (isChar "0"%char (digitChar n)); [|reflexivity].
    assert (n = 0) by (now apply Hz). lia.
  - intros n Hn IH _. rewrite digitsOf_step by exact Hn.
    destruct IH as (c & r & -> & Hc).
    { apply Z.div_str_pos. lia. }
    exists c, (r ++ [digitChar (n mod 10)]). now split.
Qed.

(** The last digit printed is the residue modulo 10. *)
Lemma digitsOf_last (n : Z) :
  0 <= n -> exists r, digitsOf n = r ++ [digitChar (n mod 10)].
Proof.
  intros Hn. destruct (Z_lt_dec n 10).
  - exists []. rewrite digitsOf_small, Z.mod_small by lia. reflexivity.
  - exists (digitsOf (n / 10)). apply digitsOf_step. lia.
Qed.

(** ** Parsing what was printed *)

Lemma splitSign_digit (c : ascii) (r : list ascii) :
  isDigit c = true -> splitSign (c :: r) = (false, c :: r).
Proof.
  intros H. destruct (digit_plain c H) as (_ & Hm & Hp & _).
  unfold splitSign. now rewrite Hm, Hp.
Qed.

Lemma trimStartL_sign_digit (neg : bool) (c : ascii) (r : list ascii) :
  isDigit c = true ->
  trimStartL (signChars neg ++ c :: r) = signChars neg ++ c :: r.
Proof.
  intros H. destruct (digit_plain c H) as (Hw & _).
  unfold trimStartL. destruct neg; simpl; [reflexivity | now rewrite Hw].
Qed.

Lemma splitSign_sign_digit (neg : bool) (c : ascii) (r : list ascii) :
  isDigit c = true -> splitSign (signChars neg ++ c :: r) = (neg, c :: r).
Proof.
  intros H. destruct neg; [reflexivity|]. now apply splitSign_digit.
Qed.

Lemma forallb_radix10 (ds : list ascii) :
  forallb (isRadixDigit 10) ds = forallb isDigit ds.
Proof. induction ds as [|c ds IH]; simpl; [reflexivity|]. now rewrite isRadixDigit_10, IH. Qed.

Lemma takeWhile_radix10 (l : list ascii) :
  takeWhile (isRadixDigit 10) l = takeWhile isDigit l.
Proof.
  induction l as [|c l IH]; simpl; [reflexivity|]. rewrite isRadixDigit_10.
  destruct (isDigit c); [now rewrite IH | reflexivity].
Qed.

(** [parseInt] on an optional sign and digits. *)
Lemma parseIntL_digits (neg : bool) (ds : list ascii) :
  forallb isDigit ds = true -> ds <> [] ->
  parseIntL (signChars neg ++ ds)
  = Int ((if neg then -1 else 1) * digitsValue 10 ds).
Proof.
  intros Hds Hne. destruct ds as [|c ds]; [congruence|]. clear Hne.
  assert (Hall := Hds). simpl in Hds. apply andb_prop in Hds as [Hc Hds].
  unfold parseIntL.
  rewrite trimStartL_sign_digit, splitSign_sign_digit by exact Hc.
  assert (takeWhile (isRadixDigit 10) (c :: ds) = c :: ds) as Htake.
  { rewrite takeWhile_radix10. now apply takeWhile_whole. }
  destruct ds as [|x r].
  - rewrite Htake. reflexivity.
  - simpl in Hds. apply andb_prop in Hds as [Hx _].
    destruct (digit_plain x Hx) as (_ & _ & _ & _ & _ & H1 & H2 & _).
    rewrite H1, H2, andb_false_r. rewrite Htake. reflexivity.
Qed.

Lemma startsWith_Infinity_digit (c : ascii) (r : list ascii) :
  isDigit c = true -> startsWithL (chars "Infinity") (c :: r) = false.
Proof.
  intros H. destruct (digit_plain c H) as (_ & _ & _ & _ & _ & _ & _ & HI & _).
  change (chars "Infinity") with ("I"%char :: chars "nfinity").
  cbn [startsWithL]. now rewrite HI.
Qed.


(** [parseFloat] on an optional sign and digits. *)
Lemma parseFloatL_integer (neg : bool) (i : list ascii) :
  forallb isDigit i = true -> i <> [] ->
  parseFloatL (signChars neg ++ i) = signed neg (Int (digitsValue 10 i)).
Proof.
  intros Hi Hne. destruct i as [|c i]; [congruence|]. clear Hne.
  assert (Hall := Hi). simpl in Hi. apply andb_prop in Hi as [Hc Hi].
  unfold parseFloatL.
  rewrite trimStartL_sign_digit, splitSign_sign_digit by exact Hc.
  rewrite startsWith_Infinity_digit by exact Hc.
  rewrite (takeWhile_whole isDigit (c :: i)), (dropWhile_whole isDigit (c :: i))
    by exact Hall.
  cbn [isNil andb app length]. rewrite app_nil_r.
  unfold exponentOf, mkNumber. simpl (0 - Z.of_nat 0). simpl (0 <=? 0).
  cbv iota. rewrite Z.pow_0_r, Z.mul_1_r. reflexivity.
Qed.

Lemma stripZeros_canonical (s : nat) (m : Z) :
  (0 < s)%nat -> m mod 10 <> 0 -> stripZeros s m = Frac m s.
Proof.
  intros Hs Hm. destruct s as [|s]; [lia|]. simpl.
  destruct (m mod 10 =? 0) eqn:E; [apply Z.eqb_eq in E; contradiction | reflexivity].
Qed.

(** [parseFloat] on an optional sign, digits, a point and digits. *)
Lemma parseFloatL_decimal (neg : bool) (i f : list ascii) :
  forallb isDigit i = true -> i <> [] ->
  forallb isDigit f = true ->
  parseFloatL (signChars neg ++ i ++ "."%char :: f)
  = signed neg (mkNumber (digitsValue 10 (i ++ f)) (- Z.of_nat (length f))).
Proof.
  intros Hi Hne Hf. destruct i as [|c i]; [congruence|]. clear Hne.
  assert (Hall := Hi). simpl in Hi. apply andb_prop in Hi as [Hc Hi].
  unfold parseFloatL. cbn [app].
  rewrite trimStartL_sign_digit, splitSign_sign_digit by exact Hc.
  rewrite startsWith_Infinity_digit by exact Hc.
  change (c :: i ++ "."%char :: f) with ((c :: i) ++ "."%char :: f).
  rewrite takeWhile_all, dropWhile_all by exact Hall.
  rewrite takeWhile_stop, dropWhile_stop by reflexivity.
  rewrite app_nil_r.
  change (isChar "."%char "."%char) with true. cbv iota.
  rewrite takeWhile_whole, dropWhile_whole by exact Hf.
  cbn [isNil andb]. unfold exponentOf. rewrite Z.sub_0_l. reflexivity.
Qed.

(** Trailing zeros that were stripped for printing are put back. *)
Lemma strip_restore (l : list ascii) :
  let ds := rev (dropWhile (isChar "0"%char) (rev l)) in
  ds ++ zeros (length l - length ds) = l.
Proof.
  intros ds. subst ds.
  pose proof (takeWhile_dropWhile (isChar "0"%char) (rev l)) as H.
  assert (takeWhile (isChar "0"%char) (rev l)
          = zeros (length (takeWhile (isChar "0"%char) (rev l)))) as Hz.
  { generalize (rev l). intros r. induction r as [|x r IH]; [reflexivity|].
    simpl. destruct (isChar "0"%char x) eqn:E; [|reflexivity].
    apply isChar_eq in E. subst x. cbn [length]. unfold zeros. cbn [repeat].
    f_equal. exact IH. }
  set (t := takeWhile (isChar "0"%char) (rev l)) in *.
  set (d := dropWhile (isChar "0"%char) (rev l)) in *.
  assert (length l = length t + length d)%nat as Hlen.
  { rewrite <- (length_rev l), <- H. apply length_app. }
  rewrite length_rev.
  replace (length l - length d)%nat with (length t) by lia.
  rewrite <- (rev_involutive l), <- H, rev_app_distr. f_equal.
  rewrite Hz at 2. unfold zeros. now rewrite rev_repeat.
Qed.

(** Integers below 10^21 print as their digits. *)
Lemma toStringL_Int (z : Z) :
  Z.abs z < 10 ^ 21 ->
  toStringL (Int z) = signChars (z <? 0) ++ digitsOf (Z.abs z).
Proof.
  intros Hz. unfold toStringL. destruct (z =? 0) eqn:E.
  - apply Z.eqb_eq in E. subst z. reflexivity.
  - f_equal. unfold formatDigits.
    set (all := digitsOf (Z.abs z)).
    set (ds := rev (dropWhile (isChar "0"%char) (rev all))).
    assert (length all <= 21)%nat as Hlen.
    { apply digitsOf_length; [|lia]. split; [lia|]. exact Hz. }
    assert (length ds <= length all)%nat as Hk.
    { subst ds. rewrite length_rev.
      etransitivity; [apply dropWhile_length|]. now rewrite length_rev. }
    assert ((Z.of_nat (length ds) <=? Z.of_nat (length all)) = true) as ->
      by (apply Z.leb_le; lia).
    assert ((Z.of_nat (length all) <=? 21) = true) as -> by (apply Z.leb_le; lia).
    cbn [andb].
    replace (Z.to_nat (Z.of_nat (length all) - Z.of_nat (length ds)))
      with (length all - length ds)%nat by lia.
    apply strip_restore.
Qed.

Lemma signed_Int (z : Z) :
  signed (z <? 0) (Int (Z.abs z)) = Int z.
Proof.
  unfold signed. destruct (z <? 0) eqn:E; simpl; f_equal.
  - apply Z.ltb_lt in E. lia.
  - apply Z.ltb_ge in E. lia.
Qed.

Lemma parseInt_toString_Int (z : Z) :
  Z.abs z < 10 ^ 21 -> parseInt (Some (toString (Int z))) = Int z.
Proof.
  intros Hz. unfold parseInt, toStr, toString. rewrite chars_str, toStringL_Int by exact Hz.
  rewrite parseIntL_digits;
    [| apply digitsOf_digits; lia | apply digitsOf_nonempty; lia].
  rewrite digitsOf_value by lia. f_equal.
  destruct (z <? 0) eqn:E; [apply Z.ltb_lt in E | apply Z.ltb_ge in E]; lia.
Qed.

Lemma parseFloat_toString_Int (z : Z) :
  Z.abs z < 10 ^ 21 -> parseFloat (Some (toString (Int z))) = Int z.
Proof.
  intros Hz. unfold parseFloat, toStr, toString. rewrite chars_str, toStringL_Int by exact Hz.
  rewrite parseFloatL_integer;
    [| apply digitsOf_digits; lia | apply digitsOf_nonempty; lia].
  rewrite digitsOf_value by lia. apply signed_Int.
Qed.

Lemma abs_mod10 (m : Z) : m mod 10 <> 0 -> Z.abs m mod 10 <> 0.
Proof.
  intros H E. apply H.
  pose proof (Z.div_mod (Z.abs m) 10 ltac:(lia)) as D. rewrite E, Z.add_0_r in D.
  destruct (Z.abs_eq_or_opp m) as [A|A].
  - rewrite <- A, D, Z.mul_comm. apply Z.mod_mul. lia.
  - replace m with ((- (Z.abs m / 10)) * 10) by lia. apply Z.mod_mul. lia.
Qed.

Lemma mkNumber_frac (v : Z) (s : nat) :
  (0 < s)%nat -> v mod 10 <> 0 -> mkNumber v (- Z.of_nat s) = Frac v s.
Proof.
  intros Hs Hv. unfold mkNumber.
  assert ((0 <=? - Z.of_nat s) = false) as -> by (apply Z.leb_gt; lia).
  rewrite Z.opp_involutive, Nat2Z.id. now apply stripZeros_canonical.
Qed.

Lemma signed_Frac (m : Z) (s : nat) :
  signed (m <? 0) (Frac (Z.abs m) s) = Frac m s.
Proof.
  unfold signed. destruct (m <? 0) eqn:E; simpl; f_equal.
  - apply Z.ltb_lt in E. lia.
  - apply Z.ltb_ge in E. lia.
Qed.

(** A canonical decimal fraction of at most 21 digits and 6 decimals parses
    back from what it prints as. *)
Lemma parseFloat_toString_Frac (m : Z) (s : nat) :
  Z.abs m < 10 ^ 21 -> m mod 10 <> 0 -> (0 < s <= 6)%nat ->
  parseFloat (Some (toString (Frac m s))) = Frac m s.
Proof.
  intros Hm Hmod Hs. unfold parseFloat, toStr, toString. rewrite chars_str.
  unfold toStringL, formatDigits.
  set (ds := digitsOf (Z.abs m)).
  assert (forallb isDigit ds = true) as Hds by (apply digitsOf_digits; lia).
  assert (ds <> []) as Hne by (apply digitsOf_nonempty; lia).
  assert (length ds <= 21)%nat as Hlen.
  { apply digitsOf_length; [|lia]. split; [lia | exact Hm]. }
  assert (0 < length ds)%nat as Hpos by (destruct ds; [congruence | simpl; lia]).
  assert (digitsValue 10 ds = Z.abs m) as Hval by (apply digitsOf_value; lia).
  set (k := Z.of_nat (length ds)). set (n := k - Z.of_nat s).
  assert ((k <=? n) = false) as -> by (apply Z.leb_gt; lia).
  cbn [andb].
  destruct (0 <? n) eqn:En.
  - apply Z.ltb_lt in En.
    assert ((n <=? 21) = true) as -> by (apply Z.leb_le; lia). cbn [andb].
    rewrite parseFloatL_decimal.
    + rewrite take_drop, Hval, length_drop.
      replace (length ds - Z.to_nat n)%nat with s by lia.
      rewrite mkNumber_frac by (try apply abs_mod10; tauto || lia).
      apply signed_Frac.
    + rewrite <- (take_drop (Z.to_nat n) ds), forallb_app in Hds.
      now apply andb_prop in Hds as [H _].
    + intros E. apply (f_equal (@length _)) in E. rewrite length_take in E.
      simpl in E. lia.
    + rewrite <- (take_drop (Z.to_nat n) ds), forallb_app in Hds.
      now apply andb_prop in Hds as [_ H].
  - apply Z.ltb_ge in En. cbn [andb].
    assert ((-6 <? n) = true) as -> by (apply Z.ltb_lt; lia).
    assert ((n <=? 0) = true) as -> by (apply Z.leb_le; lia). cbn [andb].
    change ("0"%char :: "."%char :: zeros (Z.to_nat (- n)) ++ ds)
      with (["0"%char] ++ "."%char :: zeros (Z.to_nat (- n)) ++ ds).
    rewrite parseFloatL_decimal.
    + change (["0"%char] ++ zeros (Z.to_nat (- n)) ++ ds)
        with (zeros (S (Z.to_nat (- n))) ++ ds).
      rewrite digitsValue_zeros, Hval, length_app, length_zeros.
      replace (Z.to_nat (- n) + length ds)%nat with s by lia.
      rewrite mkNumber_frac by (try apply abs_mod10; tauto || lia).
      apply signed_Frac.
    + reflexivity.
    + discriminate.
    + rewrite forallb_app, forallb_zeros. exact Hds.
Qed.

(** ** Canonical numerals *)

Lemma digitsValue_single (d : ascii) :
  isDigit d = true -> digitsValue 10 [d] = digitVal d /\ 0 <= digitVal d <= 9.
Proof.
  intros Hd. destruct (digit_radix d Hd) as (Hv & Hb & _). split; [|exact Hb].
  rewrite digitsValue_fold. cbn [fold_left]. unfold step10. rewrite Hv. simpl. lia.
Qed.

Lemma digitsValue_bound (ds : list ascii) :
  forallb isDigit ds = true -> digitsValue 10 ds < 10 ^ Z.of_nat (length ds).
Proof.
  induction ds as [|d ds IH] using rev_ind; intros H.
  - reflexivity.
  - rewrite forallb_app in H. apply andb_prop in H as [Hds Hd].
    simpl in Hd. rewrite andb_true_r in Hd.
    rewrite digitsValue_app, length_app. simpl length.
    rewrite Nat2Z.inj_add, Z.pow_add_r by lia.
    specialize (IH Hds). destruct (digitsValue_single d Hd) as [-> Hr].
    pose proof (digitsValue_nonneg ds Hds). rewrite Z.pow_1_r. nia.
Qed.

Lemma digitsOf_canonical_aux (c : ascii) (r : list ascii) :
  isDigit c = true -> isChar "0"%char c = false -> forallb isDigit r = true ->
  digitsOf (digitsValue 10 (c :: r)) = c :: r /\ 1 <= digitsValue 10 (c :: r).
Proof.
  intros Hc H0. induction r as [|d r IH] using rev_ind; intros Hr.
  - destruct (digit_radix c Hc) as (Hv & Hb & Hd).
    destruct (digitsValue_single c Hc) as [-> _].
    assert (digitVal c <> 0) as Hnz.
    { intros E. destruct (digitChar_digit (digitVal c) Hb) as (_ & _ & Hz).
      rewrite Hd in Hz. apply Hz in E. congruence. }
    split; [|lia]. rewrite digitsOf_small by lia. now rewrite Hd.
  - rewrite forallb_app in Hr. apply andb_prop in Hr as [Hr Hd].
    simpl in Hd. rewrite andb_true_r in Hd.
    destruct (IH Hr) as [IHd IHv].
    change (c :: r ++ [d]) with ((c :: r) ++ [d]).
    rewrite digitsValue_app.
    destruct (digit_radix d Hd) as (Hv & Hb & Hdc).
    destruct (digitsValue_single d Hd) as [-> _].
    simpl length. rewrite Z.pow_1_r.
    set (v := digitsValue 10 (c :: r)) in *.
    split; [|lia].
    rewrite digitsOf_step by lia.
    replace ((v * 10 + digitVal d) / 10) with v
      by (apply Z.div_unique with (r := digitVal d); lia).
    replace ((v * 10 + digitVal d) mod 10) with (digitVal d)
      by (apply Z.mod_unique with (q := v); lia).
    now rewrite IHd, Hdc.
Qed.

(** Printing the value of a numeral strips its leading zeros. *)
Lemma digitsOf_canonical (ds : list ascii) :
  forallb isDigit ds = true -> ds <> [] ->
  digitsOf (digitsValue 10 ds) = Spec.stripLeadingZeros ds.
Proof.
  intros Hds Hne. unfold Spec.stripLeadingZeros.
  pose proof (takeWhile_dropWhile (isChar "0"%char) ds) as Hsplit.
  assert (takeWhile (isChar "0"%char) ds
          = zeros (length (takeWhile (isChar "0"%char) ds))) as Hz.
  { clear. induction ds as [|x r IH]; [reflexivity|].
    simpl. destruct (isChar "0"%char x) eqn:E; [|reflexivity].
    apply isChar_eq in E. subst x. cbn [length]. unfold zeros. cbn [repeat].
    f_equal. exact IH. }
  rewrite <- Hsplit at 1. rewrite Hz, digitsValue_zeros.
  destruct (dropWhile (isChar "0"%char) ds) as [|c r] eqn:E; [reflexivity|].
  assert (isChar "0"%char c = false) as H0.
  { clear -E. induction ds as [|x l IH]; [discriminate|]. simpl in E.
    destruct (isChar "0"%char x) eqn:Ex; [now apply IH|]. now injection E as -> _. }
  rewrite <- Hsplit, forallb_app in Hds. apply andb_prop in Hds as [_ Hds].
  simpl in Hds. apply andb_prop in Hds as [Hc Hr].
  now destruct (digitsOf_canonical_aux c r Hc H0 Hr).
Qed.

(** [parseInt] of a numeral of at most 21 digits, printed again. *)
Lemma toString_parseInt_numeral (ds : list ascii) :
  forallb isDigit ds = true -> ds <> [] -> (length ds <= 21)%nat ->
  toString (parseInt (Some (str ds))) = str (Spec.stripLeadingZeros ds).
Proof.
  intros Hds Hne Hlen. unfold parseInt, toStr. rewrite chars_str.
  pose proof (parseIntL_digits false ds Hds Hne) as Hp.
  cbn [signChars app] in Hp. rewrite Hp, Z.mul_1_l. unfold toString. f_equal.
  pose proof (digitsValue_nonneg ds Hds) as H0.
  pose proof (digitsValue_bound ds Hds) as H1.
  assert (10 ^ Z.of_nat (length ds) <= 10 ^ 21) by (apply Z.pow_le_mono_r; lia).
  rewrite toStringL_Int by lia.
  assert ((digitsValue 10 ds <? 0) = false) as -> by (apply Z.ltb_ge; lia).
  simpl signChars. rewrite Z.abs_eq by lia. cbn [app].
  now apply digitsOf_canonical.
Qed.

(** ** Splitting *)

Lemma splitL_none (sep : ascii) (t : list ascii) :
  forallb (fun c => negb (isChar sep c)) t = true -> splitL sep t = [t].
Proof.
  induction t as [|x t IH]; [reflexivity|]. simpl. intros H.
  apply andb_prop in H as [Hx Ht]. apply negb_true_iff in Hx.
  now rewrite Hx, IH.
Qed.

Lemma splitL_first (sep : ascii) (a r : list ascii) :
  forallb (fun c => negb (isChar sep c)) a = true ->
  splitL sep (a ++ sep :: r) = a :: splitL sep r.
Proof.
  induction a as [|x a IH]; simpl; intros H.
  - assert (isChar sep sep = true) as -> by now apply isChar_eq. reflexivity.
  - apply andb_prop in H as [Hx Ha]. apply negb_true_iff in Hx.
    now rewrite Hx, IH.
Qed.

Lemma splitL_last (sep : ascii) (u t : list ascii) :
  forallb (fun c => negb (isChar sep c)) t = true ->
  exists p init, splitL sep (u ++ sep :: t) = (p :: init) ++ [t].
Proof.
  intros Ht. induction u as [|x u IH]; simpl.
  - assert (isChar sep sep = true) as -> by now apply isChar_eq.
    rewrite splitL_none by exact Ht. now exists [], [].
  - destruct IH as (p & init & ->). destruct (isChar sep x).
    + now exists [], (p :: init).
    + now exists (x :: p), init.
Qed.

(** ** Trimming *)

Lemma trimEndL_token (q t ws : list ascii) :
  forallb isWhiteSpace ws = true ->
  forallb Spec.nonWhiteSpace t = true -> t <> [] ->
  trimEndL (q ++ t ++ ws) = q ++ t.
Proof.
  intros Hws Ht Hne. unfold trimEndL.
  rewrite !rev_app_distr, <- app_assoc.
  rewrite dropWhile_all by (now rewrite forallb_rev).
  destruct t as [|x t] using rev_ind; [congruence|]. clear IHt Hne.
  rewrite forallb_app in Ht. apply andb_prop in Ht as [_ Hx]. simpl in Hx.
  rewrite andb_true_r in Hx. apply negb_true_iff in Hx.
  rewrite rev_app_distr. cbn [rev app]. rewrite dropWhile_stop by exact Hx.
  change (x :: rev t ++ rev q) with ((rev [x]) ++ rev t ++ rev q).
  now rewrite <- !rev_app_distr, rev_involutive, <- app_assoc.
Qed.

(** Trimming padded text that ends in a token free of white space keeps
    the token and, before it, a suffix of the prefix. *)
Lemma trimL_token (ws1 pre t ws2 : list ascii) :
  forallb isWhiteSpace ws1 = true -> forallb isWhiteSpace ws2 = true ->
  forallb Spec.nonWhiteSpace t = true -> t <> [] ->
  exists u1 q, pre = u1 ++ q /\ trimL (ws1 ++ pre ++ t ++ ws2) = q ++ t.
Proof.
  intros H1 H2 Ht Hne. unfold trimL, trimStartL.
  rewrite dropWhile_all by exact H1.
  destruct t as [|x t]; [congruence|].
  assert (isWhiteSpace x = false) as Hx.
  { simpl in Ht. apply andb_prop in Ht as [Hx _]. now apply negb_true_iff in Hx. }
  cbn [app].
  destruct (dropWhile_suffix isWhiteSpace pre x (t ++ ws2) Hx)
    as (u1 & q & Hpre & _ & Hd & _).
  exists u1, q. split; [exact Hpre|]. rewrite Hd.
  change (q ++ x :: t ++ ws2) with (q ++ (x :: t) ++ ws2).
  now apply trimEndL_token.
Qed.

Lemma suffix_snoc {A} (p u1 q : list A) (x : A) :
  p ++ [x] = u1 ++ q -> q = [] \/ exists q', q = q' ++ [x].
Proof.
  intros H. destruct q as [|y q] using rev_ind; [now left|]. right.
  rewrite app_assoc in H. apply app_inj_tail in H as [_ ->]. now exists q.
Qed.
End JSFacts.

(* ===================================================================== *)
(** * Date normalizer *)
(* ===================================================================== *)

Module DateKey.
Import JS JSFacts Spec SheetsTs.

Lemma digits_nonWhiteSpace (ds : list ascii) :
  forallb isDigit ds = true -> forallb nonWhiteSpace ds = true.
Proof.
  induction ds as [|c ds IH]; simpl; [reflexivity|]. intros H.
  apply andb_prop in H as [Hc Hds]. destruct (digit_plain c Hc) as (Hw & _).
  unfold nonWhiteSpace at 1. now rewrite Hw, IH.
Qed.

Lemma digits_no_slash (ds : list ascii) :
  forallb isDigit ds = true ->
  forallb (fun c => negb (isChar "/"%char c)) ds = true.
Proof.
  induction ds as [|c ds IH]; simpl; [reflexivity|]. intros H.
  apply andb_prop in H as [Hc Hds].
  destruct (digit_plain c Hc) as (_ & _ & _ & Hs & _). now rewrite Hs, IH.
Qed.

Lemma nonWhiteSpace_no_space (t : list ascii) :
  forallb nonWhiteSpace t = true ->
  forallb (fun c => negb (isChar " "%char c)) t = true.
Proof.
  induction t as [|c t IH]; simpl; [reflexivity|]. intros H.
  apply andb_prop in H as [Hc Ht]. rewrite IH by exact Ht.
  rewrite andb_true_r. unfold nonWhiteSpace in Hc.
  destruct (isChar " "%char c) eqn:E; [|reflexivity].
  apply whitespace_not_space_char in E. now rewrite E in Hc.
Qed.

(** The token month/day[/...] of a date-shaped text has no white space. *)
Lemma token_nonWhiteSpace (month day rest : list ascii) :
  forallb isDigit month = true -> forallb isDigit day = true ->
  (rest = [] \/ exists y, rest = "/"%char :: y /\ forallb nonWhiteSpace y = true) ->
  forallb nonWhiteSpace (month ++ "/"%char :: day ++ rest) = true.
Proof.
  intros Hm Hd Hr. rewrite forallb_app, digits_nonWhiteSpace by exact Hm.
  cbn [forallb andb]. rewrite forallb_app, digits_nonWhiteSpace by exact Hd.
  destruct Hr as [-> | (y & -> & Hy)]; [reflexivity|].
  cbn [forallb andb]. now rewrite Hy.
Qed.

(** The month/day token splits on the slash into month, day and perhaps
    more. *)
Lemma token_parts (month day rest : list ascii) :
  forallb isDigit month = true -> forallb isDigit day = true ->
  (rest = [] \/ exists y, rest = "/"%char :: y /\ forallb nonWhiteSpace y = true) ->
  exists more,
    splitL "/"%char (month ++ "/"%char :: day ++ rest) = month :: day :: more.
Proof.
  intros Hm Hd Hr. rewrite splitL_first by now apply digits_no_slash.
  destruct Hr as [-> | (y & -> & _)].
  - rewrite app_nil_r, splitL_none by now apply digits_no_slash. now exists [].
  - rewrite splitL_first by now apply digits_no_slash. eauto.
Qed.

(** After trimming and taking the last space-separated part, what is left
    of a date-shaped text is its month/day token. *)
Lemma last_token (ws1 pre t ws2 : list ascii) (s : string) :
  forallb isWhiteSpace ws1 = true -> forallb isWhiteSpace ws2 = true ->
  (pre = [] \/ exists p, pre = p ++ [" "%char]) ->
  forallb nonWhiteSpace t = true -> t <> [] ->
  s = trim (str (ws1 ++ pre ++ t ++ ws2)) ->
  (if (1 <? length (split s " "%char))%nat
   then lastPart (split s " "%char) s else s) = str t.
Proof.
  intros H1 H2 Hpre Ht Hne ->. unfold trim, split, lastPart. rewrite !chars_str.
  destruct (trimL_token ws1 pre t ws2 H1 H2 Ht Hne) as (u1 & q & Hq & ->).
  assert (q = [] \/ exists q', q = q' ++ [" "%char]) as [-> | (q' & ->)].
  { destruct Hpre as [-> | (p & ->)].
    - symmetry in Hq. apply app_eq_nil in Hq as [_ ->]. now left.
    - now apply suffix_snoc in Hq. }
  - cbn [app]. rewrite splitL_none by now apply nonWhiteSpace_no_space.
    reflexivity.
  - rewrite <- app_assoc. cbn [app].
    destruct (splitL_last " "%char q' t (nonWhiteSpace_no_space t Ht))
      as (p & init & ->).
    rewrite map_app. cbn [map].
    match goal with |- (if ?b then _ else _) = _ => destruct b eqn:E end.
    + apply last_last.
    + apply Nat.ltb_ge in E. rewrite length_app in E. simpl in E. lia.
Qed.

(** A last token without a slash is returned as it is, trimmed. *)
Lemma normalizeDate_plain_token (ws1 pre t ws2 : list ascii) :
  forallb isWhiteSpace ws1 = true -> forallb isWhiteSpace ws2 = true ->
  (pre = [] \/ exists p, pre = p ++ [" "%char]) ->
  forallb nonWhiteSpace t = true -> t <> [] ->
  includes (str t) "/"%char = false ->
  normalizeDate (Some (str (ws1 ++ pre ++ t ++ ws2))) = str t.
Proof.
  intros H1 H2 Hpre Ht Hne Hs. unfold normalizeDate.
  assert (truthy (Some (str (ws1 ++ pre ++ t ++ ws2))) = true) as ->.
  { unfold truthy, truthyStr. rewrite chars_str.
    destruct ws1; [destruct pre; [destruct t; [congruence|]|]|]; reflexivity. }
  cbn [negb orEmpty]. cbv zeta.
  rewrite (last_token ws1 pre t ws2 _ H1 H2 Hpre Ht Hne eq_refl).
  now rewrite Hs.
Qed.

(** An absent or empty date cell gives the empty key. *)
Lemma normalizeDate_empty :
  normalizeDate None = EmptyString /\ normalizeDate (Some EmptyString) = EmptyString.
Proof. split; reflexivity. Qed.

(** C4, as amended.  For every date text -- white space around, an optional
    prefix ending in a space character, then month/day in decimal digits and
    optionally a slash and a year -- normalizeDate trims the white space,
    keeps the last space-separated token, and returns month/day with the
    leading zeros stripped and the year discarded. *)
Theorem normalizeDate_date_text (ws1 pre month day rest ws2 : list ascii) :
  dateShaped ws1 pre month day rest ws2 ->
  normalizeDate (Some (dateText ws1 pre month day rest ws2))
  = str (stripLeadingZeros month ++ "/"%char :: stripLeadingZeros day).
Proof.
  intros (H1 & H2 & Hpre & (Hm & Hmne & Hml) & (Hd & Hdne & Hdl) & Hrest).
  pose proof (token_nonWhiteSpace month day rest Hm Hd Hrest) as Ht.
  destruct (token_parts month day rest Hm Hd Hrest) as (more & Hparts).
  unfold dateText. set (t := month ++ "/"%char :: day ++ rest) in *.
  assert (t <> []) as Hne by (subst t; now destruct month).
  unfold normalizeDate.
  assert (truthy (Some (str (ws1 ++ pre ++ t ++ ws2))) = true) as ->.
  { unfold truthy, truthyStr. rewrite chars_str.
    destruct ws1; [destruct pre; [destruct t; [congruence|]|]|]; reflexivity. }
  cbn [negb orEmpty]. cbv zeta.
  rewrite (last_token ws1 pre t ws2 _ H1 H2 Hpre Ht Hne eq_refl).
  assert (includes (str t) "/"%char = true) as ->.
  { unfold includes. rewrite chars_str. subst t. rewrite existsb_app.
    cbn [existsb]. change (isChar "/"%char "/"%char) with true.
    now rewrite orb_true_r. }
  unfold split. rewrite chars_str, Hparts. cbn [map lookup list_lookup].
  rewrite !toString_parseInt_numeral by (assumption || lia).
  now rewrite str_app.
Qed.

(** The date texts of the specification's examples. *)
Lemma normalizeDate_date_text_witness :
  normalizeDate (Some "Thu 12/12/2024") = "12/12"
  /\ normalizeDate (Some "12/12") = "12/12"
  /\ normalizeDate (Some "02/05") = "2/5".
Proof.
  split; [|split].
  - apply (normalizeDate_date_text [] (chars "Thu ") (chars "12") (chars "12")
             (chars "/2024") []).
    unfold dateShaped, numeral. simpl. repeat split; try discriminate; try lia.
    + right. now exists (chars "Thu").
    + right. now exists (chars "2024").
  - apply (normalizeDate_date_text [] [] (chars "12") (chars "12") [] []).
    unfold dateShaped, numeral. simpl. repeat split; try discriminate; try lia; now left.
  - apply (normalizeDate_date_text [] [] (chars "02") (chars "05") [] []).
    unfold dateShaped, numeral. simpl. repeat split; try discriminate; try lia; now left.
Defined.

(** C4, as stated, fails: a tab is white space but does not separate the
    weekday from the date, so the text is not reduced to its last token. *)
Lemma normalizeDate_tab_counterexample :
  ~ (forall ws1 pre month day rest ws2,
        dateShapedAsStated ws1 pre month day rest ws2 ->
        normalizeDate (Some (dateText ws1 pre month day rest ws2))
        = str (stripLeadingZeros month ++ "/"%char :: stripLeadingZeros day)).
Proof.
  intros H.
  specialize (H [] (chars "Thu" ++ [TAB]) (chars "12") (chars "12") [] []).
  assert (normalizeDate (Some (dateText [] (chars "Thu" ++ [TAB]) (chars "12")
                                         (chars "12") [] []))
          = "NaN/12") as E by reflexivity.
  rewrite E in H. discriminate H.
  unfold dateShapedAsStated, numeral. simpl. repeat split; try discriminate; try lia.
  - right. now exists (chars "Thu"), TAB.
  - now left.
Qed.

(** The older service leaves a zero-padded month and day as written. *)
Lemma old_normalizeDate_keeps_zeros :
  SheetsOld.normalizeDate (Some "02/05") = "02/05"
  /\ SheetsOld.normalizeDate (Some "Thu 12/12/2024") = "12/12".
Proof. split; reflexivity. Qed.

End DateKey.

(* ===================================================================== *)
(** * Column letters *)
(* ===================================================================== *)

Module ColumnLetter.
Import JS JSFacts Spec SheetsTs.


Lemma letter_of_residue (r : Z) :
  0 <= r < 26 ->
  letterNumber (fromCharCode (65 + r)) = r + 1
  /\ isUpper (fromCharCode (65 + r)) = true.
Proof.
  intros H. unfold letterNumber, isUpper, fromCharCode, code.
  rewrite nat_ascii_embedding by lia.
  rewrite Z2Nat.id by lia. split; [lia|].
  apply andb_true_intro. split; apply Z.leb_le; lia.
Qed.

(** The loop prepends letters: the number read off the result is the number
    of the letters already there, counted from [col + 1]. *)
Lemma loop_number (col : Z) (letter : string) :
  -1 <= col ->
  fold_left step26 (chars (getColumnLetterLoop col letter)) 0
  = fold_left step26 (chars letter) (col + 1)
  /\ (forallb isUpper (chars letter) = true ->
      forallb isUpper (chars (getColumnLetterLoop col letter)) = true).
Proof.
  funelim (getColumnLetterLoop col letter); intros Hcol.
  - assert (0 <= col / 26) by (apply Z.div_pos; lia).
    pose proof (Z.mod_pos_bound col 26 ltac:(lia)) as Hr.
    destruct (letter_of_residue (col mod 26) Hr) as [Hn Hu].
    match goal with
    | IH : -1 <= _ -> _ |- _ => destruct IH as [IH1 IH2]; [lia|]
    end.
    split.
    + rewrite IH1. cbn [list_ascii_of_string fold_left]. unfold step26 at 2.
      rewrite Hn. f_equal. pose proof (Z.div_mod col 26 ltac:(lia)). lia.
    + intros Hl. apply IH2. cbn [list_ascii_of_string forallb]. now rewrite Hu.
  - assert (col = -1) as -> by lia. split; [reflexivity | tauto].
Qed.

(** C9.  getColumnLetter maps every zero-based column index to its
    spreadsheet-style letters, the bijective base-26 numeral of the index
    plus one in the letters A to Z: 0 is A, 25 is Z, 26 is AA, 63 is BL and
    64 is BM. *)
Theorem getColumnLetter_base26 (col : nat) :
  sheetColumnNumber (getColumnLetter (Z.of_nat col)) = Z.of_nat col + 1
  /\ forallb isUpper (chars (getColumnLetter (Z.of_nat col))) = true
  /\ getColumnLetter 0 = "A" /\ getColumnLetter 25 = "Z"
  /\ getColumnLetter 26 = "AA" /\ getColumnLetter 63 = "BL"
  /\ getColumnLetter 64 = "BM".
Proof.
  destruct (loop_number (Z.of_nat col) EmptyString ltac:(lia)) as [H1 H2].
  split; [exact H1|]. split; [now apply H2|].
  repeat split; reflexivity.
Qed.

(** [updateCell] of the older service takes one character whatever the
    column, so it leaves the alphabet from column 26 on. *)
Lemma old_colLetter_differs :
  SheetsOld.colLetter 25 = "Z" /\ SheetsOld.colLetter 26 = "["
  /\ getColumnLetter 26 = "AA"
  /\ SheetsOld.colLetter 63 <> getColumnLetter 63.
Proof. repeat split; try reflexivity. discriminate. Qed.

End ColumnLetter.

(* ===================================================================== *)
(** * Decoding rows (services/googleSheets.ts) *)
(* ===================================================================== *)

Module Decode.
Import JS JSFacts Spec Samples Gateway.













(** The JavaScript service decides otherwise: it reads as many triplets as
    the set-count cell says and keeps one when any of its cells is there. *)
Lemma js_pushExercise_differs :
  SheetsJs.pushExercise [] sample_row
  = [Exercise.mk " Squat "
       [WSet.mk (Int 8) (Frac 1355 1) (Int 2);
        WSet.mk (Int 0) (Int 100) (Int 1);
        WSet.mk (Int 0) (Int 90) (Int 0)]
       (Some EmptyString)].
Proof. reflexivity. Qed.

Lemma rowMatches_rowFor (col : nat) (key : string) (row : Row) :
  rowMatches col key row = true <-> rowFor col key row.
Proof.
  unfold rowMatches, rowFor. destruct (row !! col) as [[|c cell]|].
  - change (truthy (Some EmptyString)) with false. cbn [negb].
    split; [discriminate | intros (x & [= <-] & H & _); congruence].
  - change (truthy (Some (String c cell))) with true. cbn [negb].
    rewrite bool_decide_eq_true. split.
    + intros H. exists (String c cell). now repeat split.
    + now intros (x & [= <-] & _ & H).
  - change (truthy None) with false. cbn [negb].
    split; [discriminate | now intros (x & H & _)].
Qed.

Lemma find_none_intro {A} (f : A -> bool) (l : list A) :
  (forall x, x ∈ l -> f x = false) -> List.find f l = None.
Proof.
  induction l as [|x l IH]; intros H; [reflexivity|]. simpl.
  rewrite (H x) by apply list_elem_of_here. apply IH. intros y Hy.
  apply H. now apply list_elem_of_further.
Qed.

Lemma fetchSheetData_ok (token : option string)
    (respond : Remote.Request -> Remote.Response) (range : string)
    (values : option (list Row)) (sent : list Remote.Request) :
  truthy token = true -> respond (Remote.Get range) = Remote.Ok200 values ->
  fetchSheetData token respond range sent
  = (Remote.Ok values, sent ++ [Remote.Get range]).
Proof.
  intros Htok Hr. unfold fetchSheetData, getAuthToken, Remote.bind, Remote.fetch.
  rewrite Htok. unfold Remote.ret. now rewrite Hr.
Qed.

(** C10.  When both sheets are read successfully and no row of the cardio
    log is a row for the query key, the read succeeds and its cardio session
    holds the empty string in every string field (modality, workRest, notes)
    and 0 in every numeric field (minutes, seconds, rpe, watts). *)
Theorem getWorkoutData_no_cardio_row
    (newDate : string -> Date) (token : option string)
    (respond : Remote.Request -> Remote.Response)
    (date : string) (workoutValues cardioValues : option (list Row))
    (sent : list Remote.Request) :
  truthy token = true ->
  respond (Remote.Get "'workout log'!A:AL") = Remote.Ok200 workoutValues ->
  respond (Remote.Get "'cardio log'!A:BM") = Remote.Ok200 cardioValues ->
  (forall row, row ∈ rowsOf cardioValues ->
               ~ rowFor 5 (SheetsTs.parseDate (newDate date)) row) ->
  exists exercises,
    getWorkoutData newDate token respond date sent
    = (Remote.Ok (WorkoutData.mk date exercises
                    (Cardio.mk EmptyString (Int 0) (Int 0) (Int 0)
                               EmptyString (Int 0) EmptyString)),
       sent ++ [Remote.Get "'workout log'!A:AL"; Remote.Get "'cardio log'!A:BM"]).
Proof.
  intros Htok Hw Hc Hnone. eexists.
  unfold getWorkoutData, Remote.bind.
  rewrite (fetchSheetData_ok _ _ _ workoutValues) by assumption.
  rewrite (fetchSheetData_ok _ _ _ cardioValues) by assumption.
  rewrite find_none_intro.
  - cbn [decodeCardio]. unfold Cardio.empty, Remote.ret.
    rewrite <- app_assoc. reflexivity.
  - intros row Hrow. specialize (Hnone row Hrow).
    destruct (rowMatches 5 _ row) eqn:E; [|reflexivity].
    now apply rowMatches_rowFor in E.
Qed.


(** A day with a session-log row and no cardio row. *)
Lemma getWorkoutData_no_cardio_row_witness :
  exists exercises,
    getWorkoutData (fun _ => LocalDate 11 12) (Some "token") sample_respond
                   "2024-12-12" []
    = (Remote.Ok (WorkoutData.mk "2024-12-12" exercises
                    (Cardio.mk EmptyString (Int 0) (Int 0) (Int 0)
                               EmptyString (Int 0) EmptyString)),
       [Remote.Get "'workout log'!A:AL"; Remote.Get "'cardio log'!A:BM"]).
Proof.
  apply (getWorkoutData_no_cardio_row (fun _ => LocalDate 11 12) (Some "token")
           sample_respond "2024-12-12" (Some [sample_row])
           (Some [[EmptyString; EmptyString; EmptyString; EmptyString;
                   EmptyString; "Fri 12/13"; EmptyString; EmptyString; "Bike"]])
           []).
  - reflexivity.
  - reflexivity.
  - reflexivity.
  - intros row Hrow (cell & Hcell & _ & Hkey).
    apply list_elem_of_singleton in Hrow. subst row.
    injection Hcell as <-. vm_compute in Hkey. discriminate Hkey.
Defined.

End Decode.

(* ===================================================================== *)
(** * Row discovery and the update path (services/googleSheets.ts) *)
(* ===================================================================== *)

Module Update.
Import JS JSFacts Spec Samples Gateway.







Lemma dateRowsGet_plain (dateRows : gmap string nat) (k : string) :
  ~ builtinKey k ->
  dateRowsGet dateRows k = RowNumber <$> (dateRows !! k).
Proof.
  intros Hk. unfold dateRowsGet. destruct (dateRows !! k); [reflexivity|].
  unfold builtinKey in Hk. repeat case_bool_decide; tauto.
Qed.







(** The older service compares the cells as they are: a row dated with a
    weekday is not found for the key. *)
Lemma old_findExerciseRow_exact :
  SheetsOld.findExerciseRow [[]; sample_row] "12/12"
    (Exercise.mk "Squat" [sample_set] None) = None
  /\ dateRowsGet (dateRowsOf "12/12" [[]; sample_row]) (toLowerCase "Squat")
     = Some (RowNumber 2).
Proof. split; reflexivity. Qed.

End Update.

(* ===================================================================== *)
(** * Round trip through the row helpers (types/workout.ts) *)
(* ===================================================================== *)

Module RoundTrip.
Import JS JSFacts Spec Samples Codec.

Lemma exerciseRow_cells (set : WSet.t) :
  exerciseRow set
  = replicate 13 EmptyString
    ++ [toString (WSet.reps set); toString (WSet.weight set);
        toString (WSet.rir set)]
    ++ replicate 22 EmptyString.
Proof. reflexivity. Qed.

Lemma toString_Int_truthy (z : Z) :
  Z.abs z < 10 ^ 21 -> truthyStr (toString (Int z)) = true.
Proof.
  intros Hz. unfold truthyStr, toString. rewrite chars_str, toStringL_Int by exact Hz.
  destruct (z <? 0); simpl; [reflexivity|].
  pose proof (digitsOf_nonempty (Z.abs z) ltac:(lia)).
  now destruct (digitsOf (Z.abs z)).
Qed.

Lemma integer_round_trip (x : number) :
  exactInteger x ->
  truthyStr (toString x) = true /\ orZero (parseInt (Some (toString x))) = x.
Proof.
  intros (z & -> & Hz). assert (Z.abs z < 10 ^ 21) as Hz' by lia. split.
  - now apply toString_Int_truthy.
  - rewrite parseInt_toString_Int by exact Hz'. unfold orZero, truthyNum.
    destruct (z =? 0) eqn:E; [|reflexivity]. apply Z.eqb_eq in E. now subst z.
Qed.

Lemma decimal_round_trip (x : number) :
  exact x -> orZero (parseFloat (Some (toString x))) = x.
Proof.
  destruct x as [| |z|m s]; cbn [exact]; try tauto.
  - intros Hz. rewrite parseFloat_toString_Int by lia. unfold orZero, truthyNum.
    destruct (z =? 0) eqn:E; [|reflexivity]. apply Z.eqb_eq in E. now subst z.
  - intros (Hm & Hmod & Hs). now rewrite parseFloat_toString_Frac by (lia || tauto).
Qed.

(** A set row decodes to null as built, and to its one set under a name. *)
Lemma exerciseRow_decodes (set : WSet.t) (name : string) :
  exactSet set -> name <> EmptyString ->
  parseWorkoutRow (exerciseRow set) = None
  /\ parseWorkoutRow (named name (exerciseRow set))
     = Some (Exercise.mk name [set] (Some EmptyString)).
Proof.
  intros (Hreps & Hweight & Hrir) Hname. rewrite exerciseRow_cells. split.
  - reflexivity.
  - destruct set as [reps weight rir]. cbn [WSet.reps WSet.weight WSet.rir] in *.
    destruct (integer_round_trip reps Hreps) as [Ht Hr].
    destruct (integer_round_trip rir Hrir) as [_ Hi].
    pose proof (decimal_round_trip weight Hweight) as Hw.
    unfold parseWorkoutRow, named.
    change ((<[8%nat:=name]>
               (replicate 13 EmptyString
                ++ [toString reps; toString weight; toString rir]
                ++ replicate 22 EmptyString)) !! 8%nat) with (Some name).
    assert (truthy (Some name) = true) as -> by (now destruct name).
    cbn [negb orEmpty]. f_equal. f_equal.
    unfold setColumns. cbn [fold_left]. unfold pushSet at 3.
    change ((<[8%nat:=name]>
               (replicate 13 EmptyString
                ++ [toString reps; toString weight; toString rir]
                ++ replicate 22 EmptyString)) !! 13%nat)
      with (Some (toString reps)).
    change ((<[8%nat:=name]>
               (replicate 13 EmptyString
                ++ [toString reps; toString weight; toString rir]
                ++ replicate 22 EmptyString)) !! 14%nat)
      with (Some (toString weight)).
    change ((<[8%nat:=name]>
               (replicate 13 EmptyString
                ++ [toString reps; toString weight; toString rir]
                ++ replicate 22 EmptyString)) !! 15%nat)
      with (Some (toString rir)).
    cbn [truthy]. rewrite Ht, Hr, Hw, Hi. reflexivity.
Qed.

(** C8, as amended.  For every list of sets held exactly, the rows that
    formatSheetData builds for them have an empty exercise-name cell, so
    parseWorkoutRow decodes each of them to null; once a name is filled into
    the name cell of each row, decoding the rows gives back the original
    list: reps, weight and rir of every set, in order. *)
Theorem format_then_parse (sets : list WSet.t) (cardio : Cardio.t) (name : string) :
  Forall exactSet sets -> name <> EmptyString ->
  Forall (fun row => parseWorkoutRow row = None) (setRows sets cardio)
  /\ decodedSets (map (named name) (setRows sets cardio)) = sets.
Proof.
  intros Hsets Hname. unfold setRows, formatSheetData.
  rewrite take_app_length' by now rewrite length_map.
  split.
  - apply Forall_forall. intros row Hrow.
    apply list_elem_of_fmap in Hrow as (set & -> & Hset).
    rewrite Forall_forall in Hsets.
    now destruct (exerciseRow_decodes set name (Hsets set Hset) Hname).
  - unfold decodedSets. induction Hsets as [|set sets Hset Hsets IH]; [reflexivity|].
    cbn [map flat_map]. rewrite IH. unfold setsOfRow at 1.
    destruct (exerciseRow_decodes set name Hset Hname) as [_ ->]. reflexivity.
Qed.


(** One set of 8 reps at 135.5 with 2 in reserve. *)
Lemma format_then_parse_witness :
  Forall (fun row => parseWorkoutRow row = None) (setRows [sample_set] Cardio.empty)
  /\ decodedSets (map (named "Squat") (setRows [sample_set] Cardio.empty))
     = [sample_set].
Proof.
  apply (format_then_parse [sample_set] Cardio.empty "Squat").
  - constructor; [|constructor]. unfold exactSet, exactInteger, sample_set. simpl.
    repeat split; try lia; try (eexists; split; [reflexivity | simpl; lia]).
    discriminate.
  - discriminate.
Defined.

(** C8, as stated, fails: decoding what was encoded gives no set at all. *)
Lemma format_then_parse_counterexample :
  ~ (forall sets cardio, decodedSets (formatSheetData sets cardio) = sets).
Proof.
  intros H. specialize (H [sample_set] Cardio.empty).
  vm_compute in H. discriminate H.
Qed.

End RoundTrip.

(* ===================================================================== *)
(** * Writes and offline reads of the JavaScript service *)
(* ===================================================================== *)

Module JsService.
Import JS JSFacts Spec Samples Remote SheetsJs.



Lemma syncQueue_add_spec (change : Change) (st : State) :
  syncQueue_add change st
  = (Ok tt, mkState (<["syncQueue" := Queue (queueOf st ++ [change])]> (storage st))
                    (sent st)).
Proof. reflexivity. Qed.

(** The session-log half: a response that is not ok throws, and the catch
    puts the change on the queue. *)
Lemma workout_failure_is_enqueued
    (newDate : string -> Date) (respond : Request -> Response)
    (date : string) (workoutData : Workout.t) (st : State) (statusText : string) :
  Workout.exercises workoutData <> [] ->
  respond (Append workoutLogAppend
             (map (workoutRow (formatDate newDate date))
                  (Workout.exercises workoutData)))
  = NotOk statusText ->
  let '(r, st') := updateWorkoutData true newDate respond date workoutData st in
  r = Throw "Failed to update workout data"
  /\ queueOf st' = queueOf st ++ [mkChange date workoutData].
Proof.
  intros Hne Hr. unfold updateWorkoutData. cbn [negb].
  unfold catch, bind at 1 2.
  destruct (Workout.exercises workoutData) as [|e es] eqn:E; [congruence|].
  cbn [length Nat.ltb Nat.leb]. unfold bind at 1, fetch. rewrite Hr.
  unfold throw, bind. rewrite syncQueue_add_spec. cbn [fst snd].
  split; [reflexivity|]. unfold queueOf. cbn [storage].
  now rewrite lookup_insert_eq.
Qed.

(** The copy of the service in components/GoogleAuth.jsx throws on the
    failed cardio append, and its catch puts the change on the queue. *)
Lemma sibling_cardio_failure_is_enqueued
    (newDate : string -> Date) (respond : Request -> Response) (token : string)
    (date : string) (workoutData : Workout.t) (cardio : Cardio.t)
    (st : State) (statusText : string) :
  Workout.cardio workoutData = Some cardio ->
  someTruthy cardio = true ->
  (forall q, q ∈ workoutRequests (formatDate newDate date) workoutData ->
             exists values, respond q = Ok200 values) ->
  respond (Append cardioLogAppend [cardioRow (formatDate newDate date) cardio])
  = NotOk statusText ->
  let '(r, st') :=
    SheetsJsAuth.updateWorkoutData true newDate respond (Ok token) date
                                   workoutData st in
  r = Throw "Failed to update cardio data"
  /\ queueOf st' = queueOf st ++ [mkChange date workoutData].
Proof.
  intros Hc Ht Hw Hr. unfold SheetsJsAuth.updateWorkoutData, workoutRequests in *.
  cbn [negb]. rewrite Hc, Ht.
  unfold catch, bind, fetch, ret, throw, SheetsJsAuth.getAuthToken.
  destruct (Workout.exercises workoutData) as [|e es].
  - cbn [length Nat.ltb Nat.leb storage sent]. rewrite Hr.
    rewrite syncQueue_add_spec. split; [reflexivity|].
    unfold queueOf. cbn [storage]. now rewrite lookup_insert_eq.
  - cbn [length Nat.ltb Nat.leb].
    destruct (Hw _ (list_elem_of_here _ _)) as (values & ->).
    cbn [storage sent]. rewrite Hr. rewrite syncQueue_add_spec.
    split; [reflexivity|]. unfold queueOf. cbn [storage].
    now rewrite lookup_insert_eq.
Qed.

(** C7: the code at the failing input.  Online, with the session-log part
    written (or absent) and the cardio append answered by a response that is
    not ok, updateWorkoutData resolves as a success and leaves the queue as
    it was: the cardio part reached the remote store in no way and was not
    enqueued. *)
Theorem cardio_failure_is_dropped
    (newDate : string -> Date) (respond : Request -> Response)
    (date : string) (workoutData : Workout.t) (cardio : Cardio.t)
    (st : State) (statusText : string) :
  Workout.cardio workoutData = Some cardio ->
  someTruthy cardio = true ->
  (forall q, q ∈ workoutRequests (formatDate newDate date) workoutData ->
             exists values, respond q = Ok200 values) ->
  respond (Append cardioLogAppend [cardioRow (formatDate newDate date) cardio])
  = NotOk statusText ->
  updateWorkoutData true newDate respond date workoutData st
  = (Ok Success,
     mkState (storage st)
             (sent st ++ workoutRequests (formatDate newDate date) workoutData
                      ++ [Append cardioLogAppend
                            [cardioRow (formatDate newDate date) cardio]])).
Proof.
  intros Hc Ht Hw Hr. unfold updateWorkoutData, workoutRequests in *. cbn [negb].
  rewrite Hc, Ht. unfold catch, bind, fetch, ret.
  destruct (Workout.exercises workoutData) as [|e es].
  - cbn [length Nat.ltb Nat.leb storage sent]. rewrite Hr. now destruct st.
  - cbn [length Nat.ltb Nat.leb].
    destruct (Hw _ (list_elem_of_here _ _)) as (values & ->).
    cbn [storage sent]. rewrite Hr. cbn [storage sent].
    now rewrite <- app_assoc.
Qed.



(** A record with one exercise and a cardio session, the cardio append
    answered with status 500. *)
Lemma cardio_failure_is_dropped_witness :
  let workoutData :=
    Workout.mk [Exercise.mk "Squat" [sample_set] None] (Some bike) in
  let '(r, st') :=
    updateWorkoutData true (fun _ => LocalDate 11 12) failing_respond
                      "2024-12-12" workoutData (mkState ∅ []) in
  r = Ok Success /\ storage st' = ∅ /\ length (sent st') = 2%nat.
Proof.
  intros workoutData.
  rewrite (cardio_failure_is_dropped (fun _ => LocalDate 11 12) failing_respond
             "2024-12-12" workoutData bike (mkState ∅ []) "Internal Server Error").
  - repeat split.
  - reflexivity.
  - reflexivity.
  - intros q Hq. apply list_elem_of_singleton in Hq. subst q. now exists None.
  - reflexivity.
Defined.

(** Offline, a read answers from the cache without a request, and fails
    when the cache has no entry. *)
Lemma offline_read (newDate : string -> Date) (respond : Request -> Response)
    (date : string) (st : State) :
  getWorkoutData false newDate respond date st
  = match storage st !! cacheKey date with
    | Some (Cached data) => (Ok data, st)
    | _ => (Throw "Offline and no cached data available", st)
    end.
Proof.
  unfold getWorkoutData, getCachedData, getItem, bind, ret, throw. cbn [negb].
  destruct (storage st !! cacheKey date) as [[data|q]|]; reflexivity.
Qed.

(** Offline, a write is put on the queue and nothing is sent. *)
Lemma offline_write (newDate : string -> Date) (respond : Request -> Response)
    (date : string) (workoutData : Workout.t) (st : State) :
  let '(r, st') := updateWorkoutData false newDate respond date workoutData st in
  r = Ok Offline /\ sent st' = sent st
  /\ queueOf st' = queueOf st ++ [mkChange date workoutData]
  /\ storage st' !! cacheKey date = storage st !! cacheKey date.
Proof.
  unfold updateWorkoutData. cbn [negb]. unfold bind. rewrite syncQueue_add_spec.
  unfold ret. repeat split.
  - unfold queueOf. cbn [storage]. now rewrite lookup_insert_eq.
  - cbn [storage]. now rewrite lookup_insert_ne by discriminate.
Qed.

End JsService.

(* ===================================================================== *)
(** * The coordinator: queue drain, offline write, offline read *)
(* ===================================================================== *)

Module Coordinator.
Import JS JSFacts Spec Samples Tracker.
Import Remote (result, Ok, Throw).

(** Evaluates the state updates by value, innermost first. *)
Ltac eval_state :=
  cbv beta iota zeta delta
    [handleSave loadWorkoutData syncPendingChanges callGet callSave
     setLoading setError setWorkout setDataSource setPendingChanges setIsSaving
     setStorage setItem removeItem moved
     isOnline date loading error workout dataSource pendingChanges isSaving
     localStorage world calls negb andb orb fst snd].

Ltac eval_state_in H :=
  cbv beta iota zeta delta
    [handleSave loadWorkoutData syncPendingChanges callGet callSave
     setLoading setError setWorkout setDataSource setPendingChanges setIsSaving
     setStorage setItem removeItem moved
     isOnline date loading error workout dataSource pendingChanges isSaving
     localStorage world calls negb andb orb fst snd] in H.

Section Facts.
Context {W World : Type}.
Variable getWorkoutData : string -> World -> result W * World.
Variable saveWorkoutData : SaveArg W -> World -> result unit * World.


(** The loop applies the changes in order and stops at the first failure. *)
Lemma saveAll_spec (changes : list (Change W)) (st : State W World) :
  match saveAll saveWorkoutData changes st with
  | (Ok _, st') =>
      exists w', applied saveWorkoutData (world st) changes w'
                 /\ st' = moved st w' (calls st ++ saveCalls changes)
  | (Throw e, st') =>
      exists done failed rest w1 w2,
        changes = done ++ failed :: rest
        /\ applied saveWorkoutData (world st) done w1
        /\ saveWorkoutData (SaveChange failed) w1 = (Throw e, w2)
        /\ st' = moved st w2 (calls st ++ saveCalls (done ++ [failed]))
  end.
Proof.
  revert st. induction changes as [|change rest IH]; intros st.
  - cbn [saveAll]. exists (world st). split; [constructor|].
    unfold moved, saveCalls. cbn [map]. rewrite app_nil_r. now destruct st.
  - cbn [saveAll]. unfold callSave.
    destruct (saveWorkoutData (SaveChange change) (world st)) as [[[]|e] w1] eqn:E.
    + match goal with
      | |- match saveAll _ _ ?s with _ => _ end => specialize (IH s)
      end.
      destruct (saveAll saveWorkoutData rest _) as [[[]|e] st'].
      * destruct IH as (w' & Ha & ->). cbn [world] in Ha. exists w'. split.
        -- econstructor; eassumption.
        -- unfold moved, saveCalls. cbn. now rewrite <- app_assoc.
      * destruct IH as (done & failed & rest' & w2 & w3 & -> & Ha & Hf & ->).
        cbn [world] in Ha.
        exists (change :: done), failed, rest', w2, w3. repeat split.
        -- econstructor; eassumption.
        -- exact Hf.
        -- unfold moved, saveCalls. cbn. now rewrite <- app_assoc.
    + exists [], change, rest, (world st), w1. repeat split.
      * constructor.
      * exact E.
Qed.

Lemma cacheKey_not_queue (d : string) : cacheKey d <> "pendingChanges".
Proof. discriminate. Qed.

(** What [loadWorkoutData] never touches. *)
Lemma loadWorkoutData_keeps (st : State W World) :
  let st' := loadWorkoutData getWorkoutData st in
  pendingChanges st' = pendingChanges st
  /\ localStorage st' !! "pendingChanges" = localStorage st !! "pendingChanges"
  /\ isOnline st' = isOnline st /\ date st' = date st
  /\ exists more, calls st' = calls st ++ more.
Proof.
  destruct st as [on d ld er wk ds pc sv ls w cs]. destruct on.
  - eval_state. destruct (getWorkoutData d w) as [[data|e] w']; eval_state.
    + repeat split.
      * now rewrite lookup_insert_ne by apply cacheKey_not_queue.
      * now eexists.
    + repeat split. now eexists.
  - eval_state. destruct (ls !! cacheKey d) as [[wk'|q]|];
      cbv beta iota delta [bool_decide decide_rel is_Some_dec]; eval_state;
      repeat split; exists []; now rewrite app_nil_r.
Qed.

End Facts.

(** C1, as amended.  Online, with a queue that is not empty, the drain
    applies the pending changes strictly in FIFO order and stops at the
    first failure.  It removes entries only all at once: when every apply
    succeeded, the queue is emptied, in memory and in local storage; when an
    apply fails, the whole queue -- the entries already applied, the failed
    one and those after it -- is kept as it was for the next attempt. *)
Theorem drain_all_or_nothing {W World : Type}
    (getWorkoutData : string -> World -> result W * World)
    (saveWorkoutData : SaveArg W -> World -> result unit * World)
    (st : State W World) :
  isOnline st = true -> pendingChanges st <> [] ->
  let st' := syncPendingChanges getWorkoutData saveWorkoutData st in
  (exists w' more,
      applied saveWorkoutData (world st) (pendingChanges st) w'
      /\ calls st' = calls st ++ saveCalls (pendingChanges st) ++ more
      /\ pendingChanges st' = []
      /\ localStorage st' !! "pendingChanges" = None)
  \/ (exists done failed rest w1 w2 e,
         pendingChanges st = done ++ failed :: rest
         /\ applied saveWorkoutData (world st) done w1
         /\ saveWorkoutData (SaveChange failed) w1 = (Throw e, w2)
         /\ calls st' = calls st ++ saveCalls (done ++ [failed])
         /\ pendingChanges st' = pendingChanges st
         /\ localStorage st' = localStorage st).
Proof.
  intros Hon Hne st'. subst st'. unfold syncPendingChanges. rewrite Hon.
  cbn [negb orb].
  destruct (pendingChanges st) as [|c cs] eqn:Hq; [congruence|].
  cbn [length Nat.eqb]. rewrite <- Hq. clear Hne.
  pose proof (saveAll_spec saveWorkoutData (pendingChanges st) (setIsSaving true st))
    as Hs.
  cbn [pendingChanges setIsSaving].
  destruct (saveAll saveWorkoutData (pendingChanges st) (setIsSaving true st))
    as [[[]|e] st1].
  - left. destruct Hs as (w' & Ha & ->). cbn [world setIsSaving] in Ha.
    remember (removeItem "pendingChanges"
                (setPendingChanges []
                   (moved (setIsSaving true st) w'
                      (calls (setIsSaving true st) ++ saveCalls (pendingChanges st)))))
      as s1 eqn:Hs1.
    destruct (loadWorkoutData_keeps getWorkoutData s1)
      as (Hp & Hl & _ & _ & more & Hc).
    exists w', more. split; [exact Ha|].
    destruct (loadWorkoutData getWorkoutData s1)
      as [on2 d2 ld2 er2 wk2 ds2 pc2 sv2 ls2 w2 cs2].
    eval_state_in Hp. eval_state_in Hl. eval_state_in Hc. eval_state.
    rewrite Hc, Hp, Hl. subst s1. destruct st. eval_state.
    rewrite lookup_delete_eq, <- app_assoc. repeat split.
  - right. destruct Hs as (done & failed & rest & w1 & w2 & Hd & Ha & Hf & ->).
    cbn [world setIsSaving] in Ha.
    exists done, failed, rest, w1, w2, e. repeat split; assumption.
Qed.





(** Two queued changes, the second of which fails: both stay queued. *)
Lemma drain_all_or_nothing_witness :
  let st' := syncPendingChanges get_fails save_fails_on_t2 two_queued in
  pendingChanges st' = [change1; change2]
  /\ localStorage st' = localStorage two_queued
  /\ calls st' = [CallSave (SaveChange change1); CallSave (SaveChange change2)].
Proof.
  intros st'.
  pose proof (drain_all_or_nothing get_fails save_fails_on_t2 two_queued
                eq_refl ltac:(discriminate)) as H.
  cbv zeta in H. fold st' in H.
  destruct H as [(w' & more & Ha & _)
                | (done & failed & rest & w1 & w2 & e & _ & _ & _ & Hc & Hp & Hl)].
  - exfalso. inversion Ha as [|? ? ? ? ? _ Ha2]; subst.
    inversion Ha2 as [|? ? ? ? ? Hs _]; subst. discriminate Hs.
  - split; [exact Hp | split; [exact Hl | reflexivity]].
Defined.

(** C1, as stated in its particular case, fails: after a drain of two
    changes where the first apply succeeds and the second fails, the queue
    does not hold exactly the second change. *)
Lemma drain_two_counterexample :
  ~ (forall (W World : Type)
            (getWorkoutData : string -> World -> result W * World)
            (saveWorkoutData : SaveArg W -> World -> result unit * World)
            (st : State W World) (c1 c2 : Change W) (w1 w2 : World) (e : string),
        isOnline st = true -> pendingChanges st = [c1; c2] ->
        saveWorkoutData (SaveChange c1) (world st) = (Ok tt, w1) ->
        saveWorkoutData (SaveChange c2) w1 = (Throw e, w2) ->
        pendingChanges (syncPendingChanges getWorkoutData saveWorkoutData st)
        = [c2]).
Proof.
  intros H.
  specialize (H unit unit get_fails save_fails_on_t2 two_queued change1 change2
                tt tt "Failed to update workout data"
                eq_refl eq_refl eq_refl eq_refl).
  vm_compute in H. discriminate H.
Qed.




(** Offline with a cache entry, a read shows the entry and calls nothing. *)
Lemma offline_hit_reads_cache {W World : Type}
    (getWorkoutData : string -> World -> result W * World)
    (st : State W World) (cached : option W) :
  isOnline st = false ->
  localStorage st !! cacheKey (date st) = Some (StoredWorkout cached) ->
  let st' := loadWorkoutData getWorkoutData st in
  workout st' = cached /\ calls st' = calls st /\ world st' = world st
  /\ dataSource st' = "cache" /\ error st' = None.
Proof.
  intros Hoff Hc. destruct st as [on d ld er wk ds pc sv ls w cs].
  cbn [isOnline date localStorage] in *. subst on. eval_state. rewrite Hc.
  cbv beta iota delta [bool_decide decide_rel is_Some_dec]. eval_state.
  repeat split.
Qed.

(** C3: the code at the failing input.  Offline with no cache entry for the
    selected date, loadWorkoutData takes neither branch: it calls nothing,
    sets no error and leaves the workout shown as it was -- the miss is
    silent. *)
Theorem offline_miss_is_silent {W World : Type}
    (getWorkoutData : string -> World -> result W * World)
    (st : State W World) :
  isOnline st = false ->
  localStorage st !! cacheKey (date st) = None ->
  let st' := loadWorkoutData getWorkoutData st in
  error st' = None /\ workout st' = workout st
  /\ dataSource st' = dataSource st /\ loading st' = false
  /\ calls st' = calls st /\ world st' = world st.
Proof.
  intros Hoff Hc. destruct st as [on d ld er wk ds pc sv ls w cs].
  cbn [isOnline date localStorage] in *. subst on. eval_state. rewrite Hc.
  cbv beta iota delta [bool_decide decide_rel is_Some_dec]. eval_state.
  repeat split.
Qed.

(** Offline, nothing cached, a stale workout on screen. *)
Lemma offline_miss_is_silent_witness :
  let st :=
    mkState false "2024-03-14" false None (Some tt) "online" [] false
            (∅ : gmap string (Stored unit)) tt [] in
  let st' := loadWorkoutData get_fails st in
  error st' = None /\ workout st' = Some tt /\ calls st' = [].
Proof.
  intros st st'.
  pose proof (offline_miss_is_silent get_fails st eq_refl eq_refl) as H.
  cbv zeta in H. fold st' in H.
  destruct H as (He & Hw & _ & _ & Hc & _).
  split; [exact He | split; [exact Hw | exact Hc]].
Defined.

End Coordinator.

(* ===================================================================== *)
(** * services/googleSheets.ts: tokens, reads, and updates that find no row *)
(* ===================================================================== *)

Module ReadUpdate.
Import JS JSFacts Spec Terms Samples Remote Gateway SheetsTs.

(** X1.  getColumnLetter is injective on column indexes: two columns get
    the same letters only when they are the same column. *)
Theorem getColumnLetter_injective (a b : nat) :
  getColumnLetter (Z.of_nat a) = getColumnLetter (Z.of_nat b) <-> a = b.
Proof.
  split; [|now intros ->]. intros H.
  destruct (ColumnLetter.loop_number (Z.of_nat a) EmptyString ltac:(lia)) as [Ha _].
  destruct (ColumnLetter.loop_number (Z.of_nat b) EmptyString ltac:(lia)) as [Hb _].
  fold (getColumnLetter (Z.of_nat a)) in Ha.
  fold (getColumnLetter (Z.of_nat b)) in Hb.
  rewrite H, Hb in Ha. cbn in Ha. lia.
Qed.

(** X2.  Without a token in local storage -- none, or the empty string --
    fetchSheetData, getWorkoutData and updateWorkoutData throw 'No
    authentication token available' before anything is sent, and a
    batchUpdate with updates does the same; a batchUpdate of no update
    resolves without ever asking for the token. *)
Theorem no_token_no_request (newDate : string -> Date) (token : option string)
    (respond : Request -> Response) (range date : string)
    (workoutData : WorkoutData.t) (update : Update) (updates : list Update)
    (sent : list Request) :
  truthy token = false ->
  fetchSheetData token respond range sent
  = (Throw "No authentication token available", sent)
  /\ getWorkoutData newDate token respond date sent
     = (Throw "No authentication token available", sent)
  /\ updateWorkoutData newDate token respond date workoutData sent
     = (Throw "No authentication token available", sent)
  /\ batchUpdate token respond (update :: updates) sent
     = (Throw "No authentication token available", sent)
  /\ batchUpdate token respond [] sent = (Ok tt, sent).
Proof.
  intros Ht.
  assert (forall r, fetchSheetData token respond r sent
                    = (Throw "No authentication token available", sent)) as Hf.
  { intros r. unfold fetchSheetData, getAuthToken, bind. now rewrite Ht. }
  split; [apply Hf|]. split; [|split; [|split]].
  - unfold getWorkoutData, bind at 1. now rewrite Hf.
  - unfold updateWorkoutData, bind at 1. now rewrite Hf.
  - unfold batchUpdate, getAuthToken, bind. cbn [isNil]. now rewrite Ht.
  - reflexivity.
Qed.

(** The empty string is no token. *)
Lemma no_token_no_request_witness :
  getWorkoutData (fun _ => LocalDate 11 12) (Some EmptyString) sample_respond
                 "2024-12-12" []
  = (Throw "No authentication token available", []).
Proof.
  exact (proj1 (proj2 (no_token_no_request (fun _ => LocalDate 11 12)
                         (Some EmptyString) sample_respond EmptyString
                         "2024-12-12"
                         (WorkoutData.mk EmptyString [] Cardio.empty)
                         (mkUpdate EmptyString EmptyString) [] [] eq_refl))).
Defined.


Lemma decodeSets_length (row : Row) : (length (decodeSets row) <= 3)%nat.
Proof.
  unfold decodeSets, setGroups. cbn [fold_left]. unfold pushSet.
  repeat match goal with
         | |- context [if ?b then _ else _] => destruct b
         end; rewrite ?length_app; simpl; lia.
Qed.

Lemma decodeExercises_all (P : Exercise.t -> Prop) (rows : list Row) :
  (forall row, P (Exercise.mk (trim (orEmpty (row !! 8%nat))) (decodeSets row)
                              (Some (orEmpty (row !! 37%nat))))) ->
  forall acc, Forall P acc -> Forall P (fold_left pushExercise rows acc).
Proof.
  intros HP. induction rows as [|row rows IH]; intros acc Hacc; [exact Hacc|].
  cbn [fold_left]. apply IH. unfold pushExercise.
  destruct (negb (truthy (row !! 8%nat))); [exact Hacc|].
  apply Forall_app. split; [exact Hacc|]. constructor; [apply HP | constructor].
Qed.

Lemma decodeExercises_length (rows : list Row) (acc : list Exercise.t) :
  (length (fold_left pushExercise rows acc) <= length acc + length rows)%nat.
Proof.
  revert acc. induction rows as [|row rows IH]; intros acc; [simpl; lia|].
  cbn [fold_left length]. etransitivity; [apply IH|]. unfold pushExercise.
  destruct (negb (truthy (row !! 8%nat))); rewrite ?length_app; simpl; lia.
Qed.

(** X4.  Every exercise getWorkoutData returns has at most three sets and
    carries a notes string, and there are no more exercises than rows in
    the session log: the reader looks at the three triplets from column 14
    on and no further, however many sets an update wrote. *)
Theorem getWorkoutData_exercise_shape (newDate : string -> Date)
    (token : option string) (respond : Request -> Response) (date : string)
    (sent sent' : list Request) (data : WorkoutData.t) :
  getWorkoutData newDate token respond date sent = (Ok data, sent') ->
  Forall (fun e => (length (Exercise.sets e) <= 3)%nat /\ is_Some (Exercise.notes e))
         (WorkoutData.exercises data)
  /\ exists values, respond (Get "'workout log'!A:AL") = Ok200 values
       /\ (length (WorkoutData.exercises data) <= length (rowsOf values))%nat.
Proof.
  unfold getWorkoutData, fetchSheetData, getAuthToken, bind, fetch, ret, throw.
  destruct (truthy token); [|discriminate].
  destruct (respond (Get "'workout log'!A:AL")) as [e1|s1|v1]; try discriminate.
  destruct (respond (Get "'cardio log'!A:BM")) as [e2|s2|v2]; try discriminate.
  intros [= <- _]. cbn [WorkoutData.exercises]. split.
  - apply decodeExercises_all; [|constructor].
    intros row. cbn [Exercise.sets Exercise.notes].
    split; [apply decodeSets_length | now eexists].
  - exists v1. split; [reflexivity|]. unfold decodeExercises.
    etransitivity; [apply decodeExercises_length|]. cbn [length Nat.add].
    apply List.filter_length_le.
Qed.

(** The sample log: one row for the day, with two numeric reps cells. *)
Lemma getWorkoutData_exercise_shape_witness :
  exists data,
    getWorkoutData (fun _ => LocalDate 11 12) (Some "t") sample_respond
                   "2024-12-12" [] = (Ok data, readRequests)
    /\ Forall (fun e => (length (Exercise.sets e) <= 3)%nat
                        /\ is_Some (Exercise.notes e))
              (WorkoutData.exercises data).
Proof.
  eexists. split; [vm_compute; reflexivity|].
  eapply (getWorkoutData_exercise_shape (fun _ => LocalDate 11 12) (Some "t")
            sample_respond "2024-12-12" [] readRequests).
  vm_compute. reflexivity.
Defined.

Lemma batchUpdate_ok (token : option string) (respond : Request -> Response)
    (updates : list Update) (sent : list Request) :
  truthy token = true ->
  batchUpdate token respond updates sent
  = match updates with
    | [] => (Ok tt, sent)
    | _ =>
        match respond (BatchUpdate updates) with
        | Rejected e => (Throw e, sent ++ [BatchUpdate updates])
        | NotOk message =>
            (Throw ("Batch update failed: " +:+ message),
             sent ++ [BatchUpdate updates])
        | Ok200 _ => (Ok tt, sent ++ [BatchUpdate updates])
        end
    end.
Proof.
  intros Ht. unfold batchUpdate, getAuthToken, bind, fetch, ret, throw.
  destruct updates as [|u us]; [reflexivity|]. cbn [isNil]. rewrite Ht.
  now destruct (respond (BatchUpdate (u :: us))).
Qed.

(** X5.  When the batch of session-log cells is refused, updateWorkoutData
    throws 'Batch update failed: ' followed by the response's message, and
    stops there: the cardio log is neither read nor written. *)
Theorem update_failure_skips_cardio (newDate : string -> Date)
    (token : option string) (respond : Request -> Response) (date : string)
    (workoutData : WorkoutData.t) (sent : list Request)
    (values : option (list Row)) (message : string) :
  truthy token = true ->
  respond (Get "'workout log'!A:AL") = Ok200 values ->
  let updates :=
    workoutUpdatesOf (dateRowsOf (parseDate (newDate date)) (rowsOf values))
                     (WorkoutData.exercises workoutData) in
  updates <> [] ->
  respond (BatchUpdate updates) = NotOk message ->
  updateWorkoutData newDate token respond date workoutData sent
  = (Throw ("Batch update failed: " +:+ message),
     sent ++ [Get "'workout log'!A:AL"; BatchUpdate updates]).
Proof.
  intros Ht Hg updates Hne Hb. unfold updateWorkoutData, bind at 1.
  rewrite (Decode.fetchSheetData_ok token respond _ values sent Ht Hg).
  unfold bind at 1. fold updates. rewrite batchUpdate_ok by exact Ht.
  destruct updates as [|u us] eqn:E; [congruence|]. rewrite Hb.
  now rewrite <- app_assoc.
Qed.

(** The sample log refuses every write. *)
Lemma update_failure_skips_cardio_witness :
  exists updates,
    updateWorkoutData (fun _ => LocalDate 11 12) (Some "t") sample_respond
      "2024-12-12"
      (WorkoutData.mk "2024-12-12" [Exercise.mk "Squat" [sample_set] None] bike) []
    = (Throw "Batch update failed: unexpected",
       [Get "'workout log'!A:AL"; BatchUpdate updates])
    /\ length updates = 3%nat.
Proof.
  eexists. split.
  - apply (update_failure_skips_cardio (fun _ => LocalDate 11 12) (Some "t")
             sample_respond "2024-12-12"
             (WorkoutData.mk "2024-12-12" [Exercise.mk "Squat" [sample_set] None] bike)
             [] (Some [sample_row]) "unexpected").
    + reflexivity.
    + reflexivity.
    + vm_compute. discriminate.
    + reflexivity.
  - vm_compute. reflexivity.
Defined.

Lemma dateRowsFrom_none (key : string) (rows : list Row) (index : nat)
    (acc : gmap string nat) :
  (forall row, row ∈ rows -> normalizeDate (row !! 6%nat) <> key) ->
  dateRowsFrom key index rows acc = acc.
Proof.
  revert index acc. induction rows as [|row rows IH]; intros index acc H;
    [reflexivity|].
  cbn [dateRowsFrom]. cbv zeta. rewrite bool_decide_eq_false_2.
  - apply IH. intros r Hr. apply H. now apply list_elem_of_further.
  - apply H. apply list_elem_of_here.
Qed.

Lemma workoutUpdatesOf_empty (exercises : list Exercise.t) (acc : list Update) :
  Forall (fun e => ~ builtinKey (toLowerCase (Exercise.name e))) exercises ->
  fold_left (pushExerciseUpdates ∅) exercises acc = acc.
Proof.
  revert acc. induction exercises as [|e es IH]; intros acc H; [reflexivity|].
  inversion H as [|? ? He Hes]; subst. cbn [fold_left].
  unfold pushExerciseUpdates at 2. rewrite Update.dateRowsGet_plain by exact He.
  rewrite lookup_empty. cbn [fmap option_fmap option_map truthyRef]. now apply IH.
Qed.

Lemma findIndexFrom_none {A} (p : A -> bool) (index : nat) (l : list A) :
  (forall x, x ∈ l -> p x = false) -> findIndexFrom p index l = None.
Proof.
  revert index. induction l as [|x l IH]; intros index H; [reflexivity|].
  cbn [findIndexFrom]. rewrite (H x) by apply list_elem_of_here.
  apply IH. intros y Hy. apply H. now apply list_elem_of_further.
Qed.

(** X6.  When neither log has a row for the date, updateWorkoutData reads
    both logs, writes nothing and resolves: it only ever updates rows in
    place and never creates one.  (Exercises named like the two keys every
    JavaScript object answers to are set aside.) *)
Theorem update_without_rows_writes_nothing (newDate : string -> Date)
    (token : option string) (respond : Request -> Response) (date : string)
    (workoutData : WorkoutData.t) (sent : list Request)
    (workoutValues cardioValues : option (list Row)) :
  truthy token = true ->
  respond (Get "'workout log'!A:AL") = Ok200 workoutValues ->
  respond (Get "'cardio log'!A:BM") = Ok200 cardioValues ->
  (forall row, row ∈ rowsOf workoutValues ->
               normalizeDate (row !! 6%nat) <> parseDate (newDate date)) ->
  (forall row, row ∈ rowsOf cardioValues ->
               normalizeDate (row !! 5%nat) <> parseDate (newDate date)) ->
  Forall (fun e => ~ builtinKey (toLowerCase (Exercise.name e)))
         (WorkoutData.exercises workoutData) ->
  updateWorkoutData newDate token respond date workoutData sent
  = (Ok tt, sent ++ readRequests).
Proof.
  intros Ht H1 H2 Hw Hc He. unfold updateWorkoutData, bind at 1.
  rewrite (Decode.fetchSheetData_ok token respond _ workoutValues sent Ht H1).
  unfold dateRowsOf. rewrite dateRowsFrom_none by exact Hw.
  unfold workoutUpdatesOf. rewrite workoutUpdatesOf_empty by exact He.
  unfold bind at 1. rewrite batchUpdate_ok by exact Ht.
  unfold bind at 1.
  rewrite (Decode.fetchSheetData_ok token respond _ cardioValues _ Ht H2).
  rewrite findIndexFrom_none.
  - unfold ret, readRequests. now rewrite <- app_assoc.
  - intros row Hr. apply bool_decide_eq_false_2. now apply Hc.
Qed.

(** The sample log has no row for 14 March. *)
Lemma update_without_rows_writes_nothing_witness :
  updateWorkoutData (fun _ => LocalDate 2 14) (Some "t") sample_respond
    "2024-03-14"
    (WorkoutData.mk "2024-03-14" [Exercise.mk "Squat" [sample_set] None] bike) []
  = (Ok tt, readRequests).
Proof.
  apply (update_without_rows_writes_nothing (fun _ => LocalDate 2 14) (Some "t")
           sample_respond "2024-03-14"
           (WorkoutData.mk "2024-03-14" [Exercise.mk "Squat" [sample_set] None] bike)
           [] (Some [sample_row])
           (Some [[EmptyString; EmptyString; EmptyString; EmptyString; EmptyString;
                   "Fri 12/13"; EmptyString; EmptyString; "Bike"]])).
  - reflexivity.
  - reflexivity.
  - reflexivity.
  - intros row Hr. apply list_elem_of_singleton in Hr. subst row.
    vm_compute. discriminate.
  - intros row Hr. apply list_elem_of_singleton in Hr. subst row.
    vm_compute. discriminate.
  - repeat constructor. vm_compute. intros [H|H]; discriminate H.
Defined.

Lemma parseDate_not_empty (d : Date) : parseDate d <> EmptyString.
Proof.
  unfold parseDate. destruct (toString (succ (getMonth d))); discriminate.
Qed.

Lemma cardio_filters_agree (key : string) (row : Row) :
  key <> EmptyString ->
  rowMatches 5 key row = bool_decide (normalizeDate (row !! 5%nat) = key).
Proof.
  intros Hk. unfold rowMatches. destruct (truthy (row !! 5%nat)) eqn:Ht;
    [reflexivity|].
  cbn [negb]. symmetry. apply bool_decide_eq_false_2.
  unfold normalizeDate. rewrite Ht. cbn [negb]. congruence.
Qed.

Lemma findIndexFrom_find {A} (p : A -> bool) (l : list A) (index : nat) :
  match findIndexFrom p index l with
  | Some i =>
      (index <= i)%nat
      /\ (exists x, l !! (i - index)%nat = Some x /\ List.find p l = Some x)
      /\ forall j x, (j < i - index)%nat -> l !! j = Some x -> p x = false
  | None => List.find p l = None
  end.
Proof.
  revert index. induction l as [|x l IH]; intros index; [reflexivity|].
  cbn [findIndexFrom List.find]. destruct (p x) eqn:Hx.
  - rewrite Nat.sub_diag. split; [lia|]. split; [now exists x|]. intros j y Hj. lia.
  - specialize (IH (S index)). destruct (findIndexFrom p (S index) l) as [i|];
      [|exact IH].
    destruct IH as (Hi & Hl & Hfirst). split; [lia|].
    replace (i - index)%nat with (S (i - S index)) by lia. split; [exact Hl|].
    intros [|j] y Hj Hy.
    + now injection Hy as <-.
    + apply (Hfirst j y); [lia | exact Hy].
Qed.

(** X7.  The cardio row updateWorkoutData writes to is the row
    getWorkoutData reads: both take the first row of the cardio log whose
    date cell normalizes to the key, and when the update finds none the
    read finds none either. *)
Theorem cardio_update_row_is_read_row (d : Date) (cardioRows : list Row) :
  let key := parseDate d in
  match findIndexFrom
          (fun row => bool_decide (normalizeDate (row !! 5%nat) = key))
          0 cardioRows with
  | Some cardioRowIndex =>
      cardioRows !! cardioRowIndex = List.find (rowMatches 5 key) cardioRows
      /\ is_Some (cardioRows !! cardioRowIndex)
      /\ forall j row, (j < cardioRowIndex)%nat -> cardioRows !! j = Some row ->
                       normalizeDate (row !! 5%nat) <> key
  | None => List.find (rowMatches 5 key) cardioRows = None
  end.
Proof.
  intros key.
  assert (List.find (rowMatches 5 key) cardioRows
          = List.find (fun row => bool_decide (normalizeDate (row !! 5%nat) = key))
                      cardioRows) as ->.
  { induction cardioRows as [|row rows IH]; [reflexivity|]. cbn [List.find].
    rewrite cardio_filters_agree by apply parseDate_not_empty. now rewrite IH. }
  pose proof (findIndexFrom_find
                (fun row => bool_decide (normalizeDate (row !! 5%nat) = key))
                cardioRows 0) as H.
  destruct (findIndexFrom _ 0 cardioRows) as [i|]; [|exact H].
  rewrite Nat.sub_0_r in H. destruct H as (_ & (x & Hx & Hl) & Hfirst).
  split; [congruence|]. split; [now exists x|].
  intros j row Hj Hrow. pose proof (Hfirst j row Hj Hrow) as Hf.
  now apply bool_decide_eq_false in Hf.
Qed.

End ReadUpdate.

(* ===================================================================== *)
(** * types/workout.ts: the cardio row *)
(* ===================================================================== *)

Module CardioRow.
Import JS JSFacts Spec Terms Samples Codec.

(** X8.  The cardio row formatSheetData builds -- the last row it returns,
    65 cells wide -- is read back by parseCardioRow as the same session,
    whenever the four numeric fields are integers held exactly; a session
    with no modality is read back as null. *)
Theorem cardio_row_round_trip (sets : list WSet.t) (c : Cardio.t) :
  exactInteger (Cardio.minutes c) -> exactInteger (Cardio.seconds c) ->
  exactInteger (Cardio.rpe c) -> exactInteger (Cardio.watts c) ->
  exists row,
    List.last (formatSheetData sets c) [] = row
    /\ length row = 65%nat
    /\ parseCardioRow row
       = if truthyStr (Cardio.modality c) then Some c else None.
Proof.
  intros Hm Hs Hr Hw. exists (cardioRow c). split; [|split].
  - unfold formatSheetData. now rewrite last_last.
  - reflexivity.
  - destruct c as [modality minutes seconds rpe workRest watts notes].
    cbn [Cardio.modality Cardio.minutes Cardio.seconds Cardio.rpe
         Cardio.workRest Cardio.watts Cardio.notes] in *.
    destruct (RoundTrip.integer_round_trip minutes Hm) as [_ Em].
    destruct (RoundTrip.integer_round_trip seconds Hs) as [_ Es].
    destruct (RoundTrip.integer_round_trip rpe Hr) as [_ Er].
    destruct (RoundTrip.integer_round_trip watts Hw) as [_ Ew].
    unfold parseCardioRow.
    change (cardioRow (Cardio.mk modality minutes seconds rpe workRest watts notes))
      with (replicate 8 EmptyString ++ [modality] ++ replicate 2 EmptyString
            ++ [toString minutes; toString seconds] ++ replicate 3 EmptyString
            ++ [toString rpe; workRest] ++ replicate 6 EmptyString
            ++ [toString watts] ++ replicate 39 EmptyString ++ [notes]).
    cbn [replicate app lookup list_lookup].
    change (truthy (Some modality)) with (truthyStr modality).
    destruct (truthyStr modality); [|reflexivity]. cbn [negb orEmpty].
    now rewrite Em, Es, Er, Ew.
Qed.

Lemma cardio_row_round_trip_witness :
  parseCardioRow (List.last (formatSheetData [sample_set] bike) []) = Some bike.
Proof.
  destruct (cardio_row_round_trip [sample_set] bike) as (row & -> & _ & H).
  - exists 20. split; [reflexivity | reflexivity].
  - exists 0. split; [reflexivity | reflexivity].
  - exists 7. split; [reflexivity | reflexivity].
  - exists 180. split; [reflexivity | reflexivity].
  - exact H.
Defined.

End CardioRow.

(* ===================================================================== *)
(** * services/googleSheets.js: the queue, the cache and the fallbacks *)
(* ===================================================================== *)

Module CacheQueue.
Import JS JSFacts Spec Terms Samples Remote SheetsJs.

Lemma cacheKey_inj (d1 d2 : string) : cacheKey d1 = cacheKey d2 -> d1 = d2.
Proof. unfold cacheKey. intros H. simpl in H. now injection H. Qed.

Lemma cacheKey_not_syncQueue (d : string) : cacheKey d <> "syncQueue".
Proof. discriminate. Qed.

(** X9.  The sync queue is first in, first out and lives in local storage
    alone: after any number of adds, get returns the former entries
    followed by the added ones in the order they were added; adding sends
    nothing and leaves every cache entry as it was. *)
Theorem syncQueue_fifo (changes : list Change) (st : State) :
  let st' := addAll changes st in
  syncQueue_get st' = (Ok (queueOf st ++ changes), st')
  /\ sent st' = sent st
  /\ forall date, storage st' !! cacheKey date = storage st !! cacheKey date.
Proof.
  revert st. induction changes as [|change changes IH]; intros st.
  - cbn. split; [|split]; [|reflexivity|reflexivity].
    unfold syncQueue_get, bind, getItem, ret, queueOf. now rewrite app_nil_r.
  - change (addAll (change :: changes) st)
      with (addAll changes (snd (syncQueue_add change st))).
    specialize (IH (snd (syncQueue_add change st))). cbv zeta in IH.
    destruct IH as (Hg & Hs & Hc). cbv zeta. rewrite Hg, Hs.
    rewrite JsService.syncQueue_add_spec. cbn [snd sent]. split; [|split].
    + f_equal. f_equal. unfold queueOf at 1. cbn [storage].
      rewrite lookup_insert_eq. now rewrite <- app_assoc.
    + reflexivity.
    + intros date. rewrite Hc. rewrite JsService.syncQueue_add_spec.
      cbn [snd storage].
      now rewrite lookup_insert_ne by (symmetry; apply cacheKey_not_syncQueue).
Qed.

(** X10.  A record put in the cache for a date is what getCachedData
    returns for that date; the entries of other dates, the sync queue and
    the requests sent are untouched. *)
Theorem cache_round_trip (date : string) (data : Workout.t) (st : State) :
  let st' := snd (setCachedData date data st) in
  getCachedData date st' = (Ok (Some data), st')
  /\ (forall other, other <> date ->
        fst (getCachedData other st') = fst (getCachedData other st))
  /\ queueOf st' = queueOf st
  /\ sent st' = sent st.
Proof.
  unfold setCachedData, getCachedData, setItem, getItem, bind, ret, queueOf.
  cbn [snd fst storage sent]. split; [|split; [|split]].
  - now rewrite lookup_insert_eq.
  - intros other Hne. rewrite lookup_insert_ne; [reflexivity|].
    intros H. apply cacheKey_inj in H. congruence.
  - now rewrite lookup_insert_ne by apply cacheKey_not_syncQueue.
  - reflexivity.
Qed.

(** What an online read does, case by case. *)
Lemma online_read_cases (newDate : string -> Date) (respond : Request -> Response)
    (date : string) (st : State) :
  getWorkoutData true newDate respond date st
  = match respond (Get workoutLogGet) with
    | Ok200 values =>
        let targetDate := formatDate newDate date in
        let cardio :=
          match respond (Get cardioLogGet) with
          | Ok200 cardioValues => processCardioRows (default [] cardioValues) targetDate
          | _ => None
          end in
        let result :=
          Workout.mk (processWorkoutRows (default [] values) targetDate)
                     (Some (match cardio with Some c => c | None => Cardio.empty end)) in
        (Ok result,
         mkState (<[cacheKey date := Cached result]> (storage st))
                 (sent st ++ [Get workoutLogGet; Get cardioLogGet]))
    | failed =>
        let st' := mkState (storage st) (sent st ++ [Get workoutLogGet]) in
        match cachedAt st date with
        | Some data => (Ok data, st')
        | None =>
            (Throw (match failed with
                    | Rejected e => e
                    | _ => "Failed to fetch workout data"
                    end), st')
        end
    end.
Proof.
  unfold getWorkoutData, fetchCardio, getCachedData, setCachedData, getItem,
    setItem, catch, fetch, ret, throw, cachedAt, bind.
  cbn [negb storage sent].
  destruct (respond (Get workoutLogGet)) as [e|s|values]; cbn [storage sent].
  - destruct (storage st !! cacheKey date) as [[data|q]|]; reflexivity.
  - destruct (storage st !! cacheKey date) as [[data|q]|] eqn:E;
      cbn [storage sent]; rewrite ?E; reflexivity.
  - destruct (respond (Get cardioLogGet)) as [e|s|cardioValues];
      cbn [storage sent]; rewrite <- app_assoc; reflexivity.
Qed.

(** X11.  Whatever record a read returns while online, a read of the same
    date while offline right after returns the same record, without a
    request. *)
Theorem read_then_offline_read (newDate : string -> Date)
    (respond respond' : Request -> Response) (date : string) (st st' : State)
    (data : Workout.t) :
  getWorkoutData true newDate respond date st = (Ok data, st') ->
  getWorkoutData false newDate respond' date st' = (Ok data, st').
Proof.
  rewrite online_read_cases, JsService.offline_read. unfold cachedAt.
  destruct (respond (Get workoutLogGet)) as [e|s|values].
  1,2: (destruct (storage st !! cacheKey date) as [[cached|q]|] eqn:E;
        cbv zeta; intros [= <- <-]; cbn [storage]; now rewrite E).
  cbv zeta. intros [= <- <-]. cbn [storage]. now rewrite lookup_insert_eq.
Qed.

Lemma read_then_offline_read_witness :
  exists data st',
    getWorkoutData true (fun _ => LocalDate 11 12) failing_respond "2024-12-12"
                   (mkState ∅ []) = (Ok data, st')
    /\ getWorkoutData false (fun _ => LocalDate 11 12) failing_respond "2024-12-12"
                      st' = (Ok data, st').
Proof.
  eexists. eexists. split; [vm_compute; reflexivity|].
  apply (read_then_offline_read (fun _ => LocalDate 11 12) failing_respond
           failing_respond "2024-12-12" (mkState ∅ [])).
  vm_compute. reflexivity.
Defined.


(** X13.  Online, when the session log is not answered ok -- the request
    is rejected or the response is not ok --, the read asks for nothing
    more and falls back on the cache: it returns the cached record of the
    date when there is one, and throws otherwise (the rejection's message,
    or 'Failed to fetch workout data').  The cache is left as it was. *)
Theorem read_falls_back_on_cache (newDate : string -> Date)
    (respond : Request -> Response) (date : string) (st : State) :
  (forall values, respond (Get workoutLogGet) <> Ok200 values) ->
  let '(r, st') := getWorkoutData true newDate respond date st in
  st' = mkState (storage st) (sent st ++ [Get workoutLogGet])
  /\ match cachedAt st date with
     | Some data => r = Ok data
     | None =>
         r = Throw (match respond (Get workoutLogGet) with
                    | Rejected e => e
                    | _ => "Failed to fetch workout data"
                    end)
     end.
Proof.
  intros H. rewrite online_read_cases.
  destruct (respond (Get workoutLogGet)) as [e|s|values];
    [| |now destruct (H values)];
    destruct (cachedAt st date); cbv zeta; split; reflexivity.
Qed.

Lemma read_falls_back_on_cache_witness :
  let cached := Workout.mk [Exercise.mk "Squat" [sample_set] None] (Some bike) in
  let st := mkState {[ "workout_2024-12-12" := Cached cached ]} [] in
  getWorkoutData true (fun _ => LocalDate 11 12) (fun _ => NotOk "Forbidden")
                 "2024-12-12" st
  = (Ok cached, mkState (storage st) [Get workoutLogGet]).
Proof.
  intros cached st.
  pose proof (read_falls_back_on_cache (fun _ => LocalDate 11 12)
                (fun _ => NotOk "Forbidden") "2024-12-12" st
                ltac:(discriminate)) as H.
  destruct (getWorkoutData true (fun _ => LocalDate 11 12)
              (fun _ => NotOk "Forbidden") "2024-12-12" st) as [r st'].
  destruct H as [-> H]. change (r = Ok cached) in H. now rewrite H.
Defined.

(** X14.  Online, when the session log is answered ok but the cardio log
    is not, the read still resolves: its record carries the all-empty
    cardio session, and that record replaces the cache entry of the
    date. *)
Theorem cardio_read_failure_is_tolerated (newDate : string -> Date)
    (respond : Request -> Response) (date : string) (st : State)
    (values : option (list Row)) :
  respond (Get workoutLogGet) = Ok200 values ->
  (forall cardioValues, respond (Get cardioLogGet) <> Ok200 cardioValues) ->
  let result :=
    Workout.mk (processWorkoutRows (default [] values) (formatDate newDate date))
               (Some Cardio.empty) in
  let '(r, st') := getWorkoutData true newDate respond date st in
  r = Ok result
  /\ cachedAt st' date = Some result
  /\ sent st' = sent st ++ [Get workoutLogGet; Get cardioLogGet].
Proof.
  intros H1 H2 result. rewrite online_read_cases, H1.
  destruct (respond (Get cardioLogGet)) as [e|s|cardioValues];
    [| |now destruct (H2 cardioValues)];
    cbv zeta; unfold cachedAt; cbn [storage sent];
    rewrite lookup_insert_eq; repeat split.
Qed.

Lemma cardio_read_failure_is_tolerated_witness :
  let respond q :=
    match q with
    | Get "'workout log'!A:Z" => Ok200 (Some [[]; sample_row])
    | _ => NotOk "Forbidden"
    end in
  let '(r, st') :=
    getWorkoutData true (fun _ => LocalDate 11 12) respond "2024-12-12"
                   (mkState ∅ []) in
  exists exercises,
    r = Ok (Workout.mk exercises (Some Cardio.empty))
    /\ length (sent st') = 2%nat.
Proof.
  intros respond.
  pose proof (cardio_read_failure_is_tolerated (fun _ => LocalDate 11 12) respond
                "2024-12-12" (mkState ∅ []) (Some [[]; sample_row]) eq_refl
                ltac:(discriminate)) as H.
  cbv zeta in H.
  destruct (getWorkoutData true (fun _ => LocalDate 11 12) respond "2024-12-12"
              (mkState ∅ [])) as [r st'].
  destruct H as (-> & _ & ->). eexists. split; reflexivity.
Defined.


End CacheQueue.

(* ===================================================================== *)
(** * The coordinator: saving and loading online, reconnecting, restarting *)
(* ===================================================================== *)

Module Lifecycle.
Import JS JSFacts Spec Samples Tracker TrackerEvents.
Import Remote (result, Ok, Throw).

Ltac eval_events :=
  cbv beta iota zeta delta
    [handleSave loadWorkoutData syncPendingChanges callGet callSave
     handleOnline handleOffline setIsOnline mount restorePendingChanges
     setLoading setError setWorkout setDataSource setPendingChanges setIsSaving
     setStorage setItem removeItem moved
     isOnline date loading error workout dataSource pendingChanges isSaving
     localStorage world calls negb andb orb fst snd].

Ltac eval_events_in H :=
  cbv beta iota zeta delta
    [handleSave loadWorkoutData syncPendingChanges callGet callSave
     handleOnline handleOffline setIsOnline mount restorePendingChanges
     setLoading setError setWorkout setDataSource setPendingChanges setIsSaving
     setStorage setItem removeItem moved
     isOnline date loading error workout dataSource pendingChanges isSaving
     localStorage world calls negb andb orb fst snd] in H.

Section Facts.
Context {W World : Type}.
Variable getWorkoutData : string -> World -> result W * World.
Variable saveWorkoutData : SaveArg W -> World -> result unit * World.

Lemma queueStored_transfer (st st' : State W World) :
  pendingChanges st' = pendingChanges st ->
  localStorage st' !! "pendingChanges" = localStorage st !! "pendingChanges" ->
  queueStored st -> queueStored st'.
Proof. unfold queueStored. now intros -> ->. Qed.

Lemma handleSave_online_queue (now : string) (R : option W) (st : State W World) :
  isOnline st = true ->
  let st' := handleSave getWorkoutData saveWorkoutData now R st in
  pendingChanges st' = pendingChanges st
  /\ localStorage st' !! "pendingChanges" = localStorage st !! "pendingChanges".
Proof.
  destruct st as [on d ld er wk ds pc sv ls w cs]. cbn [isOnline]. intros ->.
  eval_events. destruct (saveWorkoutData (SaveWorkout R) w) as [[[]|e] w1];
    eval_events; [|now split].
  destruct (getWorkoutData d w1) as [[data|e] w2]; eval_events; [|now split].
  split; [reflexivity|].
  now rewrite lookup_insert_ne by apply Coordinator.cacheKey_not_queue.
Qed.

Lemma handleSave_offline_queue (now : string) (R : option W) (st : State W World) :
  isOnline st = false ->
  queueStored (handleSave getWorkoutData saveWorkoutData now R st).
Proof.
  destruct st as [on d ld er wk ds pc sv ls w cs]. cbn [isOnline]. intros ->.
  unfold queueStored. eval_events.
  rewrite (lookup_insert_ne _ (cacheKey d) "pendingChanges")
    by apply Coordinator.cacheKey_not_queue.
  now rewrite lookup_insert_eq.
Qed.

Lemma syncPendingChanges_queue (st : State W World) :
  let st' := syncPendingChanges getWorkoutData saveWorkoutData st in
  (pendingChanges st' = [] /\ localStorage st' !! "pendingChanges" = None)
  \/ (pendingChanges st' = pendingChanges st
      /\ localStorage st' !! "pendingChanges" = localStorage st !! "pendingChanges").
Proof.
  cbv zeta. unfold syncPendingChanges.
  destruct (negb (isOnline st) || Nat.eqb (length (pendingChanges st)) 0);
    [now right|].
  pose proof (Coordinator.saveAll_spec saveWorkoutData (pendingChanges st)
                (setIsSaving true st)) as Hs.
  cbn [pendingChanges setIsSaving].
  destruct (saveAll saveWorkoutData (pendingChanges st) (setIsSaving true st))
    as [[[]|e] st1].
  - left. destruct Hs as (w' & _ & ->).
    remember (removeItem "pendingChanges"
                (setPendingChanges []
                   (moved (setIsSaving true st) w'
                      (calls (setIsSaving true st) ++ saveCalls (pendingChanges st)))))
      as s1 eqn:Hs1.
    destruct (Coordinator.loadWorkoutData_keeps getWorkoutData s1)
      as (Hp & Hl & _).
    destruct (loadWorkoutData getWorkoutData s1)
      as [on2 d2 ld2 er2 wk2 ds2 pc2 sv2 ls2 w2 cs2].
    eval_events_in Hp. eval_events_in Hl. eval_events.
    rewrite Hp, Hl. subst s1. destruct st. eval_events.
    now rewrite lookup_delete_eq.
  - right. destruct Hs as (done & failed & rest & w1 & w2 & _ & _ & _ & ->).
    destruct st. eval_events. now split.
Qed.

End Facts.

(** X16.  The queue in memory and the queue in local storage stay in
    step: when they agree, they agree after a save, after a drain, after a
    load, and after the browser's online and offline events. *)
Theorem queueStored_preserved {W World : Type}
    (getWorkoutData : string -> World -> result W * World)
    (saveWorkoutData : SaveArg W -> World -> result unit * World)
    (now : string) (R : option W) (st : State W World) :
  queueStored st ->
  queueStored (handleSave getWorkoutData saveWorkoutData now R st)
  /\ queueStored (syncPendingChanges getWorkoutData saveWorkoutData st)
  /\ queueStored (loadWorkoutData getWorkoutData st)
  /\ queueStored (handleOnline getWorkoutData saveWorkoutData st)
  /\ queueStored (handleOffline st).
Proof.
  intros Hq.
  assert (queueStored (syncPendingChanges getWorkoutData saveWorkoutData st))
    as Hsync.
  { destruct (syncPendingChanges_queue getWorkoutData saveWorkoutData st)
      as [[Hp Hl] | [Hp Hl]].
    - unfold queueStored. now rewrite Hl, Hp.
    - now apply (queueStored_transfer st). }
  split; [|split; [exact Hsync|split; [|split]]].
  - destruct (isOnline st) eqn:Hon.
    + destruct (handleSave_online_queue getWorkoutData saveWorkoutData now R st Hon)
        as [Hp Hl].
      now apply (queueStored_transfer st).
    + now apply handleSave_offline_queue.
  - destruct (Coordinator.loadWorkoutData_keeps getWorkoutData st) as (Hp & Hl & _).
    now apply (queueStored_transfer st).
  - unfold handleOnline.
    apply (queueStored_transfer
             (syncPendingChanges getWorkoutData saveWorkoutData st));
      [| |exact Hsync];
      now destruct (syncPendingChanges getWorkoutData saveWorkoutData st).
  - apply (queueStored_transfer st); [| |exact Hq]; now destruct st.
Qed.

(** Two changes queued, in memory and in local storage. *)
Lemma queueStored_preserved_witness :
  queueStored two_queued
  /\ queueStored (syncPendingChanges get_fails save_fails_on_t2 two_queued)
  /\ queueStored (handleSave get_fails save_fails_on_t2 "t3" (Some tt) two_queued).
Proof.
  assert (queueStored two_queued) as H by reflexivity.
  split; [exact H|].
  destruct (queueStored_preserved get_fails save_fails_on_t2 "t3" (Some tt)
              two_queued H) as (Hs & Hd & _).
  split; [exact Hd | exact Hs].
Defined.

(** X17.  What was saved offline survives a restart: after an offline
    save, a component mounted afresh on the same local storage restores,
    in the effect it runs once after mounting, the queue as it stood --
    the former pending changes followed by the new one. *)
Theorem queue_survives_restart {W World : Type}
    (getWorkoutData : string -> World -> result W * World)
    (saveWorkoutData : SaveArg W -> World -> result unit * World)
    (now : string) (R : option W) (st : State W World)
    (onLine : bool) (today : string) (w : World) (cs : list (Call W)) :
  isOnline st = false ->
  let st' := handleSave getWorkoutData saveWorkoutData now R st in
  let fresh := restorePendingChanges (mount onLine today (localStorage st') w cs) in
  pendingChanges fresh = pendingChanges st ++ [mkChange (date st) R now]
  /\ queueStored fresh
  /\ calls fresh = cs.
Proof.
  destruct st as [on d ld er wk ds pc sv ls w0 cs0]. cbn [isOnline]. intros ->.
  unfold queueStored. eval_events.
  rewrite (lookup_insert_ne _ (cacheKey d) "pendingChanges")
    by apply Coordinator.cacheKey_not_queue.
  rewrite lookup_insert_eq. eval_events.
  rewrite (lookup_insert_ne _ (cacheKey d) "pendingChanges")
    by apply Coordinator.cacheKey_not_queue.
  rewrite lookup_insert_eq. repeat split.
Qed.

Lemma queue_survives_restart_witness :
  let st' := handleSave get_fails save_fails_on_t2 "t1" (Some tt) offline_empty in
  pendingChanges
    (restorePendingChanges (mount true "2024-03-15" (localStorage st') tt []))
  = [mkChange "2024-03-14" (Some tt) "t1"].
Proof.
  intros st'.
  exact (proj1 (queue_survives_restart get_fails save_fails_on_t2 "t1" (Some tt)
                  offline_empty true "2024-03-15" tt [] eq_refl)).
Defined.



(** X19.  Online, a save the service accepts is followed by a reload: the
    service is called twice, to save and then to read the selected date,
    and what is shown and cached afterwards is the record the service read
    back, whatever was saved; when that read fails, the load error is set
    and the workout shown stays. *)
Theorem online_save_reloads {W World : Type}
    (getWorkoutData : string -> World -> result W * World)
    (saveWorkoutData : SaveArg W -> World -> result unit * World)
    (now : string) (R : option W) (st : State W World) (w1 : World) :
  isOnline st = true ->
  saveWorkoutData (SaveWorkout R) (world st) = (Ok tt, w1) ->
  let st' := handleSave getWorkoutData saveWorkoutData now R st in
  calls st' = calls st ++ [CallSave (SaveWorkout R); CallGet (date st)]
  /\ pendingChanges st' = pendingChanges st
  /\ isSaving st' = false /\ loading st' = false
  /\ match getWorkoutData (date st) w1 with
     | (Ok data, w2) =>
         workout st' = Some data
         /\ localStorage st' !! cacheKey (date st) = Some (StoredWorkout (Some data))
         /\ dataSource st' = "online" /\ error st' = None /\ world st' = w2
     | (Throw _, w2) =>
         workout st' = workout st /\ localStorage st' = localStorage st
         /\ error st' = Some "Unable to load workout data. Please try again later."
         /\ world st' = w2
     end.
Proof.
  destruct st as [on d ld er wk ds pc sv ls w cs]. cbn [isOnline world date].
  intros -> Hs. eval_events. rewrite Hs. eval_events.
  destruct (getWorkoutData d w1) as [[data|e] w2]; eval_events.
  - rewrite lookup_insert_eq, <- app_assoc. repeat split.
  - rewrite <- app_assoc. repeat split.
Qed.

Lemma online_save_reloads_witness :
  let accept (arg : SaveArg unit) (w : unit) : result unit * unit := (Ok tt, w) in
  let st := mkState true "2024-03-14" false None (Some tt) "online" [] false
                    (∅ : gmap string (Stored unit)) tt [] in
  let st' := handleSave get_fails accept "t1" (Some tt) st in
  calls st' = [CallSave (SaveWorkout (Some tt)); CallGet "2024-03-14"]
  /\ error st' = Some "Unable to load workout data. Please try again later.".
Proof.
  intros accept st st'.
  destruct (online_save_reloads get_fails accept "t1" (Some tt) st tt eq_refl eq_refl)
    as (Hc & _ & _ & _ & _ & _ & He & _).
  split; [exact Hc | exact He].
Defined.

(** X20.  Online, a load calls the service once for the selected date.
    When the read succeeds, its record is shown and replaces the cache
    entry of the date.  When it fails, the error 'Unable to load workout
    data. Please try again later.' is set and the cache is not consulted:
    the workout shown and local storage stay as they were. *)
Theorem online_load {W World : Type}
    (getWorkoutData : string -> World -> result W * World)
    (st : State W World) :
  isOnline st = true ->
  let st' := loadWorkoutData getWorkoutData st in
  calls st' = calls st ++ [CallGet (date st)] /\ loading st' = false
  /\ match getWorkoutData (date st) (world st) with
     | (Ok data, w') =>
         workout st' = Some data
         /\ localStorage st'
            = <[cacheKey (date st) := StoredWorkout (Some data)]> (localStorage st)
         /\ dataSource st' = "online" /\ error st' = None /\ world st' = w'
     | (Throw _, w') =>
         workout st' = workout st /\ localStorage st' = localStorage st
         /\ dataSource st' = dataSource st
         /\ error st' = Some "Unable to load workout data. Please try again later."
         /\ world st' = w'
     end.
Proof.
  destruct st as [on d ld er wk ds pc sv ls w cs]. cbn [isOnline world date].
  intros ->. eval_events.
  destruct (getWorkoutData d w) as [[data|e] w']; eval_events; repeat split.
Qed.

(** A failing read with a cache entry at hand: the entry is not shown. *)
Lemma online_load_witness :
  let st := mkState true "2024-03-14" false None None "online" [] false
                    ({[ "workout_2024-03-14" := StoredWorkout (Some tt) ]}
                       : gmap string (Stored unit)) tt [] in
  let st' := loadWorkoutData get_fails st in
  workout st' = None
  /\ error st' = Some "Unable to load workout data. Please try again later.".
Proof.
  intros st st'.
  destruct (online_load get_fails st eq_refl) as (_ & _ & Hw & _ & _ & He & _).
  split; [exact Hw | exact He].
Defined.

(** X21.  The online event does not drain a queue built up offline: the
    handler runs the drain of the render it was registered in, where the
    component is still offline, so the drain returns at once.  The event
    only marks the component online; the load that follows the re-render
    reads the selected date and leaves the queue, in memory and in local
    storage, as it stood.  No save reaches the service. *)
Theorem online_event_does_not_drain {W World : Type}
    (getWorkoutData : string -> World -> result W * World)
    (saveWorkoutData : SaveArg W -> World -> result unit * World)
    (st : State W World) :
  isOnline st = false ->
  let st1 := handleOnline getWorkoutData saveWorkoutData st in
  let st2 := loadWorkoutData getWorkoutData st1 in
  st1 = setIsOnline true st
  /\ pendingChanges st2 = pendingChanges st
  /\ localStorage st2 !! "pendingChanges" = localStorage st !! "pendingChanges"
  /\ calls st2 = calls st ++ [CallGet (date st)]
  /\ isOnline st2 = true.
Proof.
  destruct st as [on d ld er wk ds pc sv ls w cs]. cbn [isOnline]. intros ->.
  eval_events. destruct (getWorkoutData d w) as [[data|e] w']; eval_events.
  - rewrite lookup_insert_ne by apply Coordinator.cacheKey_not_queue.
    repeat split.
  - repeat split.
Qed.

Lemma online_event_does_not_drain_witness :
  let st := mkState false "2024-12-13" false None None "online"
                    [change1; change2] false
                    {["pendingChanges" := StoredChanges [change1; change2]]} tt [] in
  let st2 := loadWorkoutData get_fails
               (handleOnline get_fails save_fails_on_t2 st) in
  pendingChanges st2 = [change1; change2] /\ calls st2 = [CallGet "2024-12-13"].
Proof.
  intros st st2.
  destruct (online_event_does_not_drain get_fails save_fails_on_t2 st eq_refl)
    as (_ & Hp & _ & Hc & _).
  split; [exact Hp | exact Hc].
Defined.

End Lifecycle.

(* ===================================================================== *)
(** * services/googleSheets.js: matching dates, and reading back what was
      appended *)
(* ===================================================================== *)

Module WriteRead.
Import JS JSFacts Spec Terms Samples Remote SheetsJs.

Lemma digit_not_letter (c : ascii) : isDigit c = true -> isLetter c = false.
Proof. each_char c; intros H; try discriminate H; reflexivity. Qed.

Lemma letter_not_space (c : ascii) : isLetter c = true -> isWhiteSpace c = false.
Proof. each_char c; intros H; try discriminate H; reflexivity. Qed.

Lemma digit_not_space (c : ascii) : isDigit c = true -> isWhiteSpace c = false.
Proof. intros H. now destruct (digit_plain c H) as (-> & _). Qed.

Lemma digit_not_slash (c : ascii) : isDigit c = true -> isChar "/"%char c = false.
Proof. intros H. now destruct (digit_plain c H) as (_ & _ & _ & -> & _). Qed.

Lemma slash_facts :
  isDigit "/"%char = false /\ isChar "/"%char "/"%char = true.
Proof. split; reflexivity. Qed.

(** The text of a calendar date, as formatDate prints it. *)
Lemma formatted_shape (d : Date) :
  calendarDay d ->
  exists month day,
    chars (SheetsTs.parseDate d) = month ++ "/"%char :: day /\ monthDay month day.
Proof.
  destruct d as [|month0 day]; cbn [calendarDay]; [tauto|]. intros [Hm Hd].
  exists (digitsOf (Z.of_nat month0 + 1)), (digitsOf (Z.of_nat day)).
  unfold SheetsTs.parseDate, getMonth, getDate, succ, toString.
  rewrite !chars_app, !chars_str. cbn [list_ascii_of_string app].
  rewrite !toStringL_Int by lia.
  assert ((Z.of_nat month0 + 1 <? 0) = false) as -> by (apply Z.ltb_ge; lia).
  assert ((Z.of_nat day <? 0) = false) as -> by (apply Z.ltb_ge; lia).
  rewrite !Z.abs_eq by lia. cbn [signChars app]. split; [reflexivity|].
  unfold monthDay.
  pose proof (digitsOf_nonempty (Z.of_nat month0 + 1) ltac:(lia)) as N1.
  pose proof (digitsOf_nonempty (Z.of_nat day) ltac:(lia)) as N2.
  pose proof (digitsOf_length (Z.of_nat month0 + 1) 2 ltac:(lia) ltac:(lia)) as L1.
  pose proof (digitsOf_length (Z.of_nat day) 2 ltac:(lia) ltac:(lia)) as L2.
  split; [apply digitsOf_digits; lia|]. split; [apply digitsOf_digits; lia|].
  destruct (digitsOf (Z.of_nat month0 + 1)); [congruence|].
  destruct (digitsOf (Z.of_nat day)); [congruence|].
  cbn [length] in *. lia.
Qed.

Ltac month_day_cases m dd H :=
  destruct H as (Hm & Hd & Lm & Ld);
  destruct m as [|m1 [|m2 [|m3 m]]]; cbn [length] in Lm; try lia;
  destruct dd as [|d1 [|d2 [|d3 dd]]]; cbn [length] in Ld; try lia;
  cbn [forallb] in Hm, Hd;
  repeat match goal with
         | H : _ && _ = true |- _ => apply andb_prop in H as [? H]
         end;
  clear Lm Ld.

Lemma firstMonthDay_shape (m dd : list ascii) :
  monthDay m dd ->
  firstMonthDay (m ++ "/"%char :: dd) = Some (m ++ "/"%char :: dd).
Proof.
  destruct slash_facts as [S1 S2]. intros H. month_day_cases m dd H;
    cbn [app firstMonthDay monthDayAt dayPart];
    repeat match goal with
           | H : isDigit ?c = true |- _ => rewrite H
           end;
    rewrite ?S1, ?S2; reflexivity.
Qed.

Lemma dropWeekday_digit (x : ascii) (t : list ascii) :
  isDigit x = true -> dropWeekday (x :: t) = x :: t.
Proof.
  intros H. apply digit_not_letter in H. unfold dropWeekday.
  destruct t as [|b [|c [|w r]]]; try reflexivity. now rewrite H.
Qed.

Lemma dropYear_month_day (m dd : list ascii) :
  monthDay m dd -> dropYear (m ++ "/"%char :: dd) = m ++ "/"%char :: dd.
Proof.
  intros H. month_day_cases m dd H; cbn [app]; try reflexivity.
  unfold dropYear. cbn [length Nat.sub drop].
  match goal with
  | H : isDigit m1 = true |- _ => rewrite (digit_not_slash m1 H)
  end.
  reflexivity.
Qed.

Lemma dropYear_year (md : list ascii) (a b c d : ascii) :
  isDigit a = true -> isDigit b = true -> isDigit c = true -> isDigit d = true ->
  dropYear (md ++ ["/"%char; a; b; c; d]) = md.
Proof.
  intros Ha Hb Hc Hd. unfold dropYear. rewrite length_app. cbn [length].
  replace (length md + 5 - 5)%nat with (length md) by lia.
  rewrite drop_app_length, Ha, Hb, Hc, Hd.
  destruct slash_facts as [_ ->]. cbn [andb]. apply take_app_length.
Qed.

Lemma trimL_body (ws1 ws2 q : list ascii) (x z : ascii) (t : list ascii) :
  forallb isWhiteSpace ws1 = true -> forallb isWhiteSpace ws2 = true ->
  isWhiteSpace x = false -> isWhiteSpace z = false ->
  x :: t = q ++ [z] ->
  trimL (ws1 ++ (x :: t) ++ ws2) = x :: t.
Proof.
  intros H1 H2 Hx Hz Hq. unfold trimL, trimStartL.
  rewrite dropWhile_all by exact H1. cbn [app].
  rewrite dropWhile_stop by exact Hx.
  change (x :: t ++ ws2) with ((x :: t) ++ ws2). rewrite Hq, <- app_assoc.
  apply trimEndL_token; [exact H2 | | discriminate].
  cbn [forallb]. unfold nonWhiteSpace. now rewrite Hz.
Qed.

(** The row dates matchesDate accepts for a month/day target. *)
Lemma matchesDate_shape (ws1 prefix m dd year ws2 : list ascii) :
  forallb isWhiteSpace ws1 = true -> forallb isWhiteSpace ws2 = true ->
  weekdayPrefix prefix -> monthDay m dd -> yearSuffix year ->
  matchesDate
    (Some (str (ws1 ++ (prefix ++ (m ++ "/"%char :: dd) ++ year) ++ ws2)))
    (str (m ++ "/"%char :: dd))
  = true.
Proof.
  intros H1 H2 Hp Hmd Hy.
  pose proof (firstMonthDay_shape m dd Hmd) as Hfirst.
  pose proof (dropYear_month_day m dd Hmd) as Hplain.
  set (md := m ++ "/"%char :: dd) in *.
  assert (exists x t, md = x :: t /\ isDigit x = true) as (x & t & Emd & Hx).
  { subst md. destruct Hmd as (Hm & _ & Lm & _).
    destruct m as [|m1 m]; cbn [length] in Lm; [lia|].
    cbn [forallb] in Hm. apply andb_prop in Hm as [Hm _]. now eexists _, _. }
  assert (exists q z, md = q ++ [z] /\ isDigit z = true) as (q & z & Eq & Hz).
  { subst md. destruct Hmd as (_ & Hd & _ & Ld).
    destruct dd as [|d1 dd] using rev_ind; cbn [length] in Ld; [lia|].
    rewrite forallb_app in Hd. apply andb_prop in Hd as [_ Hd].
    cbn [forallb] in Hd. apply andb_prop in Hd as [Hd _].
    exists (m ++ "/"%char :: dd), d1. split; [|exact Hd].
    now rewrite <- app_assoc. }
  (* the body, between the white space *)
  set (body := prefix ++ md ++ year).
  assert (dropYear (dropWeekday body) = md) as Hclean.
  { assert (dropYear (md ++ year) = md) as Hyear.
    { destruct Hy as [-> | (a & b & c & d & -> & Ha & Hb & Hc & Hd)].
      - now rewrite app_nil_r.
      - now apply dropYear_year. }
    subst body. destruct Hp as [-> | (a & b & c & w & ws & -> & Ha & Hb & Hc & Hw & Hws)].
    - cbn [app]. rewrite Emd. cbn [app]. rewrite dropWeekday_digit by exact Hx.
      change (x :: t ++ year) with ((x :: t) ++ year). now rewrite <- Emd.
    - cbn [app dropWeekday]. rewrite Ha, Hb, Hc, Hw. cbn [andb].
      change (w :: ws ++ md ++ year) with ((w :: ws) ++ md ++ year).
      rewrite dropWhile_all by (cbn [forallb]; now rewrite Hw, Hws).
      rewrite Emd. cbn [app].
      rewrite dropWhile_stop by (now apply digit_not_space).
      change (x :: t ++ year) with ((x :: t) ++ year). now rewrite <- Emd. }
  assert (exists x' t' q' z',
             body = x' :: t' /\ x' :: t' = q' ++ [z']
             /\ isWhiteSpace x' = false /\ isWhiteSpace z' = false)
    as (x' & t' & q' & z' & Eb & Eq' & Hx' & Hz').
  { assert (exists q' z', body = q' ++ [z'] /\ isWhiteSpace z' = false)
      as (q' & z' & Eq' & Hz').
    { subst body. destruct Hy as [-> | (a & b & c & d & -> & Ha & Hb & Hc & Hd)].
      - exists (prefix ++ q), z. rewrite app_nil_r, Eq, app_assoc.
        split; [reflexivity | now apply digit_not_space].
      - exists (prefix ++ md ++ ["/"%char; a; b; c]), d.
        split; [|now apply digit_not_space].
        now rewrite <- !app_assoc. }
    subst body. destruct Hp as [-> | (a & b & c & w & ws & -> & Ha & Hb & Hc & Hw & Hws)].
    - cbn [app] in *. rewrite Emd in *. cbn [app] in *.
      exists x, (t ++ year), q', z'. repeat split; auto using digit_not_space.
    - cbn [app] in *.
      exists a, (b :: c :: w :: ws ++ md ++ year), q', z'.
      repeat split; auto using letter_not_space. }
  unfold matchesDate.
  assert (truthy (Some (str (ws1 ++ body ++ ws2))) = true) as ->.
  { cbn [truthy]. unfold truthyStr. rewrite chars_str, Eb.
    now destruct ws1. }
  cbn [negb orEmpty]. rewrite !chars_str, Hfirst. rewrite Eb.
  rewrite (trimL_body ws1 ws2 q' x' z' t') by assumption.
  rewrite <- Eb, Hclean. now apply bool_decide_eq_true_2.
Qed.

(** X22.  matchesDate accepts a row date for a formatted calendar date
    when, white space around it aside, the row date is the formatted date
    itself, optionally after a three-letter weekday and white space, and
    optionally followed by a slash and a four-digit year. *)
Theorem matchesDate_accepts (newDate : string -> Date) (date : string)
    (ws1 prefix year ws2 : list ascii) :
  calendarDay (newDate date) ->
  forallb isWhiteSpace ws1 = true -> forallb isWhiteSpace ws2 = true ->
  weekdayPrefix prefix -> yearSuffix year ->
  let target := formatDate newDate date in
  matchesDate (Some (str (ws1 ++ (prefix ++ chars target ++ year) ++ ws2))) target
  = true.
Proof.
  intros Hd H1 H2 Hp Hy target.
  destruct (formatted_shape (newDate date) Hd) as (m & dd & Hc & Hmd).
  change (SheetsTs.parseDate (newDate date)) with target in Hc.
  rewrite <- (str_chars target) at 2. rewrite Hc.
  now apply matchesDate_shape.
Qed.

(** Thu 12/12/2024 is a row for 12 December. *)
Lemma matchesDate_accepts_witness :
  matchesDate (Some "Thu 12/12/2024")
              (formatDate (fun _ => LocalDate 11 12) "2024-12-12")
  = true.
Proof.
  apply (matchesDate_accepts (fun _ => LocalDate 11 12) "2024-12-12"
           [] (chars "Thu ") (chars "/2024") []).
  - cbn. lia.
  - reflexivity.
  - reflexivity.
  - right. exists "T"%char, "h"%char, "u"%char, " "%char, [].
    repeat split; reflexivity.
  - right. exists "2"%char, "0"%char, "2"%char, "4"%char.
    repeat split; reflexivity.
Defined.

(** ** Rows appended, rows read *)

Lemma list_map_lookup {A B} (f : A -> B) (l : list A) (i : nat) :
  map f l !! i = option_map f (l !! i).
Proof.
  revert i. induction l as [|x l IH]; intros [|i]; cbn; auto.
Qed.

Lemma arraySet_in {A} (i : nat) (v : A) (l : list (option A)) :
  (i < length l)%nat -> arraySet i v l = <[i := Some v]> l.
Proof. intros H. unfold arraySet. now apply Nat.ltb_lt in H as ->. Qed.

(** The loop over the sets fills three cells a set and leaves the others,
    while the sets fit in the 38 cells. *)
Lemma setCells_spec (sets : list WSet.t) :
  forall (index : nat) (row : list (option string)),
    length row = 38%nat -> (index + length sets <= 8)%nat ->
    length (setCells index sets row) = 38%nat
    /\ (forall j, (j < 14 + 3 * index \/ 14 + 3 * (index + length sets) <= j)%nat ->
                  setCells index sets row !! j = row !! j)
    /\ (forall i set, sets !! i = Some set ->
          setCells index sets row !! (14 + 3 * (index + i))%nat
          = Some (Some (toString (WSet.reps set)))
          /\ setCells index sets row !! (14 + 3 * (index + i) + 1)%nat
             = Some (Some (toString (WSet.weight set)))
          /\ setCells index sets row !! (14 + 3 * (index + i) + 2)%nat
             = Some (Some (toString (WSet.rir set)))).
Proof.
  induction sets as [|set sets IH]; intros index row Hlen Hfit.
  - cbn [setCells]. split; [exact Hlen|]. split; [reflexivity|].
    intros i s H. discriminate H.
  - cbn [setCells length] in *.
    set (row1 := arraySet (14 + index * 3) (toString (WSet.reps set)) row).
    set (row2 := arraySet (14 + index * 3 + 1) (toString (WSet.weight set)) row1).
    set (row3 := arraySet (14 + index * 3 + 2) (toString (WSet.rir set)) row2).
    assert (row1 = <[(14 + index * 3)%nat := Some (toString (WSet.reps set))]> row)
      as E1 by (apply arraySet_in; lia).
    assert (length row1 = 38%nat) as L1 by (rewrite E1, length_insert; exact Hlen).
    assert (row2 = <[(14 + index * 3 + 1)%nat := Some (toString (WSet.weight set))]> row1)
      as E2 by (apply arraySet_in; lia).
    assert (length row2 = 38%nat) as L2 by (rewrite E2, length_insert; exact L1).
    assert (row3 = <[(14 + index * 3 + 2)%nat := Some (toString (WSet.rir set))]> row2)
      as E3 by (apply arraySet_in; lia).
    assert (length row3 = 38%nat) as L3 by (rewrite E3, length_insert; exact L2).
    destruct (IH (S index) row3 L3 ltac:(lia)) as (Hl & Hout & Hin).
    split; [exact Hl|]. split.
    + intros j Hj. rewrite Hout by lia. rewrite E3, E2, E1.
      now rewrite !list_lookup_insert_ne by lia.
    + intros [|i] s Hs.
      * injection Hs as <-. rewrite !Hout by lia.
        replace (14 + 3 * (index + 0))%nat with (14 + index * 3)%nat by lia.
        rewrite E3. split; [|split].
        -- rewrite list_lookup_insert_ne by lia. rewrite E2.
           rewrite list_lookup_insert_ne by lia. rewrite E1.
           apply list_lookup_insert_eq. lia.
        -- rewrite list_lookup_insert_ne by lia. rewrite E2.
           apply list_lookup_insert_eq. lia.
        -- apply list_lookup_insert_eq. lia.
      * replace (index + S i)%nat with (S index + i)%nat by lia.
        now apply Hin.
Qed.

(** The cells of the row appended for an exercise of at most seven sets. *)
Lemma workoutRow_cells (formattedDate : string) (e : Exercise.t) :
  (length (Exercise.sets e) <= 7)%nat ->
  let row := workoutRow formattedDate e in
  length row = 38%nat
  /\ row !! 6%nat = Some (Some formattedDate)
  /\ row !! 8%nat = Some (Some (Exercise.name e))
  /\ row !! 13%nat
     = Some (Some (toString (Int (Z.of_nat (length (Exercise.sets e))))))
  /\ row !! 37%nat = Some (Some (orEmpty (Exercise.notes e)))
  /\ forall i set, Exercise.sets e !! i = Some set ->
       row !! (14 + 3 * i)%nat = Some (Some (toString (WSet.reps set)))
       /\ row !! (14 + 3 * i + 1)%nat = Some (Some (toString (WSet.weight set)))
       /\ row !! (14 + 3 * i + 2)%nat = Some (Some (toString (WSet.rir set))).
Proof.
  intros Hn row. subst row. unfold workoutRow.
  set (row0 := arraySet 13 _ (arraySet 8 _ (arraySet 6 _ (blankArray 38)))).
  assert (length row0 = 38%nat) as L0 by reflexivity.
  destruct (setCells_spec (Exercise.sets e) 0 row0 L0 ltac:(lia))
    as (Hl & Hout & Hin).
  rewrite arraySet_in by lia. rewrite length_insert.
  split; [exact Hl|].
  split; [rewrite list_lookup_insert_ne by lia; now rewrite Hout by lia|].
  split; [rewrite list_lookup_insert_ne by lia; now rewrite Hout by lia|].
  split; [rewrite list_lookup_insert_ne by lia; now rewrite Hout by lia|].
  split; [apply list_lookup_insert_eq; lia|].
  intros i set Hs. pose proof (lookup_lt_Some _ _ _ Hs) as Hi.
  destruct (Hin i set Hs) as (H1 & H2 & H3). cbn [Nat.add] in H1, H2, H3.
  rewrite !list_lookup_insert_ne by lia. auto.
Qed.

Lemma returned_lookup (cells : Row) (k j : nat) (v : string) :
  map Some (cells ++ replicate k EmptyString) !! j = Some (Some v) ->
  cells !! j = Some v \/ (v = EmptyString /\ cells !! j = None).
Proof.
  unfold Row in *. rewrite list_map_lookup.
  destruct (decide (j < length cells)%nat) as [Hlt|Hge].
  - rewrite lookup_app_l by exact Hlt.
    destruct (cells !! j) as [s|]; cbn [option_map]; intros H;
      [|discriminate H].
    injection H as ->. now left.
  - rewrite lookup_app_r by lia.
    destruct (replicate k EmptyString !! (j - length cells)%nat) as [s|] eqn:E;
      cbn [option_map]; intros H; [|discriminate H].
    apply lookup_replicate in E as [-> _]. injection H as <-. right.
    split; [reflexivity|]. apply lookup_ge_None_2. lia.
Qed.

Section Returned.
Variables (written : list (option string)) (cells : Row).
Hypothesis Hret : returnedFor written cells.

Lemma returned_present (j : nat) (v : string) :
  written !! j = Some (Some v) -> v <> EmptyString -> cells !! j = Some v.
Proof.
  destruct Hret as (k & E). rewrite E. intros H Hv.
  apply returned_lookup in H as [H | [H _]]; [exact H | congruence].
Qed.

Lemma returned_before (j j' : nat) (v v' : string) :
  written !! j = Some (Some v) ->
  written !! j' = Some (Some v') -> v' <> EmptyString -> (j <= j')%nat ->
  cells !! j = Some v.
Proof.
  intros H H' Hv Hle. pose proof (returned_present j' v' H' Hv) as Hc.
  apply lookup_lt_Some in Hc. destruct Hret as (k & E). rewrite E in H.
  apply returned_lookup in H as [H | [_ H]]; [exact H|].
  apply lookup_ge_None_1 in H. lia.
Qed.

Lemma returned_orEmpty (j : nat) (v : string) :
  written !! j = Some (Some v) -> orEmpty (cells !! j) = v.
Proof.
  destruct Hret as (k & E). rewrite E. intros H.
  apply returned_lookup in H as [-> | [-> ->]]; reflexivity.
Qed.

End Returned.

Lemma exactSet_reads_back (set : WSet.t) :
  exactSet set ->
  truthy (Some (toString (WSet.reps set))) = true
  /\ toString (WSet.rir set) <> EmptyString
  /\ WSet.mk (orZero (parseInt (Some (toString (WSet.reps set)))))
             (orZero (parseFloat (Some (toString (WSet.weight set)))))
             (orZero (parseInt (Some (toString (WSet.rir set)))))
     = set.
Proof.
  intros (Hreps & Hweight & Hrir). destruct set as [reps weight rir].
  cbn [WSet.reps WSet.weight WSet.rir] in *.
  destruct (RoundTrip.integer_round_trip reps Hreps) as [Ht ->].
  destruct (RoundTrip.integer_round_trip rir Hrir) as [Ht' ->].
  rewrite (RoundTrip.decimal_round_trip weight Hweight).
  split; [exact Ht|]. split; [|reflexivity].
  intros E. rewrite E in Ht'. discriminate Ht'.
Qed.

(** The loop of the reader over the first [k] sets of a returned row. *)
Lemma pushSet_returned (formattedDate : string) (e : Exercise.t) (cells : Row) :
  storable e -> returnedFor (workoutRow formattedDate e) cells ->
  forall k, (k <= length (Exercise.sets e))%nat ->
            fold_left (pushSet cells) (seq 0 k) [] = take k (Exercise.sets e).
Proof.
  intros (_ & [_ Hn] & Hex) Hret.
  destruct (workoutRow_cells formattedDate e Hn) as (_ & _ & _ & _ & _ & Hin).
  induction k as [|k IH]; intros Hk; [reflexivity|].
  rewrite seq_S, fold_left_app, IH by lia. cbn [fold_left Nat.add].
  destruct (lookup_lt_is_Some_2 (Exercise.sets e) k ltac:(lia)) as [set Hs].
  rewrite (take_S_r _ _ _ Hs).
  destruct (Hin k set Hs) as (H1 & H2 & H3).
  destruct (exactSet_reads_back set (Forall_lookup_1 _ _ _ _ Hex Hs))
    as (Ht & Hne & Hset).
  assert (toString (WSet.reps set) <> EmptyString) as Hne1.
  { intros E. rewrite E in Ht. discriminate Ht. }
  unfold pushSet.
  replace (14 + k * 3)%nat with (14 + 3 * k)%nat by lia.
  rewrite (returned_present _ _ Hret _ _ H1 Hne1).
  rewrite (returned_before _ _ Hret _ _ _ _ H2 H3 Hne ltac:(lia)).
  rewrite (returned_present _ _ Hret _ _ H3 Hne).
  rewrite Ht. cbn [orb]. now rewrite Hset.
Qed.

(** One returned row, read after the exercises read so far. *)
Lemma pushExercise_returned (formattedDate : string) (e : Exercise.t)
    (cells : Row) (exercises : list Exercise.t) :
  storable e -> returnedFor (workoutRow formattedDate e) cells ->
  pushExercise exercises cells = exercises ++ [asRead e].
Proof.
  intros Hst Hret. pose proof Hst as (Hname & [Hpos Hn] & Hex).
  destruct (workoutRow_cells formattedDate e Hn) as (_ & _ & H8 & H13 & H37 & _).
  unfold pushExercise.
  rewrite (returned_present _ _ Hret _ _ H8 Hname).
  assert (truthy (Some (Exercise.name e)) = true) as ->
    by (destruct (Exercise.name e); [congruence | reflexivity]).
  cbn [negb orEmpty].
  assert (exactInteger (Int (Z.of_nat (length (Exercise.sets e))))) as Hcount
    by (eexists; split; [reflexivity | lia]).
  destruct (RoundTrip.integer_round_trip _ Hcount) as [Ht Hparse].
  rewrite (returned_present _ _ Hret _ _ H13)
    by (intros E; rewrite E in Ht; discriminate Ht).
  rewrite Hparse. cbn [turns]. rewrite Nat2Z.id.
  rewrite (pushSet_returned formattedDate e cells Hst Hret) by lia.
  rewrite firstn_all.
  assert ((0 <? length (Exercise.sets e))%nat = true) as ->
    by (apply Nat.ltb_lt; lia).
  now rewrite (returned_orEmpty _ _ Hret _ _ H37).
Qed.

Lemma matchesDate_formatted (newDate : string -> Date) (date : string) :
  calendarDay (newDate date) ->
  matchesDate (Some (formatDate newDate date)) (formatDate newDate date) = true.
Proof.
  intros Hd. destruct (formatted_shape (newDate date) Hd) as (m & dd & Hc & Hmd).
  change (SheetsTs.parseDate (newDate date)) with (formatDate newDate date) in Hc.
  pose proof (matchesDate_shape [] [] m dd [] [] eq_refl eq_refl
                (or_introl eq_refl) Hmd (or_introl eq_refl)) as H.
  cbn [app] in H. rewrite !app_nil_r, <- Hc, str_chars in H. exact H.
Qed.

(** X23.  processWorkoutRows decodes the rows updateWorkoutData builds.
    Take the rows built, on a calendar date, for exercises that each have
    a name and one to seven sets of exactly held numbers; given these rows
    below a header row, as they were written or with empty cells at the
    end left out, processWorkoutRows for the same date returns these
    exercises in order, with their names, sets and notes. *)
Theorem appended_rows_read_back (newDate : string -> Date) (date : string)
    (exercises : list Exercise.t) (header : Row) (rows : list Row) :
  calendarDay (newDate date) ->
  Forall storable exercises ->
  Forall2 returnedFor (map (workoutRow (formatDate newDate date)) exercises) rows ->
  processWorkoutRows (header :: rows) (formatDate newDate date)
  = map asRead exercises.
Proof.
  intros Hd Hst Hret. unfold processWorkoutRows, slice1. cbn [drop].
  set (target := formatDate newDate date) in *.
  assert (forall acc,
             fold_left pushExercise
               (List.filter (fun row => matchesDate (row !! 6%nat) target) rows) acc
             = acc ++ map asRead exercises) as H; [|apply (H [])].
  revert rows Hret. induction exercises as [|e es IH]; intros rows Hret acc.
  - inversion Hret; subst. cbn. now rewrite app_nil_r.
  - cbn [map] in Hret. inversion Hret as [|w cells ws rows' Hr Hrs]; subst.
    inversion Hst as [|? ? He Hes]; subst.
    pose proof He as (_ & [_ Hn] & _).
    destruct (workoutRow_cells target e Hn) as (_ & H6 & _).
    cbn [List.filter].
    assert (target <> EmptyString) as Hne.
    { subst target. apply ReadUpdate.parseDate_not_empty. }
    rewrite (returned_present _ _ Hr _ _ H6 Hne).
    subst target. rewrite matchesDate_formatted by exact Hd.
    cbn [fold_left map].
    rewrite (pushExercise_returned _ e cells acc He Hr).
    rewrite (IH Hes rows' Hrs). now rewrite <- app_assoc.
Qed.

(** One exercise of two sets, the notes cell left out by the sheet. *)
Lemma appended_rows_read_back_witness :
  let e := Exercise.mk "Squat" [sample_set; WSet.mk (Int 5) (Int 100) (Int 0)] None in
  let fd := formatDate (fun _ => LocalDate 11 12) "2024-12-12" in
  processWorkoutRows
    [[]; take 20 (map orEmpty (workoutRow fd e))] fd
  = [Exercise.mk "Squat" [sample_set; WSet.mk (Int 5) (Int 100) (Int 0)]
                 (Some EmptyString)].
Proof.
  intros e fd.
  apply (appended_rows_read_back (fun _ => LocalDate 11 12) "2024-12-12" [e] []
           [take 20 (map orEmpty (workoutRow fd e))]).
  - cbn. lia.
  - repeat constructor; try discriminate; cbn; try lia.
    + now exists 8.
    + now exists 2.
    + now exists 5.
    + now exists 0.
  - repeat constructor. exists 18%nat. reflexivity.
Defined.

(** X24.  An exercise without sets is appended -- its row carries the
    count 0 -- but never read back: the reader skips a row that yields no
    set. *)
Theorem row_without_sets_is_not_read (formattedDate : string) (e : Exercise.t)
    (cells : Row) (exercises : list Exercise.t) :
  Exercise.sets e = [] ->
  returnedFor (workoutRow formattedDate e) cells ->
  workoutRow formattedDate e !! 13%nat = Some (Some "0")
  /\ pushExercise exercises cells = exercises.
Proof.
  intros Hs Hret.
  destruct (workoutRow_cells formattedDate e ltac:(rewrite Hs; cbn; lia))
    as (_ & _ & _ & H13 & _).
  rewrite Hs in H13. split; [exact H13|].
  unfold pushExercise. destruct (negb (truthy (cells !! 8%nat))); [reflexivity|].
  rewrite (returned_present _ _ Hret _ _ H13) by discriminate.
  reflexivity.
Qed.

Lemma row_without_sets_is_not_read_witness :
  let e := Exercise.mk "Plank" [] (Some "60 s") in
  pushExercise [] (map orEmpty (workoutRow "12/12" e)) = [].
Proof.
  intros e.
  apply (row_without_sets_is_not_read "12/12" e
           (map orEmpty (workoutRow "12/12" e)) [] eq_refl).
  exists 0%nat. reflexivity.
Defined.

End WriteRead.

(* ===================================================================== *)
(** * The token-bearing copy of the JavaScript service, and the older
      service's token *)
(* ===================================================================== *)

Module Tokens.
Import JS JSFacts Spec Terms Samples Remote SheetsJs SheetsJsAuthQueue.

Ltac enqueued Hq Hc k :=
  match goal with
  | |- context [syncQueue_add ?c ?s] =>
      specialize (Hq s); specialize (Hc s);
      rewrite JsService.syncQueue_add_spec in *
  end;
  cbn [snd storage sent] in *; split; [exact Hc|];
  split; [exists k; cbn [take]; rewrite <- ?app_assoc, ?app_nil_r; reflexivity|];
  split; [reflexivity | exact Hq].

Ltac resolved k :=
  cbn [storage sent]; split; [reflexivity|];
  split; [exists k; cbn [take]; rewrite <- ?app_assoc, ?app_nil_r; reflexivity|];
  rewrite <- ?app_assoc, ?app_nil_r;
  split; [reflexivity|]; split; [reflexivity|]; split; [reflexivity|];
  split; [repeat constructor; eexists; eassumption | now eexists].

(** X25.  The copy of the service in components/GoogleAuth.jsx never
    drops a write.  Offline it puts the change on the queue.  Online,
    whenever it throws -- no token, or either append rejected or answered
    not ok -- the change is on the queue, once; and when it resolves, a
    token was there, both appends were sent and every one of them, the
    cardio log's included, was answered ok.  It never touches a cache
    entry. *)
Theorem token_copy_never_drops (online : bool) (newDate : string -> Date)
    (respond : Request -> Response) (authToken : result string)
    (date : string) (workoutData : Workout.t) (st : State) :
  let workout := workoutRequests (formatDate newDate date) workoutData in
  let cardio := cardioRequests (formatDate newDate date) workoutData in
  let '(r, st') :=
    SheetsJsAuth.updateWorkoutData online newDate respond authToken date
                                   workoutData st in
  (forall d, storage st' !! cacheKey d = storage st !! cacheKey d)
  /\ (exists k, sent st' = sent st ++ take k (workout ++ cardio))
  /\ match r with
     | Ok Offline =>
         online = false /\ sent st' = sent st
         /\ queueOf st' = queueOf st ++ [mkChange date workoutData]
     | Ok Success =>
         online = true /\ sent st' = sent st ++ workout ++ cardio
         /\ queueOf st' = queueOf st
         /\ Forall (answeredOk respond) (workout ++ cardio)
         /\ exists token, authToken = Ok token
     | Throw _ =>
         online = true
         /\ queueOf st' = queueOf st ++ [mkChange date workoutData]
     end.
Proof.
  intros workout cardio. subst workout cardio.
  unfold workoutRequests, cardioRequests, answeredOk.
  assert (forall s : State,
             queueOf (snd (syncQueue_add (mkChange date workoutData) s))
             = queueOf s ++ [mkChange date workoutData]) as Hq.
  { intros s. rewrite JsService.syncQueue_add_spec. unfold queueOf at 1.
    cbn [snd storage]. now rewrite lookup_insert_eq. }
  assert (forall (s : State) d,
             storage (snd (syncQueue_add (mkChange date workoutData) s)) !! cacheKey d
             = storage s !! cacheKey d) as Hc.
  { intros s d. rewrite JsService.syncQueue_add_spec. cbn [snd storage].
    now rewrite lookup_insert_ne
      by (symmetry; apply CacheQueue.cacheKey_not_syncQueue). }
  destruct online.
  2:{ unfold SheetsJsAuth.updateWorkoutData, bind, ret. cbn [negb].
      specialize (Hq st). specialize (Hc st).
      rewrite JsService.syncQueue_add_spec in *. cbn [snd] in *.
      split; [exact Hc|]. split; [exists 0%nat; cbn; now rewrite app_nil_r|].
      repeat split. exact Hq. }
  unfold SheetsJsAuth.updateWorkoutData, SheetsJsAuth.getAuthToken,
    catch, fetch, ret, throw, bind.
  cbn [negb].
  destruct authToken as [token|e0]; [|enqueued Hq Hc 0%nat].
  destruct (Workout.exercises workoutData) as [|e es] eqn:He;
    cbn [length Nat.ltb Nat.leb app].
  - destruct (Workout.cardio workoutData) as [c|] eqn:Hcd;
      [destruct (someTruthy c) eqn:Hs|].
    + cbn [storage sent].
      destruct (respond (Append cardioLogAppend
                           [cardioRow (formatDate newDate date) c]))
        as [er|s|v] eqn:Hr;
        [enqueued Hq Hc 1%nat | enqueued Hq Hc 1%nat | resolved 1%nat].
    + destruct st. resolved 0%nat.
    + destruct st. resolved 0%nat.
  - set (wq := Append workoutLogAppend
                 (map (workoutRow (formatDate newDate date)) (e :: es))).
    destruct (respond wq) as [er|s|v] eqn:Hw;
      [enqueued Hq Hc 1%nat | enqueued Hq Hc 1%nat |].
    cbn [storage sent].
    destruct (Workout.cardio workoutData) as [c|] eqn:Hcd;
      [destruct (someTruthy c) eqn:Hs|].
    + cbn [storage sent].
      destruct (respond (Append cardioLogAppend
                           [cardioRow (formatDate newDate date) c]))
        as [er|s|v'] eqn:Hr;
        [enqueued Hq Hc 2%nat | enqueued Hq Hc 2%nat | resolved 2%nat].
    + resolved 1%nat.
    + resolved 1%nat.
Qed.

(** X26.  Clearing the offline changes empties the queue and nothing
    else: afterwards the queue reads as empty, every cache entry is as it
    was, nothing was sent, and a change saved offline after that is the
    only one on the queue. *)
Theorem clear_empties_queue_only (newDate : string -> Date)
    (respond : Request -> Response) (authToken : result string)
    (date : string) (workoutData : Workout.t) (st : State) :
  let st1 := snd (clearOfflinePendingChanges st) in
  getOfflinePendingChanges st1 = (Ok [], st1)
  /\ sent st1 = sent st
  /\ (forall d, storage st1 !! cacheKey d = storage st !! cacheKey d)
  /\ (let st2 :=
        snd (SheetsJsAuth.updateWorkoutData false newDate respond authToken date
                                            workoutData st1) in
      fst (getOfflinePendingChanges st2) = Ok [mkChange date workoutData]).
Proof.
  unfold clearOfflinePendingChanges, getOfflinePendingChanges, syncQueue_get,
    SheetsJsAuth.updateWorkoutData, syncQueue_add, getItem, setItem, ret, bind.
  cbn [snd fst storage sent negb]. rewrite lookup_delete_eq.
  split; [reflexivity|]. split; [reflexivity|]. split.
  - intros d. now rewrite lookup_delete_ne
      by (symmetry; apply CacheQueue.cacheKey_not_syncQueue).
  - now rewrite lookup_insert_eq.
Qed.

End Tokens.

(* ===================================================================== *)
(** * The older TypeScript service: an expired token *)
(* ===================================================================== *)

Module ExpiredToken.
Import JS JSFacts Spec Samples Remote SheetsOldFetch.

(** X27.  In the older service, a read answered with status 401 throws
    'Authentication expired' and removes the token from local storage, so
    the next read, of whatever range, throws 'No authentication token
    available' without sending anything.  Any other failure keeps the
    token. *)
Theorem expired_token_is_removed (respond respond' : Request -> Response)
    (range range' : string) (st : State) :
  truthy (token st) = true ->
  let request := mkRequest (orEmpty (token st)) range in
  let '(r, st') := fetchSheetData respond range st in
  sent st' = sent st ++ [request]
  /\ match respond request with
     | Resolved 401 _ =>
         r = Throw "Authentication expired" /\ token st' = None
         /\ fetchSheetData respond' range' st'
            = (Throw "No authentication token available", st')
     | Resolved status values =>
         token st' = token st
         /\ r = if ok status then Ok values
                else Throw ("API request failed: " +:+ toString (Int status))
     | Rejected e => token st' = token st /\ r = Throw e
     end.
Proof.
  intros Ht request. subst request.
  unfold fetchSheetData, getAuthToken, fetch, removeToken, ret, throw, bind.
  rewrite Ht. cbn [token sent].
  destruct (respond (mkRequest (orEmpty (token st)) range)) as [e|status values].
  - cbn [token sent]. repeat split.
  - destruct (Z.eq_dec status 401) as [-> | Hne].
    + cbn [ok Z.leb Z.compare Pos.compare Pos.compare_cont andb negb Z.eqb Pos.eqb
              token sent].
      repeat split.
    + assert ((status =? 401) = false) as E by (now apply Z.eqb_neq).
      destruct (ok status) eqn:Hok; cbn [negb]; rewrite ?E; cbn [token sent].
      * destruct status as [|p|p]; try (repeat split; fail).
        do 9 (destruct p as [p|p|]; try (repeat split; fail)); now destruct Hne.
      * destruct status as [|p|p]; try (repeat split; fail).
        do 9 (destruct p as [p|p|]; try (repeat split; fail)); now destruct Hne.
Qed.

Lemma expired_token_is_removed_witness :
  let respond (q : Request) := Resolved 401 None in
  let '(r, st') :=
    fetchSheetData respond "'workout log'!A:AL" (mkState (Some "t") []) in
  r = Throw "Authentication expired" /\ token st' = None
  /\ fetchSheetData respond "'cardio log'!A:BM" st'
     = (Throw "No authentication token available", st').
Proof.
  intros respond.
  pose proof (expired_token_is_removed respond respond "'workout log'!A:AL"
                "'cardio log'!A:BM" (mkState (Some "t") []) eq_refl) as H.
  cbv zeta in H.
  destruct (fetchSheetData respond "'workout log'!A:AL" (mkState (Some "t") []))
    as [r st'].
  exact (proj2 H).
Defined.

End ExpiredToken.

(* ===================================================================== *)
(** * The cardio row appended and read back; the older service's columns *)
(* ===================================================================== *)

Module CardioReadBack.
Import JS JSFacts Spec Terms Samples Remote SheetsJs.

(** X28.  processCardioRows decodes the cardio row updateWorkoutData
    builds: given that row first among the rows below a header -- as
    written, or with empty cells at the end left out --, it returns, for
    the same calendar date, the same session, provided minutes, seconds
    and watts are integers and the rpe a decimal, all held exactly. *)
Theorem appended_cardio_reads_back (newDate : string -> Date) (date : string)
    (c : Cardio.t) (header cells : Row) (rest : list Row) :
  calendarDay (newDate date) ->
  exactInteger (Cardio.minutes c) -> exactInteger (Cardio.seconds c) ->
  exact (Cardio.rpe c) -> exactInteger (Cardio.watts c) ->
  returnedFor (cardioRow (formatDate newDate date) c) cells ->
  processCardioRows (header :: cells :: rest) (formatDate newDate date) = Some c.
Proof.
  intros Hd Hm Hs Hr Hw Hret.
  set (target := formatDate newDate date) in *.
  assert (target <> EmptyString) as Hne
    by (subst target; apply ReadUpdate.parseDate_not_empty).
  destruct c as [modality minutes seconds rpe workRest watts notes].
  cbn [Cardio.minutes Cardio.seconds Cardio.rpe Cardio.watts] in *.
  set (c := Cardio.mk modality minutes seconds rpe workRest watts notes) in *.
  assert (cardioRow target c !! 5%nat = Some (Some target)) as H5 by reflexivity.
  assert (cardioRow target c !! 8%nat = Some (Some modality)) as H8 by reflexivity.
  assert (cardioRow target c !! 11%nat = Some (Some (toString minutes))) as H11
    by reflexivity.
  assert (cardioRow target c !! 12%nat = Some (Some (toString seconds))) as H12
    by reflexivity.
  assert (cardioRow target c !! 16%nat = Some (Some (toString rpe))) as H16
    by reflexivity.
  assert (cardioRow target c !! 17%nat = Some (Some workRest)) as H17 by reflexivity.
  assert (cardioRow target c !! 24%nat = Some (Some (toString watts))) as H24
    by reflexivity.
  assert (cardioRow target c !! 64%nat = Some (Some notes)) as H64 by reflexivity.
  destruct (RoundTrip.integer_round_trip minutes Hm) as [Tm Em].
  destruct (RoundTrip.integer_round_trip seconds Hs) as [Ts Es].
  destruct (RoundTrip.integer_round_trip watts Hw) as [Tw Ew].
  pose proof (RoundTrip.decimal_round_trip rpe Hr) as Er.
  assert (forall x, truthyStr (toString x) = true -> toString x <> EmptyString)
    as Hnonempty.
  { intros x T E. rewrite E in T. discriminate T. }
  unfold processCardioRows, slice1. cbn [drop List.find].
  rewrite (WriteRead.returned_present _ _ Hret _ _ H5 Hne).
  subst target. rewrite WriteRead.matchesDate_formatted by exact Hd.
  rewrite (WriteRead.returned_orEmpty _ _ Hret _ _ H8).
  rewrite (WriteRead.returned_present _ _ Hret _ _ H11 (Hnonempty _ Tm)).
  rewrite (WriteRead.returned_present _ _ Hret _ _ H12 (Hnonempty _ Ts)).
  rewrite (WriteRead.returned_before _ _ Hret _ _ _ _ H16 H24 (Hnonempty _ Tw)
             ltac:(lia)).
  rewrite (WriteRead.returned_orEmpty _ _ Hret _ _ H17).
  rewrite (WriteRead.returned_present _ _ Hret _ _ H24 (Hnonempty _ Tw)).
  rewrite (WriteRead.returned_orEmpty _ _ Hret _ _ H64).
  now rewrite Em, Es, Er, Ew.
Qed.

(** The sheet leaves out the cells after the watts. *)
Lemma appended_cardio_reads_back_witness :
  let fd := formatDate (fun _ => LocalDate 11 12) "2024-12-12" in
  processCardioRows [[]; take 25 (map orEmpty (cardioRow fd bike))] fd = Some bike.
Proof.
  intros fd.
  apply (appended_cardio_reads_back (fun _ => LocalDate 11 12) "2024-12-12" bike
           [] (take 25 (map orEmpty (cardioRow fd bike))) []).
  - cbn. lia.
  - now exists 20.
  - now exists 0.
  - cbn. lia.
  - now exists 180.
  - exists 40%nat. reflexivity.
Defined.

End CardioReadBack.

Module OldColumns.
Import JS JSFacts Spec Samples SheetsTs.



End OldColumns.

(* ===================================================================== *)
(** * Rows no wider than the range the JavaScript service reads *)
(* ===================================================================== *)

Module NarrowRows.
Import JS JSFacts Spec Terms Samples Remote SheetsJs.

Lemma pushSet_narrow (row : Row) (sets : list WSet.t) (setNum : nat) :
  narrow row -> (4 <= setNum)%nat -> pushSet row sets setNum = sets.
Proof.
  unfold narrow. intros Hn Hk. unfold pushSet, Row in *. cbv zeta.
  now rewrite !lookup_ge_None_2 by lia.
Qed.

Lemma sets_narrow (row : Row) (n : nat) :
  narrow row ->
  (length (fold_left (pushSet row) (seq 0 n) []) <= Nat.min n 4)%nat.
Proof.
  intros Hn. induction n as [|n IH]; [cbn; lia|].
  rewrite seq_S, fold_left_app. cbn [fold_left Nat.add].
  destruct (le_lt_dec 4 n) as [Hge|Hlt].
  - rewrite pushSet_narrow by assumption. lia.
  - unfold pushSet at 1.
    match goal with
    | |- context [if ?b then _ else _] => destruct b
    end; rewrite ?length_app; cbn [length]; lia.
Qed.

Lemma pushExercise_narrow (row : Row) (exercises : list Exercise.t) :
  narrow row -> Forall fourSetsNoNotes exercises ->
  Forall fourSetsNoNotes (pushExercise exercises row).
Proof.
  intros Hn Hacc. unfold pushExercise.
  destruct (negb (truthy (row !! 8%nat))); [exact Hacc|].
  match goal with
  | |- context [if ?b then _ else _] => destruct b
  end; [|exact Hacc].
  apply Forall_app. split; [exact Hacc|]. constructor; [|constructor].
  split; cbn [Exercise.sets Exercise.notes].
  - etransitivity; [now apply sets_narrow | lia].
  - unfold narrow, Row in *. now rewrite lookup_ge_None_2 by lia.
Qed.

Lemma find_Forall {A} (P : A -> Prop) (f : A -> bool) (l : list A) (x : A) :
  Forall P l -> List.find f l = Some x -> P x.
Proof.
  induction 1 as [|y l Hy Hl IH]; cbn [List.find]; [discriminate|].
  destruct (f y); [now intros [= <-] | exact IH].
Qed.

(** X30.  The reader of the JavaScript service loses what lies beyond
    column Z.  From rows of at most 26 cells -- all that the range A to Z,
    which the service asks for, can hold -- processWorkoutRows returns
    exercises of at most four sets whose notes are empty, and
    processCardioRows a session whose notes are empty: the notes cells, in
    columns 37 and 64, and the sets from the fifth on are not among the
    cells read. *)
Theorem narrow_rows_lose_notes (rows : list Row) (targetDate : string) :
  Forall narrow rows ->
  Forall fourSetsNoNotes (processWorkoutRows rows targetDate)
  /\ forall c, processCardioRows rows targetDate = Some c ->
               Cardio.notes c = EmptyString.
Proof.
  intros Hn. assert (Forall narrow (slice1 rows)) as Hs by (now apply Forall_drop).
  split.
  - unfold processWorkoutRows.
    assert (forall acc, Forall fourSetsNoNotes acc ->
              Forall fourSetsNoNotes
                (fold_left pushExercise
                   (List.filter (fun row => matchesDate (row !! 6%nat) targetDate)
                                (slice1 rows)) acc)) as H;
      [|apply H; constructor].
    induction Hs as [|row l Hrow Hl IH]; intros acc Hacc; [exact Hacc|].
    cbn [List.filter]. destruct (matchesDate (row !! 6%nat) targetDate);
      [|now apply IH].
    cbn [fold_left]. apply IH. now apply pushExercise_narrow.
  - intros c. unfold processCardioRows.
    destruct (List.find _ (slice1 rows)) as [row|] eqn:E; [|discriminate].
    pose proof (find_Forall narrow _ _ _ Hs E) as Hrow.
    unfold narrow, Row in *.
    intros [= <-]. cbn [Cardio.notes]. now rewrite lookup_ge_None_2 by lia.
Qed.

(** A row of 26 cells with five sets and a count of five: four are read. *)
Lemma narrow_rows_lose_notes_witness :
  let row :=
    replicate 6 EmptyString ++ ["12/12"; EmptyString; "Squat"] ++
    replicate 4 EmptyString ++ ["5"] ++
    ["8"; "100"; "2"; "8"; "100"; "2"; "8"; "100"; "1"; "7"; "100"; "0"] in
  Forall fourSetsNoNotes (processWorkoutRows [[]; row] "12/12")
  /\ length (processWorkoutRows [[]; row] "12/12") = 1%nat.
Proof.
  intros row. split; [|vm_compute; reflexivity].
  apply (narrow_rows_lose_notes [[]; row] "12/12").
  repeat constructor; unfold narrow; cbn; lia.
Defined.

End NarrowRows.
